(** * Agent Pro core: resilience and execution orchestration

    A shallow embedding of [packages/core/src]: the error classes of
    [errors.ts], the circuit breaker and the retry helper of
    [resilience.ts], and [AgentRuntime.execute] of [runtime.ts], followed by
    the properties of the specification that concern them.

    JavaScript numbers that hold counters, thresholds and millisecond
    timestamps are integers in every use the source makes of them and are
    modelled by [Z]; the back-off delays, which involve [Math.random], are
    modelled by [Q]; the configuration fields that [validateConfig]
    compares, which a caller may leave [undefined] or set to [NaN], are
    modelled by [JsNumber]. *)

From Stdlib Require Import ZArith QArith Qround Qminmax Qpower Lqa.
From Stdlib Require Import List String Bool Lia.
From Stdlib Require Import DecimalString.
Import ListNotations.

Local Open Scope string_scope.
Local Open Scope Z_scope.

(** Decimal rendering of an integer, as a template literal does it. *)
Definition string_of_Z (z : Z) : string :=
  NilZero.string_of_int (Z.to_int z).

(** JavaScript truthiness of an optional number ([undefined] and [0] are
    falsy). *)
Definition truthy (o : option Z) : bool :=
  match o with
  | Some n => negb (n =? 0)
  | None => false
  end.

(** What a numeric configuration field can hold when it is compared: a
    finite number, an infinity, [NaN], or [undefined], which [<] and [>]
    convert to [NaN]. *)
Inductive JsNumber : Type :=
| Finite (q : Q)
| PosInfinity
| NegInfinity
| NaN
| Undefined.

(** [x < bound] for a finite [bound]: false when [x] is not a number. *)
Definition jsLt (x : JsNumber) (bound : Q) : bool :=
  match x with
  | Finite q => negb (Qle_bool bound q)
  | NegInfinity => true
  | PosInfinity | NaN | Undefined => false
  end.

(** [x > bound] for a finite [bound]: false when [x] is not a number. *)
Definition jsGt (x : JsNumber) (bound : Q) : bool :=
  match x with
  | Finite q => negb (Qle_bool q bound)
  | PosInfinity => true
  | NegInfinity | NaN | Undefined => false
  end.

(* ================================================================= *)
(** ** errors.ts *)

Module Errors.

(** One constructor per class of [errors.ts], with the arguments of its
    constructor; [code], [retryable] and [message] are what the class
    passes to [super].  The metadata bag repeats the arguments and is not
    kept apart. *)
Inductive AgentError : Type :=
| BaseAgentError (message code : string) (retryable : bool)
| AgentTimeoutError (operation : string) (timeout : Z)
| AgentRateLimitError (message : string)
    (retryAfter limit remaining resetAt : option Z)
| AgentModelError (message : string) (provider : option string)
    (statusCode : option Z)
| AgentToolError (toolName message : string)
| AgentValidationError (message : string) (field value : option string)
| AgentMemoryError (message : string)
| AgentCircuitOpenError (opensAt : option Z).

Definition code (e : AgentError) : string :=
  match e with
  | BaseAgentError _ c _ => c
  | AgentTimeoutError _ _ => "AGENT_TIMEOUT"
  | AgentRateLimitError _ _ _ _ _ => "AGENT_RATE_LIMIT"
  | AgentModelError _ _ _ => "AGENT_MODEL_ERROR"
  | AgentToolError _ _ => "AGENT_TOOL_ERROR"
  | AgentValidationError _ _ _ => "AGENT_VALIDATION_ERROR"
  | AgentMemoryError _ => "AGENT_MEMORY_ERROR"
  | AgentCircuitOpenError _ => "AGENT_CIRCUIT_OPEN"
  end.

Definition retryable (e : AgentError) : bool :=
  match e with
  | BaseAgentError _ _ r => r
  | AgentTimeoutError _ _ => true
  | AgentRateLimitError _ _ _ _ _ => true
  | AgentModelError _ _ sc =>
      match sc with
      | Some s => 500 <=? s
      | None => false
      end
  | AgentToolError _ _ => false
  | AgentValidationError _ _ _ => false
  | AgentMemoryError _ => true
  | AgentCircuitOpenError _ => false
  end.

Definition message (e : AgentError) : string :=
  match e with
  | BaseAgentError m _ _ => m
  | AgentTimeoutError op t =>
      ("Operation '" ++ op ++ "' timed out after " ++ string_of_Z t
         ++ "ms")%string
  | AgentRateLimitError m _ _ _ _ => m
  | AgentModelError m _ _ => m
  | AgentToolError tool m => ("Tool '" ++ tool ++ "' failed: " ++ m)%string
  | AgentValidationError m _ _ => m
  | AgentMemoryError m => m
  | AgentCircuitOpenError _ => "Circuit breaker is open"
  end.

(** [e instanceof AgentTimeoutError] *)
Definition isAgentTimeoutError (e : AgentError) : bool :=
  match e with
  | AgentTimeoutError _ _ => true
  | _ => false
  end.

(** Instances of the built-in [Error]: a plain one, or an [AgentError]. *)
Inductive JsError : Type :=
| PlainError (message : string)
| OfAgentError (e : AgentError).

(** What a [throw] can carry: an [Error], or any other value, of which the
    code only ever takes [String(v)]. *)
Inductive Thrown : Type :=
| ThrowError (e : JsError)
| ThrowValue (repr : string).

Definition throwAgent (e : AgentError) : Thrown :=
  ThrowError (OfAgentError e).

Definition errorMessage (e : JsError) : string :=
  match e with
  | PlainError m => m
  | OfAgentError a => message a
  end.

(** [error instanceof Error ? error : new Error(String(error))] *)
Definition toError (t : Thrown) : JsError :=
  match t with
  | ThrowError e => e
  | ThrowValue s => PlainError s
  end.

(** [error instanceof Error ? error.message : String(error)] *)
Definition messageOf (t : Thrown) : string :=
  match t with
  | ThrowError e => errorMessage e
  | ThrowValue s => s
  end.

(** [error instanceof AgentError && !error.retryable] *)
Definition nonRetryable (t : Thrown) : bool :=
  match t with
  | ThrowError (OfAgentError a) => negb (retryable a)
  | _ => false
  end.

(** [error instanceof AgentTimeoutError] *)
Definition instanceofTimeout (t : Thrown) : bool :=
  match t with
  | ThrowError (OfAgentError a) => isAgentTimeoutError a
  | _ => false
  end.

End Errors.

(* ================================================================= *)
(** ** resilience.ts: the circuit breaker *)

Module CircuitBreaker.

Inductive CircuitState : Type := closed | open | half_open.

Definition CircuitState_eqb (a b : CircuitState) : bool :=
  match a, b with
  | closed, closed | open, open | half_open, half_open => true
  | _, _ => false
  end.

Record CircuitBreakerConfig : Type := {
  failureThreshold : Z;
  successThreshold : Z;
  timeout : Z
}.

(** The private fields of the class.  [None] is [undefined]. *)
Record t : Type := mk {
  state : CircuitState;
  failures : Z;
  successes : Z;
  lastFailureTime : option Z;
  nextAttemptTime : option Z
}.

(** The field initialisers. *)
Definition initial : t :=
  {| state := closed; failures := 0; successes := 0;
     lastFailureTime := None; nextAttemptTime := None |}.

(** Assignments to the fields. *)
Definition set_state (s : CircuitState) (cb : t) : t :=
  mk s (failures cb) (successes cb) (lastFailureTime cb) (nextAttemptTime cb).

Definition set_failures (n : Z) (cb : t) : t :=
  mk (state cb) n (successes cb) (lastFailureTime cb) (nextAttemptTime cb).

Definition set_successes (n : Z) (cb : t) : t :=
  mk (state cb) (failures cb) n (lastFailureTime cb) (nextAttemptTime cb).

Definition set_lastFailureTime (o : option Z) (cb : t) : t :=
  mk (state cb) (failures cb) (successes cb) o (nextAttemptTime cb).

Definition set_nextAttemptTime (o : option Z) (cb : t) : t :=
  mk (state cb) (failures cb) (successes cb) (lastFailureTime cb) o.

Section Methods.
Variable config : CircuitBreakerConfig.

(** The lazy transition shared by [isOpen] and [getState]:
    [state === 'open' && nextAttemptTime] and [Date.now() >=
    nextAttemptTime].  [now] is the reading of [Date.now()]. *)
Definition due (now : Z) (cb : t) : bool :=
  match state cb, nextAttemptTime cb with
  | open, Some d => truthy (Some d) && (d <=? now)
  | _, _ => false
  end.

(** [this.state = 'half-open'; this.nextAttemptTime = undefined] *)
Definition toHalfOpen (cb : t) : t :=
  set_nextAttemptTime None (set_state half_open cb).

Definition isOpen (now : Z) (cb : t) : bool * t :=
  match state cb with
  | closed => (false, cb)
  | _ =>
      if due now cb then (false, toHalfOpen cb)
      else (CircuitState_eqb (state cb) open, cb)
  end.

Definition getState (now : Z) (cb : t) : CircuitState * t :=
  if due now cb then (half_open, toHalfOpen cb)
  else (state cb, cb).

Definition recordSuccess (cb : t) : t :=
  let cb := set_failures 0 cb in
  match state cb with
  | half_open =>
      let cb := set_successes (successes cb + 1) cb in
      if successThreshold config <=? successes cb then
        set_successes 0 (set_state closed cb)
      else cb
  | _ => cb
  end.

(** [setNextAttemptTime]: [now] is its own reading of [Date.now()]. *)
Definition setNextAttemptTime (now : Z) (cb : t) : t :=
  set_nextAttemptTime (Some (now + timeout config)) cb.

(** [recordFailure] reads the clock twice: [tFail] is the reading stored
    in [lastFailureTime], [tSched] the later one taken by
    [setNextAttemptTime]. *)
Definition recordFailure (tFail tSched : Z) (cb : t) : t :=
  let cb := set_failures (failures cb + 1) cb in
  let cb := set_lastFailureTime (Some tFail) cb in
  match state cb with
  | half_open =>
      set_successes 0 (setNextAttemptTime tSched (set_state open cb))
  | _ =>
      if failureThreshold config <=? failures cb then
        setNextAttemptTime tSched (set_state open cb)
      else cb
  end.

Definition reset (cb : t) : t := initial.

(** A run of [recordFailure] calls, one pair of clock readings each. *)
Definition recordFailures (ts : list (Z * Z)) (cb : t) : t :=
  fold_left (fun c p => recordFailure (fst p) (snd p) c) ts cb.

(** [k] calls of [recordSuccess] in a row. *)
Fixpoint recordSuccesses (k : nat) (cb : t) : t :=
  match k with
  | O => cb
  | S k' => recordSuccesses k' (recordSuccess cb)
  end.

End Methods.

(** The breakers the public methods lead to from a new one. *)
Inductive reachable (config : CircuitBreakerConfig) : t -> Prop :=
| reach_new : reachable config initial
| reach_isOpen (now : Z) (cb : t) :
    reachable config cb -> reachable config (snd (isOpen now cb))
| reach_getState (now : Z) (cb : t) :
    reachable config cb -> reachable config (snd (getState now cb))
| reach_recordSuccess (cb : t) :
    reachable config cb -> reachable config (recordSuccess config cb)
| reach_recordFailure (tFail tSched : Z) (cb : t) :
    reachable config cb ->
    reachable config (recordFailure config tFail tSched cb)
| reach_reset (cb : t) :
    reachable config cb -> reachable config (reset cb).

End CircuitBreaker.

(* ================================================================= *)
(** ** types.ts *)

Module ExecutionStatus.
Inductive t : Type :=
  pending | running | completed | failed | timeout | cancelled.

(** The statuses an execution can end in. *)
Definition terminal (s : t) : bool :=
  match s with
  | completed | failed | timeout => true
  | _ => false
  end.
End ExecutionStatus.

Module Types.

Inductive MessageRole : Type := system | user | assistant | tool.

Record Message : Type := {
  role : MessageRole;
  content : string;
  timestamp : option Z
}.

Record ToolCall : Type := {
  tc_id : string;
  tc_name : string
}.

Record TokenUsage : Type := {
  promptTokens : Z;
  completionTokens : Z;
  totalTokens : Z;
  cost : option Q
}.

(** [exec_${Date.now()}_${Math.random().toString(36).substr(2, 9)}], kept
    as the clock reading and the random draw it is printed from. *)
Record ExecId : Type := {
  stamp : Z;
  nonce : Q
}.

Record ExecutionResult : Type := {
  id : ExecId;
  status : ExecutionStatus.t;
  output : string;
  toolCalls : list ToolCall;
  messages : list Message;
  usage : TokenUsage;
  duration : Z;
  error : option string
}.

Record ExecutionConfig : Type := {
  userId : option string;
  sessionId : option string;
  timeout : option Z;
  maxIterations : option Z
}.

(** [config: ExecutionConfig = {}] *)
Definition noOverrides : ExecutionConfig :=
  {| userId := None; sessionId := None; timeout := None;
     maxIterations := None |}.

End Types.

(* ================================================================= *)
(** ** The execution model

    Asynchronous code is run on a virtual clock.  A computation takes a
    world to an outcome and a world; time passes only while it awaits the
    backend or a timer, and an await that would end after the armed race
    deadline leaves the computation unsettled, with the world as it is at the
    deadline: what an abandoned call goes on to do in the background is not
    followed.  A computation that settles exactly at the deadline counts as
    settled.  One call of [execute] is followed at a time; what other calls
    did before it shows in the world it starts from. *)

Module Exec.
Import Errors Types.

Inductive Payload : Type :=
| NoPayload
| ErrorInfo (e : Thrown)
| StartInfo (executionId : ExecId) (task : string)
| AttemptInfo (attempt max : Z)
| RetryInfo (attempt : Z) (delay : Q) (error : string)
| CompleteInfo (executionId : ExecId) (result : ExecutionResult)
| FailureInfo (executionId : ExecId) (e : Thrown).

(** What an observer of the run sees, in order. *)
Inductive Event : Type :=
| Emit (name : string) (detail : Payload)
| Invoke (index : nat)
| Sleep (ms : Q).

(** metrics.ts: the counters of [AgentMetrics]. *)
Record Metrics : Type := {
  executions : Z;
  successes : Z;
  failures : Z;
  timeouts : Z;
  totalDuration : Z;
  totalTokens : Z;
  totalCost : Q;
  initialized : bool
}.

Definition newMetrics : Metrics :=
  {| executions := 0; successes := 0; failures := 0; timeouts := 0;
     totalDuration := 0; totalTokens := 0; totalCost := 0%Q;
     initialized := false |}.

(** The clock, the deadline of the race in progress, the numbers of
    [Math.random] draws and of backend calls so far, what was observed,
    and the state of the runtime object: its fields, whether a listener is
    registered for ['error'], and how the process prints a payload
    ([util.inspect]). *)
Record World : Type := {
  now : Z;
  deadline : option Z;
  drawn : nat;
  calls : nat;
  log : list Event;
  isInitialized : bool;
  circuitBreaker :
    option (CircuitBreaker.CircuitBreakerConfig * CircuitBreaker.t);
  metrics : Metrics;
  errorListener : bool;
  inspect : Payload -> string
}.

Inductive Outcome (A : Type) : Type :=
| Resolved (a : A)
| Rejected (e : Thrown)
| Unsettled.
Arguments Resolved {A} a.
Arguments Rejected {A} e.
Arguments Unsettled {A}.

Definition M (A : Type) : Type := World -> Outcome A * World.

Definition ret {A} (a : A) : M A := fun w => (Resolved a, w).

Definition bind {A B} (m : M A) (k : A -> M B) : M B :=
  fun w =>
    match m w with
    | (Resolved a, w') => k a w'
    | (Rejected e, w') => (Rejected e, w')
    | (Unsettled, w') => (Unsettled, w')
    end.

Definition throw {A} (e : Thrown) : M A := fun w => (Rejected e, w).

(** [try { m } catch (error) { h error }] *)
Definition tryCatch {A} (m : M A) (h : Thrown -> M A) : M A :=
  fun w =>
    match m w with
    | (Rejected e, w') => h e w'
    | r => r
    end.

Definition get {A} (f : World -> A) : M A := fun w => (Resolved (f w), w).

Definition modify (f : World -> World) : M unit :=
  fun w => (Resolved tt, f w).

Definition set_now (t : Z) (w : World) : World :=
  {| now := t; deadline := deadline w; drawn := drawn w; calls := calls w;
     log := log w; isInitialized := isInitialized w;
     circuitBreaker := circuitBreaker w; metrics := metrics w;
     errorListener := errorListener w; inspect := inspect w |}.

Definition set_deadline (d : option Z) (w : World) : World :=
  {| now := now w; deadline := d; drawn := drawn w; calls := calls w;
     log := log w; isInitialized := isInitialized w;
     circuitBreaker := circuitBreaker w; metrics := metrics w;
     errorListener := errorListener w; inspect := inspect w |}.

Definition set_drawn (n : nat) (w : World) : World :=
  {| now := now w; deadline := deadline w; drawn := n; calls := calls w;
     log := log w; isInitialized := isInitialized w;
     circuitBreaker := circuitBreaker w; metrics := metrics w;
     errorListener := errorListener w; inspect := inspect w |}.

Definition set_calls (n : nat) (w : World) : World :=
  {| now := now w; deadline := deadline w; drawn := drawn w; calls := n;
     log := log w; isInitialized := isInitialized w;
     circuitBreaker := circuitBreaker w; metrics := metrics w;
     errorListener := errorListener w; inspect := inspect w |}.

Definition set_log (l : list Event) (w : World) : World :=
  {| now := now w; deadline := deadline w; drawn := drawn w;
     calls := calls w; log := l; isInitialized := isInitialized w;
     circuitBreaker := circuitBreaker w; metrics := metrics w;
     errorListener := errorListener w; inspect := inspect w |}.

Definition set_isInitialized (b : bool) (w : World) : World :=
  {| now := now w; deadline := deadline w; drawn := drawn w;
     calls := calls w; log := log w; isInitialized := b;
     circuitBreaker := circuitBreaker w; metrics := metrics w;
     errorListener := errorListener w; inspect := inspect w |}.

Definition set_circuitBreaker
    (c : option (CircuitBreaker.CircuitBreakerConfig * CircuitBreaker.t))
    (w : World) : World :=
  {| now := now w; deadline := deadline w; drawn := drawn w;
     calls := calls w; log := log w; isInitialized := isInitialized w;
     circuitBreaker := c; metrics := metrics w;
     errorListener := errorListener w; inspect := inspect w |}.

Definition set_metrics (m : Metrics) (w : World) : World :=
  {| now := now w; deadline := deadline w; drawn := drawn w;
     calls := calls w; log := log w; isInitialized := isInitialized w;
     circuitBreaker := circuitBreaker w; metrics := m;
     errorListener := errorListener w; inspect := inspect w |}.

Definition set_errorListener (b : bool) (w : World) : World :=
  {| now := now w; deadline := deadline w; drawn := drawn w;
     calls := calls w; log := log w; isInitialized := isInitialized w;
     circuitBreaker := circuitBreaker w; metrics := metrics w;
     errorListener := b; inspect := inspect w |}.

(** [Date.now()] *)
Definition dateNow : M Z := get now.

Definition record (e : Event) : M unit :=
  modify (fun w => set_log (log w ++ [e]) w).

(** [this.emit(name, detail)] for a [name] other than ['error']; what the
    listeners do is outside the model. *)
Definition emit (name : string) (detail : Payload) : M unit :=
  record (Emit name detail).

(** [runtime.on('error', listener)] *)
Definition onError : M unit := modify (set_errorListener true).

(** What Node's [EventEmitter] throws when ['error'] is emitted with a
    payload that is not an [Error] and no listener is registered for it:
    an [ERR_UNHANDLED_ERROR], an [Error] whose message quotes the payload
    as [util.inspect] prints it. *)
Definition unhandledError (printed : string) : Thrown :=
  ThrowError (PlainError ("Unhandled error. (" ++ printed ++ ")")%string).

(** [this.emit('error', detail)], where [detail] is an object literal: the
    event is delivered when a listener is registered, and the call throws
    otherwise. *)
Definition emitError (detail : Payload) : M unit :=
  fun w =>
    if errorListener w then record (Emit "error" detail) w
    else (Rejected (unhandledError (inspect w detail)), w).

(** The delay a Node timer really waits: a delay below 1 or above
    2147483647 is set to 1. *)
Definition timerDelay (ms : Z) : Z :=
  if (1 <=? ms) && (ms <=? 2147483647) then ms else 1.

(** Wait [ms] milliseconds of virtual time, or until the armed deadline
    if that comes first. *)
Definition advance (ms : Z) : M unit :=
  fun w =>
    match deadline w with
    | Some d =>
        if d <? now w + ms then (Unsettled, set_now d w)
        else (Resolved tt, set_now (now w + ms) w)
    | None => (Resolved tt, set_now (now w + ms) w)
    end.

(** [sleep(ms)]: a timer of [ms] milliseconds, truncated to an integer. *)
Definition sleep (ms : Q) : M unit :=
  bind (record (Sleep ms)) (fun _ => advance (timerDelay (Qfloor ms))).

(** [Promise.race([p, timeoutPromise])] where the timer rejects with
    [new AgentTimeoutError('execution', timeout)] after [timeout] ms. *)
Definition raceTimeout {A} (p : M A) (timeout : Z) : M A :=
  fun w =>
    let d := now w + timerDelay timeout in
    match p (set_deadline (Some d) w) with
    | (Unsettled, w1) =>
        (Rejected (throwAgent (AgentTimeoutError "execution" timeout)),
         set_deadline None (set_now d w1))
    | (r, w1) => (r, set_deadline None w1)
    end.

End Exec.

Declare Scope exec_scope.
Delimit Scope exec_scope with exec.
Notation "x <- m ;; k" := (Exec.bind m (fun x => k))
  (at level 61, m at next level, right associativity) : exec_scope.
Notation "m ;;; k" := (Exec.bind m (fun _ => k))
  (at level 61, right associativity) : exec_scope.

Local Open Scope exec_scope.

(* ================================================================= *)
(** ** resilience.ts: the retry helper *)

Module Retry.
Import Errors Exec.

Record RetryConfig : Type := {
  maxRetries : Z;
  baseDelay : Q;
  maxDelay : Q;
  factor : Q
}.

(** The values [attempt] takes in
    [for (let attempt = 0; attempt <= maxRetries; attempt++)]. *)
Definition attemptsOf (maxRetries : Z) : list Z :=
  map Z.of_nat (seq 0 (Z.to_nat (maxRetries + 1))).

(** [throw lastError], where [lastError] may still be [undefined]. *)
Definition throwLast {A} (lastError : option JsError) : M A :=
  match lastError with
  | Some e => throw (ThrowError e)
  | None => throw (ThrowValue "undefined")
  end.

Section WithRandom.
(** The successive results of [Math.random()]. *)
Variable random : nat -> Q.

Definition mathRandom : M Q :=
  fun w => (Resolved (random (drawn w)), set_drawn (S (drawn w)) w).

Definition calculateDelay (attempt : Z) (config : RetryConfig) : M Q :=
  let exponentialDelay :=
    (baseDelay config * Qpower (factor config) attempt)%Q in
  r <- mathRandom ;;
  let jitter := (r * (1 # 10) * exponentialDelay)%Q in
  ret (Qmin (exponentialDelay + jitter)%Q (maxDelay config)).

(** The loop of [withRetry] over the attempts still to make. *)
Fixpoint withRetryFrom {T} (fn : M T) (config : RetryConfig)
    (onRetry : option (Z -> JsError -> Q -> M unit))
    (attempts : list Z) (lastError : option JsError) : M T :=
  match attempts with
  | [] => throwLast lastError
  | attempt :: rest =>
      tryCatch fn (fun error =>
        let lastError' := toError error in
        if attempt =? maxRetries config then throwLast (Some lastError')
        else
          delay <- calculateDelay attempt config ;;
          match onRetry with
          | Some f => f (attempt + 1) lastError' delay
          | None => ret tt
          end ;;;
          sleep delay ;;;
          withRetryFrom fn config onRetry rest (Some lastError'))
  end.

(** An operation handed to [withRetry] whose [k]-th invocation gives
    [script k] at once. *)
Definition operation {T} (script : nat -> Thrown + T) : M T :=
  fun w =>
    (match script (calls w) with
     | inl e => Rejected e
     | inr x => Resolved x
     end,
     set_calls (S (calls w)) (set_log (log w ++ [Invoke (calls w)]) w)).

Definition withRetry {T} (fn : M T) (config : RetryConfig)
    (onRetry : option (Z -> JsError -> Q -> M unit)) : M T :=
  withRetryFrom fn config onRetry (attemptsOf (maxRetries config)) None.

End WithRandom.

End Retry.

(* ================================================================= *)
(** ** runtime.ts *)

Module AgentRuntime.
Import Errors Exec.

Record BreakerOptions : Type := {
  enabled : bool;
  breaker : CircuitBreaker.CircuitBreakerConfig
}.

Record RuntimeConfig : Type := {
  model : string;
  temperature : JsNumber;
  maxTokens : JsNumber;
  maxIterations : JsNumber;
  timeout : Z;
  stream : bool;
  retry : Retry.RetryConfig;
  circuitBreaker : option BreakerOptions;
  metricsEnabled : option bool
}.

Definition DEFAULT_CONFIG : RuntimeConfig :=
  {| model := "gpt-4-turbo-preview";
     temperature := Finite (7 # 10);
     maxTokens := Finite 4096;
     maxIterations := Finite 10;
     timeout := 60000;
     stream := false;
     retry :=
       {| Retry.maxRetries := 3; Retry.baseDelay := 1000;
          Retry.maxDelay := 30000; Retry.factor := 2 |};
     circuitBreaker :=
       Some {| enabled := true;
               breaker :=
                 {| CircuitBreaker.failureThreshold := 5;
                    CircuitBreaker.successThreshold := 2;
                    CircuitBreaker.timeout := 60000 |} |};
     metricsEnabled := Some true |}.

(** [this.config.metrics?.enabled] *)
Definition metricsOn (config : RuntimeConfig) : bool :=
  match metricsEnabled config with
  | Some b => b
  | None => false
  end.

(** The constructor, for a runtime created when the clock reads [clock]
    in a process whose [util.inspect] is [printer]; no listener is
    registered yet. *)
Definition construct (config : RuntimeConfig) (clock : Z)
    (printer : Payload -> string) : World :=
  {| now := clock; deadline := None; drawn := 0; calls := 0; log := [];
     isInitialized := false;
     Exec.circuitBreaker :=
       match circuitBreaker config with
       | Some o =>
           if enabled o then Some (breaker o, CircuitBreaker.initial)
           else None
       | None => None
       end;
     metrics := newMetrics;
     errorListener := false;
     inspect := printer |}.

(** What one call of the backend does: it settles after [latency]
    milliseconds, with an error or a result, or it never settles. *)
Inductive Reply : Type :=
| Settles (latency : nat) (r : Thrown + Types.ExecutionResult)
| Never.

(** [validateConfig]: [Some e] when it throws [e].  Each test is
    [x < lo || x > hi], which a field that is [NaN] or [undefined]
    passes. *)
Definition validateConfig (config : RuntimeConfig) : option AgentError :=
  if jsLt (temperature config) 0 || jsGt (temperature config) 2
  then Some (BaseAgentError "Temperature must be between 0 and 2"
               "INVALID_CONFIG" false)
  else if jsLt (maxTokens config) 1 || jsGt (maxTokens config) 128000
  then Some (BaseAgentError "maxTokens must be between 1 and 128000"
               "INVALID_CONFIG" false)
  else if jsLt (maxIterations config) 1 || jsGt (maxIterations config) 100
  then Some (BaseAgentError "maxIterations must be between 1 and 100"
               "INVALID_CONFIG" false)
  else None.

(** The values of a field that [x < lo || x > hi] lets through. *)
Definition passes (lo hi : Q) (x : JsNumber) : Prop :=
  match x with
  | Finite q => (lo <= q)%Q /\ (q <= hi)%Q
  | PosInfinity | NegInfinity => False
  | NaN | Undefined => True
  end.

(** [AgentMetrics.recordExecution] *)
Definition recordExecution (r : Types.ExecutionResult) (m : Metrics)
  : Metrics :=
  let u := Types.usage r in
  let s := Types.status r in
  {| executions := executions m + 1;
     successes :=
       match s with
       | ExecutionStatus.completed => successes m + 1
       | _ => successes m
       end;
     failures :=
       match s with
       | ExecutionStatus.timeout | ExecutionStatus.failed => failures m + 1
       | _ => failures m
       end;
     timeouts :=
       match s with
       | ExecutionStatus.timeout => timeouts m + 1
       | _ => timeouts m
       end;
     totalDuration := totalDuration m + Types.duration r;
     totalTokens := Exec.totalTokens m + Types.totalTokens u;
     totalCost :=
       match Types.cost u with
       | Some c => if Qeq_bool c 0 then totalCost m else (totalCost m + c)%Q
       | None => totalCost m
       end;
     initialized := initialized m |}.

(** [config.timeout || this.config.timeout] *)
Definition effectiveTimeout (config : Types.ExecutionConfig)
    (rc : RuntimeConfig) : Z :=
  if truthy (Types.timeout config) then
    match Types.timeout config with
    | Some t => t
    | None => timeout rc
    end
  else timeout rc.

(** [Math.ceil(msg.content.length / 4)], summed. *)
Definition estimateTokens (messages : list Types.Message) : Z :=
  fold_left
    (fun sum msg =>
       sum + (Z.of_nat (String.length (Types.content msg)) + 3) / 4)
    messages 0.

(** The two messages an execution starts from; [t1] and [t2] are the
    clock readings of their timestamps. *)
Definition transcript (task : string) (t1 t2 : Z) : list Types.Message :=
  [ {| Types.role := Types.system;
       Types.content := "You are a helpful AI assistant.";
       Types.timestamp := Some t1 |};
    {| Types.role := Types.user; Types.content := task;
       Types.timestamp := Some t2 |} ].

(** The result record as [execute] creates it. *)
Definition newResult (executionId : Types.ExecId)
    (messages : list Types.Message) : Types.ExecutionResult :=
  {| Types.id := executionId;
     Types.status := ExecutionStatus.pending;
     Types.output := "";
     Types.toolCalls := [];
     Types.messages := messages;
     Types.usage :=
       {| Types.promptTokens := 0; Types.completionTokens := 0;
          Types.totalTokens := 0; Types.cost := None |};
     Types.duration := 0;
     Types.error := None |}.

Section Runtime.
Variable config : RuntimeConfig.
Variable random : nat -> Q.
(** The backend behind [executeCore]: the source ships a placeholder
    ([executeCoreStub] below) where the call to a model provider goes,
    so the runtime is modelled over any backend. *)
Variable executeCore :
  World -> list Types.Message -> Types.ExecutionConfig -> Reply.

(** [initialize].  The [catch] block emits ['error'] before it rethrows:
    with a listener registered the rejection is the validation error,
    and without one it is what [emit] throws, the [throw error] after it
    being never reached. *)
Definition initialize : M unit :=
  inited <- get isInitialized ;;
  if inited then ret tt
  else
    emit "initializing" NoPayload ;;;
    tryCatch
      (match validateConfig config with
       | Some e => throw (throwAgent e)
       | None => ret tt
       end ;;;
       (if metricsOn config then
          modify (fun w =>
            set_metrics
              {| executions := executions (metrics w);
                 successes := successes (metrics w);
                 failures := failures (metrics w);
                 timeouts := timeouts (metrics w);
                 totalDuration := totalDuration (metrics w);
                 totalTokens := totalTokens (metrics w);
                 totalCost := totalCost (metrics w);
                 initialized := true |} w)
        else ret tt) ;;;
       modify (set_isInitialized true) ;;;
       emit "initialized" NoPayload)
      (fun error =>
         emitError (ErrorInfo error) ;;;
         throw error).

Definition generateId : M Types.ExecId :=
  t <- dateNow ;;
  r <- Retry.mathRandom random ;;
  ret {| Types.stamp := t; Types.nonce := r |}.

(** [this.circuitBreaker?.isOpen()] *)
Definition breakerIsOpen : M bool :=
  fun w =>
    match Exec.circuitBreaker w with
    | Some (c, cb) =>
        let '(b, cb') := CircuitBreaker.isOpen (now w) cb in
        (Resolved b, set_circuitBreaker (Some (c, cb')) w)
    | None => (Resolved false, w)
    end.

(** [this.circuitBreaker?.recordSuccess()] *)
Definition breakerRecordSuccess : M unit :=
  modify (fun w =>
    match Exec.circuitBreaker w with
    | Some (c, cb) =>
        set_circuitBreaker (Some (c, CircuitBreaker.recordSuccess c cb)) w
    | None => w
    end).

(** [this.circuitBreaker?.recordFailure()] *)
Definition breakerRecordFailure : M unit :=
  modify (fun w =>
    match Exec.circuitBreaker w with
    | Some (c, cb) =>
        set_circuitBreaker
          (Some (c, CircuitBreaker.recordFailure c (now w) (now w) cb)) w
    | None => w
    end).

(** Whether [this.circuitBreaker?.isOpen()] is true in [w]. *)
Definition reportsOpen (w : World) : bool :=
  match fst (breakerIsOpen w) with
  | Resolved b => b
  | _ => false
  end.

(** [await this.executeCore(messages, config)] *)
Definition callExecuteCore (messages : list Types.Message)
    (ec : Types.ExecutionConfig) : M Types.ExecutionResult :=
  fun w =>
    let w1 :=
      set_calls (S (calls w)) (set_log (log w ++ [Invoke (calls w)]) w)
    in
    match executeCore w messages ec with
    | Never => (Unsettled, w1)
    | Settles latency r =>
        match advance (Z.of_nat latency) w1 with
        | (Resolved _, w2) =>
            (match r with
             | inl e => Rejected e
             | inr x => Resolved x
             end, w2)
        | (_, w2) => (Unsettled, w2)
        end
    end.

Definition calculateDelay (attempt : Z) : M Q :=
  Retry.calculateDelay random attempt (retry config).

(** The loop of [executeWithRetry] over the attempts still to make. *)
Fixpoint executeWithRetryFrom (messages : list Types.Message)
    (ec : Types.ExecutionConfig) (attempts : list Z)
    (lastError : option JsError) : M Types.ExecutionResult :=
  match attempts with
  | [] => Retry.throwLast lastError
  | attempt :: rest =>
      tryCatch
        (emit "execution:attempt"
           (AttemptInfo attempt (Retry.maxRetries (retry config))) ;;;
         callExecuteCore messages ec)
        (fun error =>
           let lastError' := toError error in
           if nonRetryable error then throw error
           else if attempt =? Retry.maxRetries (retry config)
           then Retry.throwLast (Some lastError')
           else
             delay <- calculateDelay attempt ;;
             emit "execution:retry"
               (RetryInfo attempt delay (errorMessage lastError')) ;;;
             sleep delay ;;;
             executeWithRetryFrom messages ec rest (Some lastError'))
  end.

Definition executeWithRetry (messages : list Types.Message)
    (ec : Types.ExecutionConfig) : M Types.ExecutionResult :=
  executeWithRetryFrom messages ec
    (Retry.attemptsOf (Retry.maxRetries (retry config))) None.

(** The error [execute] raises when the breaker reports open. *)
Definition circuitOpenError : Thrown :=
  throwAgent (BaseAgentError "Circuit breaker is open" "CIRCUIT_OPEN" false).

(** The [try] block of [execute]; [result] is the record as created. *)
Definition executeTry (executionId : Types.ExecId) (task : string)
    (ec : Types.ExecutionConfig) (timeout : Z)
    (messages : list Types.Message) (result : Types.ExecutionResult)
  : M Types.ExecutionResult :=
  isOpen <- breakerIsOpen ;;
  if isOpen then
    throw circuitOpenError
  else
    emit "execution:start" (StartInfo executionId task) ;;;
    executionResult <-
      raceTimeout (executeWithRetry messages ec) timeout ;;
    let result' :=
      {| Types.id := Types.id result;
         Types.status := ExecutionStatus.completed;
         Types.output := Types.output executionResult;
         Types.toolCalls := Types.toolCalls executionResult;
         Types.messages := Types.messages executionResult;
         Types.usage := Types.usage executionResult;
         Types.duration := Types.duration result;
         Types.error := Types.error result |} in
    breakerRecordSuccess ;;;
    emit "execution:complete" (CompleteInfo executionId result') ;;;
    ret result'.

(** The [catch] block of [execute].  Whatever the [try] block had
    written into [result] before it threw is the status, which is
    overwritten here. *)
Definition executeCatch (executionId : Types.ExecId)
    (result : Types.ExecutionResult) (error : Thrown)
  : M Types.ExecutionResult :=
  let result' :=
    {| Types.id := Types.id result;
       Types.status :=
         if instanceofTimeout error then ExecutionStatus.timeout
         else ExecutionStatus.failed;
       Types.output := Types.output result;
       Types.toolCalls := Types.toolCalls result;
       Types.messages := Types.messages result;
       Types.usage := Types.usage result;
       Types.duration := Types.duration result;
       Types.error := Some (messageOf error) |} in
  breakerRecordFailure ;;;
  emit "execution:error" (FailureInfo executionId error) ;;;
  ret result'.

(** The [finally] block of [execute]. *)
Definition executeFinally (startTime : Z)
    (messages : list Types.Message) (result : Types.ExecutionResult)
  : M Types.ExecutionResult :=
  endTime <- dateNow ;;
  let result' :=
    {| Types.id := Types.id result;
       Types.status := Types.status result;
       Types.output := Types.output result;
       Types.toolCalls := Types.toolCalls result;
       Types.messages := messages;
       Types.usage := Types.usage result;
       Types.duration := endTime - startTime;
       Types.error := Types.error result |} in
  (if metricsOn config then
     modify (fun w => set_metrics (recordExecution result' (metrics w)) w)
   else ret tt) ;;;
  ret result'.

(** The world in which the race of [execute] starts, from the world [w]
    in which its [try] block is entered: the breaker has been consulted,
    ['execution:start'] emitted and the timer armed. *)
Definition raceStart (executionId : Types.ExecId) (task : string)
    (timeout : Z) (w : World) : World :=
  let w1 := snd (breakerIsOpen w) in
  set_deadline (Some (now w1 + timerDelay timeout))
    (set_log (log w1 ++ [Emit "execution:start" (StartInfo executionId task)])
       w1).

(** [execute] once the effective timeout is chosen. *)
Definition executeWith (timeout : Z) (task : string)
    (ec : Types.ExecutionConfig) : M Types.ExecutionResult :=
  initialize ;;;
  executionId <- generateId ;;
  startTime <- dateNow ;;
  t1 <- dateNow ;;
  t2 <- dateNow ;;
  let messages := transcript task t1 t2 in
  let result := newResult executionId messages in
  settled <-
    tryCatch (executeTry executionId task ec timeout messages result)
      (executeCatch executionId result) ;;
  executeFinally startTime messages settled.

Definition execute (task : string) (ec : Types.ExecutionConfig)
  : M Types.ExecutionResult :=
  executeWith (effectiveTimeout ec config) task ec.

End Runtime.

(** [executeCore] as the source has it: a simulated result, at once. *)
Definition executeCoreStub (random : nat -> Q) (w : World)
    (messages : list Types.Message) (ec : Types.ExecutionConfig) : Reply :=
  Settles 0
    (inr {| Types.id :=
              {| Types.stamp := now w; Types.nonce := random (drawn w) |};
            Types.status := ExecutionStatus.completed;
            Types.output :=
              ("Processed: " ++
               match rev messages with
               | m :: _ => Types.content m
               | [] => ""
               end)%string;
            Types.toolCalls := [];
            Types.messages := messages;
            Types.usage :=
              {| Types.promptTokens := estimateTokens messages;
                 Types.completionTokens := 50;
                 Types.totalTokens := estimateTokens messages + 50;
                 Types.cost := None |};
            Types.duration := 0;
            Types.error := None |}).

End AgentRuntime.

(* ================================================================= *)
(** ** resilience.ts: [getStats] *)

Module CircuitStats.
Import CircuitBreaker.

Record Stats : Type := {
  state : CircuitState;
  failures : Z;
  successes : Z;
  lastFailureTime : option Z
}.

(** [getStats]: the state is read through [getState], the lazy check
    included, and the counters after it. *)
Definition getStats (now : Z) (cb : t) : Stats * t :=
  let '(s, cb') := getState now cb in
  ({| state := s;
      failures := CircuitBreaker.failures cb';
      successes := CircuitBreaker.successes cb';
      lastFailureTime := CircuitBreaker.lastFailureTime cb' |}, cb').

End CircuitStats.

(* ================================================================= *)
(** ** metrics.ts *)

Module AgentMetrics.
Import Exec.

Record Snapshot : Type := {
  executions : Z;
  successes : Z;
  failures : Z;
  timeouts : Z;
  successRate : Q;
  averageDuration : Q;
  totalTokens : Z;
  totalCost : Q
}.

(** [getMetrics]; the labels, which it copies, are left out. *)
Definition getMetrics (m : Metrics) : Snapshot :=
  {| executions := Exec.executions m;
     successes := Exec.successes m;
     failures := Exec.failures m;
     timeouts := Exec.timeouts m;
     successRate :=
       if 0 <? Exec.executions m
       then (inject_Z (Exec.successes m) / inject_Z (Exec.executions m)
             * 100)%Q
       else 0%Q;
     averageDuration :=
       if 0 <? Exec.executions m
       then (inject_Z (Exec.totalDuration m)
             / inject_Z (Exec.executions m))%Q
       else 0%Q;
     totalTokens := Exec.totalTokens m;
     totalCost := Exec.totalCost m |}.

Definition isHealthy (m : Metrics) : bool := initialized m.

(** [reset] clears the counters and keeps the rest. *)
Definition reset (m : Metrics) : Metrics :=
  {| Exec.executions := 0; Exec.successes := 0; Exec.failures := 0;
     Exec.timeouts := 0; Exec.totalDuration := 0; Exec.totalTokens := 0;
     Exec.totalCost := 0%Q; initialized := initialized m |}.

(** [initialize] *)
Definition initialize (m : Metrics) : Metrics :=
  {| Exec.executions := Exec.executions m;
     Exec.successes := Exec.successes m;
     Exec.failures := Exec.failures m;
     Exec.timeouts := Exec.timeouts m;
     Exec.totalDuration := Exec.totalDuration m;
     Exec.totalTokens := Exec.totalTokens m;
     Exec.totalCost := Exec.totalCost m;
     initialized := true |}.

(** The metrics objects there can be: a new one, after any run of
    [initialize], [recordExecution] and [reset]. *)
Inductive reachable : Metrics -> Prop :=
| reach_new : reachable newMetrics
| reach_initialize (m : Metrics) :
    reachable m -> reachable (initialize m)
| reach_record (r : Types.ExecutionResult) (m : Metrics) :
    reachable m -> reachable (AgentRuntime.recordExecution r m)
| reach_reset (m : Metrics) :
    reachable m -> reachable (reset m).

End AgentMetrics.

Module MetricCollector.
Import Exec.

(** The [Map<string, AgentMetrics>] of the collector.  Its values are
    references to metrics objects that their runtimes go on updating, so
    the map holds the index of each object in a store, in insertion
    order. *)
Definition Registry : Type := list (string * nat).

Definition Store : Type := nat -> Metrics.

(** [Map.prototype.set]: a key already present keeps its place. *)
Fixpoint set (id : string) (ref : nat) (r : Registry) : Registry :=
  match r with
  | [] => [(id, ref)]
  | (k, v) :: rest =>
      if String.eqb k id then (k, ref) :: rest
      else (k, v) :: set id ref rest
  end.

(** [Map.prototype.delete] *)
Fixpoint delete (id : string) (r : Registry) : Registry :=
  match r with
  | [] => []
  | (k, v) :: rest =>
      if String.eqb k id then rest else (k, v) :: delete id rest
  end.

Definition register (id : string) (ref : nat) (r : Registry) : Registry :=
  set id ref r.

Definition unregister (id : string) (r : Registry) : Registry :=
  delete id r.

Record Aggregate : Type := {
  totalExecutions : Z;
  totalSuccesses : Z;
  totalFailures : Z;
  overallSuccessRate : Q;
  totalTokens : Z;
  totalCost : Q
}.

(** The sums the loop of [getAggregatedMetrics] builds. *)
Record Sums : Type := {
  sumExecutions : Z;
  sumSuccesses : Z;
  sumFailures : Z;
  sumTokens : Z;
  sumCost : Q
}.

Definition addTo (store : Store) (acc : Sums) (entry : string * nat) : Sums :=
  let m := AgentMetrics.getMetrics (store (snd entry)) in
  {| sumExecutions := sumExecutions acc + AgentMetrics.executions m;
     sumSuccesses := sumSuccesses acc + AgentMetrics.successes m;
     sumFailures := sumFailures acc + AgentMetrics.failures m;
     sumTokens := sumTokens acc + AgentMetrics.totalTokens m;
     sumCost := (sumCost acc + AgentMetrics.totalCost m)%Q |}.

Definition sums (store : Store) (r : Registry) : Sums :=
  fold_left (addTo store) r
    {| sumExecutions := 0; sumSuccesses := 0; sumFailures := 0;
       sumTokens := 0; sumCost := 0%Q |}.

Definition getAggregatedMetrics (store : Store) (r : Registry) : Aggregate :=
  let s := sums store r in
  {| totalExecutions := sumExecutions s;
     totalSuccesses := sumSuccesses s;
     totalFailures := sumFailures s;
     overallSuccessRate :=
       if 0 <? sumExecutions s
       then (inject_Z (sumSuccesses s) / inject_Z (sumExecutions s) * 100)%Q
       else 0%Q;
     totalTokens := sumTokens s;
     totalCost := sumCost s |}.

End MetricCollector.

(* ================================================================= *)
(** ** runtime.ts: [health] *)

Module Health.
Import Exec.

Inductive CheckStatus : Type := pass | fail | warn.

Record HealthCheck : Type := {
  status : CheckStatus;
  message : string
}.

Inductive Overall : Type := healthy | degraded | unhealthy.

Record HealthStatus : Type := {
  overall : Overall;
  version : string;
  uptime : Q;
  checks : list (string * HealthCheck)
}.

Definition isPass (c : string * HealthCheck) : bool :=
  match status (snd c) with
  | pass => true
  | _ => false
  end.

Definition isFail (c : string * HealthCheck) : bool :=
  match status (snd c) with
  | fail => true
  | _ => false
  end.

Definition stateName (s : CircuitBreaker.CircuitState) : string :=
  match s with
  | CircuitBreaker.closed => "closed"
  | CircuitBreaker.open => "open"
  | CircuitBreaker.half_open => "half-open"
  end.

(** [health]; [up] is what [process.uptime()] returns. *)
Definition health (config : AgentRuntime.RuntimeConfig) (up : Q)
  : M HealthStatus :=
  fun w =>
    let initialized :=
      ("initialized",
       {| status := if isInitialized w then pass else fail;
          message :=
            if isInitialized w then "Runtime initialized"
            else "Runtime not initialized" |}) in
    let '(breaker, w') :=
      match Exec.circuitBreaker w with
      | Some (c, cb) =>
          let '(s, cb') := CircuitBreaker.getState (now w) cb in
          ([("circuitBreaker",
             {| status :=
                  match s with
                  | CircuitBreaker.closed => pass
                  | CircuitBreaker.open => fail
                  | CircuitBreaker.half_open => warn
                  end;
                message :=
                  ("Circuit breaker state: " ++ stateName s)%string |})],
           set_circuitBreaker (Some (c, cb')) w)
      | None => ([], w)
      end in
    let metrics :=
      if AgentRuntime.metricsOn config then
        [("metrics",
          {| status :=
               if AgentMetrics.isHealthy (Exec.metrics w) then pass
               else warn;
             message := "Metrics collection active" |})]
      else [] in
    let checks := (initialized :: breaker ++ metrics)%list in
    let allPass := forallb isPass checks in
    let anyFail := existsb isFail checks in
    (Resolved
       {| overall :=
            if allPass then healthy
            else if anyFail then unhealthy else degraded;
          version := "1.0.0";
          uptime := up;
          checks := checks |}, w').

(** The state [getState] would report for the breaker of [w], if it has
    one. *)
Definition breakerState (w : World) : option CircuitBreaker.CircuitState :=
  match Exec.circuitBreaker w with
  | Some (_, cb) => Some (fst (CircuitBreaker.getState (now w) cb))
  | None => None
  end.

End Health.

(* ================================================================= *)
(** ** Scenarios

    Concrete configurations, backends and worlds on which the properties
    below are exercised. *)

Module Scenario.
Import Errors Exec.

(** The breaker of the test-suite: three failures open it, two successes
    close it, and it stays open for a second. *)
Definition testBreaker : CircuitBreaker.CircuitBreakerConfig :=
  {| CircuitBreaker.failureThreshold := 3;
     CircuitBreaker.successThreshold := 2;
     CircuitBreaker.timeout := 1000 |}.

(** [Math.random()] always giving one half. *)
Definition evenDraws (n : nat) : Q := 1 # 2.

(** A retry policy with one retry. *)
Definition oneRetry : Retry.RetryConfig :=
  {| Retry.maxRetries := 1; Retry.baseDelay := 10; Retry.maxDelay := 100;
     Retry.factor := 2 |}.

(** A non-retryable failure of the taxonomy. *)
Definition toolFailure : Thrown :=
  throwAgent (AgentToolError "search" "denied").

(** A backend whose every call fails after 5 ms with a timeout error of its
    own. *)
Definition slowModel (w : World) (messages : list Types.Message)
    (ec : Types.ExecutionConfig) : AgentRuntime.Reply :=
  AgentRuntime.Settles 5 (inl (throwAgent (AgentTimeoutError "model" 5))).

(** A backend that never answers. *)
Definition silent (w : World) (messages : list Types.Message)
    (ec : Types.ExecutionConfig) : AgentRuntime.Reply :=
  AgentRuntime.Never.

(** The default configuration with the test breaker in place of the
    default one. *)
Definition testConfig : AgentRuntime.RuntimeConfig :=
  {| AgentRuntime.model := AgentRuntime.model AgentRuntime.DEFAULT_CONFIG;
     AgentRuntime.temperature :=
       AgentRuntime.temperature AgentRuntime.DEFAULT_CONFIG;
     AgentRuntime.maxTokens :=
       AgentRuntime.maxTokens AgentRuntime.DEFAULT_CONFIG;
     AgentRuntime.maxIterations :=
       AgentRuntime.maxIterations AgentRuntime.DEFAULT_CONFIG;
     AgentRuntime.timeout := AgentRuntime.timeout AgentRuntime.DEFAULT_CONFIG;
     AgentRuntime.stream := AgentRuntime.stream AgentRuntime.DEFAULT_CONFIG;
     AgentRuntime.retry := AgentRuntime.retry AgentRuntime.DEFAULT_CONFIG;
     AgentRuntime.circuitBreaker :=
       Some {| AgentRuntime.enabled := true;
               AgentRuntime.breaker := testBreaker |};
     AgentRuntime.metricsEnabled :=
       AgentRuntime.metricsEnabled AgentRuntime.DEFAULT_CONFIG |}.

(** A printer that shows an ['error'] payload by the message of its
    error. *)
Definition printer (detail : Payload) : string :=
  match detail with
  | ErrorInfo e => ("{ error: " ++ Errors.messageOf e ++ " }")%string
  | _ => "{}"
  end.

(** A runtime with that configuration, created when the clock reads
    1000. *)
Definition fresh : World := AgentRuntime.construct testConfig 1000 printer.

(** The same runtime once [initialize] has run. *)
Definition ready : World := snd (AgentRuntime.initialize testConfig fresh).

(** The test breaker opened by three failures at 1400. *)
Definition tripped : CircuitBreaker.t :=
  CircuitBreaker.recordFailures testBreaker
    [(1400, 1400); (1400, 1400); (1400, 1400)] CircuitBreaker.initial.

(** The test breaker opened by three failures at 1000, probed once with
    success after its second of rest, and reopened by a failure at 2001. *)
Definition reopened : CircuitBreaker.t :=
  CircuitBreaker.recordFailure testBreaker 2001 2001
    (CircuitBreaker.recordSuccess testBreaker
       (snd (CircuitBreaker.getState 2000
               (CircuitBreaker.recordFailures testBreaker
                  [(1000, 1000); (1000, 1000); (1000, 1000)]
                  CircuitBreaker.initial)))).

(** The initialised runtime when the clock reads [t], its breaker in the
    state [cb]. *)
Definition holding (t : Z) (cb : CircuitBreaker.t) : World :=
  set_circuitBreaker (Some (testBreaker, cb)) (set_now t ready).

(** A per-call configuration whose timeout override is 0. *)
Definition zeroTimeout : Types.ExecutionConfig :=
  {| Types.userId := None; Types.sessionId := None;
     Types.timeout := Some 0; Types.maxIterations := None |}.

(** A per-call configuration whose timeout override is 50 ms. *)
Definition briefTimeout : Types.ExecutionConfig :=
  {| Types.userId := None; Types.sessionId := None;
     Types.timeout := Some 50; Types.maxIterations := None |}.

End Scenario.

(** What a computation leaves alone of the runtime's own state. *)
Definition sameRuntime (w w' : Exec.World) : Prop :=
  Exec.circuitBreaker w' = Exec.circuitBreaker w /\
  Exec.metrics w' = Exec.metrics w /\
  Exec.isInitialized w' = Exec.isInitialized w.

(** Further configurations, operations and backends. *)

Module Cases.
Import Errors Exec Scenario.

(** An operation that fails twice and then succeeds. *)
Definition flaky (i : nat) : Thrown + string :=
  match i with
  | 0%nat => inl (ThrowError (PlainError "First failure"))
  | 1%nat => inl (ThrowError (PlainError "Second failure"))
  | _ => inr "success"
  end.

(** An operation that fails every time, with an error that tells which
    invocation it was. *)
Definition hopeless (i : nat) : Thrown :=
  ThrowError (PlainError (("failure " ++ string_of_Z (Z.of_nat i))%string)).

(** A retry policy whose [maxRetries] is negative. *)
Definition noAttempt : Retry.RetryConfig :=
  {| Retry.maxRetries := -1; Retry.baseDelay := 10; Retry.maxDelay := 100;
     Retry.factor := 2 |}.

(** The test configuration with that retry policy. *)
Definition noAttemptConfig : AgentRuntime.RuntimeConfig :=
  {| AgentRuntime.model := AgentRuntime.model testConfig;
     AgentRuntime.temperature := AgentRuntime.temperature testConfig;
     AgentRuntime.maxTokens := AgentRuntime.maxTokens testConfig;
     AgentRuntime.maxIterations := AgentRuntime.maxIterations testConfig;
     AgentRuntime.timeout := AgentRuntime.timeout testConfig;
     AgentRuntime.stream := AgentRuntime.stream testConfig;
     AgentRuntime.retry := noAttempt;
     AgentRuntime.circuitBreaker := AgentRuntime.circuitBreaker testConfig;
     AgentRuntime.metricsEnabled := AgentRuntime.metricsEnabled testConfig |}.

(** The test configuration with a temperature of 3. *)
Definition feverish : AgentRuntime.RuntimeConfig :=
  {| AgentRuntime.model := AgentRuntime.model testConfig;
     AgentRuntime.temperature := Finite 3;
     AgentRuntime.maxTokens := AgentRuntime.maxTokens testConfig;
     AgentRuntime.maxIterations := AgentRuntime.maxIterations testConfig;
     AgentRuntime.timeout := AgentRuntime.timeout testConfig;
     AgentRuntime.stream := AgentRuntime.stream testConfig;
     AgentRuntime.retry := AgentRuntime.retry testConfig;
     AgentRuntime.circuitBreaker := AgentRuntime.circuitBreaker testConfig;
     AgentRuntime.metricsEnabled := AgentRuntime.metricsEnabled testConfig |}.

(** The test configuration with the temperature overridden by
    [undefined], [maxTokens] by [NaN] and [maxIterations] by
    [undefined]. *)
Definition unset : AgentRuntime.RuntimeConfig :=
  {| AgentRuntime.model := AgentRuntime.model testConfig;
     AgentRuntime.temperature := Undefined;
     AgentRuntime.maxTokens := NaN;
     AgentRuntime.maxIterations := Undefined;
     AgentRuntime.timeout := AgentRuntime.timeout testConfig;
     AgentRuntime.stream := AgentRuntime.stream testConfig;
     AgentRuntime.retry := AgentRuntime.retry testConfig;
     AgentRuntime.circuitBreaker := AgentRuntime.circuitBreaker testConfig;
     AgentRuntime.metricsEnabled := AgentRuntime.metricsEnabled testConfig |}.

(** A backend whose every call fails after 5 ms with a non-retryable
    error. *)
Definition brokenTool (w : World) (messages : list Types.Message)
    (ec : Types.ExecutionConfig) : AgentRuntime.Reply :=
  AgentRuntime.Settles 5 (inl toolFailure).

(** A backend whose every call fails after 5 ms with a retryable error. *)
Definition overloaded (w : World) (messages : list Types.Message)
    (ec : Types.ExecutionConfig) : AgentRuntime.Reply :=
  AgentRuntime.Settles 5
    (inl (throwAgent
            (AgentRateLimitError "Rate limit exceeded" (Some 60) (Some 0)
               (Some 0) None))).

(** A completed execution of 20 ms and 60 tokens. *)
Definition someResult : Types.ExecutionResult :=
  {| Types.id := {| Types.stamp := 1000; Types.nonce := 1 # 2 |};
     Types.status := ExecutionStatus.completed;
     Types.output := "done";
     Types.toolCalls := [];
     Types.messages := [];
     Types.usage :=
       {| Types.promptTokens := 10; Types.completionTokens := 50;
          Types.totalTokens := 60; Types.cost := None |};
     Types.duration := 20;
     Types.error := None |}.

(** A store with one metrics object that has recorded that execution, and
    new ones elsewhere. *)
Definition someStore : MetricCollector.Store :=
  fun ref =>
    match ref with
    | 0%nat => AgentRuntime.recordExecution someResult newMetrics
    | _ => newMetrics
    end.

End Cases.

(* ================================================================= *)
(** * Properties *)

(** ** The circuit breaker *)

Section BreakerFacts.
Import CircuitBreaker.
Variable config : CircuitBreakerConfig.

Lemma recordSuccess_closed cb :
  state cb = closed -> state (recordSuccess config cb) = closed.
Proof. intros H. unfold recordSuccess. cbn. now rewrite H. Qed.

Lemma recordSuccess_open cb :
  state cb = open ->
  recordSuccess config cb =
    mk open 0 (successes cb) (lastFailureTime cb) (nextAttemptTime cb).
Proof.
  intros H. unfold recordSuccess, set_failures. cbn. now rewrite H.
Qed.

Lemma recordSuccess_half_open cb :
  state cb = half_open ->
  recordSuccess config cb =
    if successThreshold config <=? successes cb + 1
    then mk closed 0 0 (lastFailureTime cb) (nextAttemptTime cb)
    else mk half_open 0 (successes cb + 1) (lastFailureTime cb)
           (nextAttemptTime cb).
Proof.
  intros H. unfold recordSuccess, set_failures, set_successes, set_state.
  cbn. rewrite H.
  now destruct (successThreshold config <=? successes cb + 1).
Qed.

Lemma recordFailure_open tF tS cb :
  state cb = open ->
  recordFailure config tF tS cb =
    mk open (failures cb + 1) (successes cb) (Some tF)
       (if failureThreshold config <=? failures cb + 1
        then Some (tS + timeout config) else nextAttemptTime cb).
Proof.
  intros H. unfold recordFailure, setNextAttemptTime, set_failures,
    set_lastFailureTime, set_nextAttemptTime, set_state. cbn. rewrite H.
  now destruct (failureThreshold config <=? failures cb + 1).
Qed.

Lemma recordFailure_half_open tF tS cb :
  state cb = half_open ->
  recordFailure config tF tS cb =
    mk open (failures cb + 1) 0 (Some tF) (Some (tS + timeout config)).
Proof.
  intros H. unfold recordFailure, setNextAttemptTime, set_failures,
    set_lastFailureTime, set_nextAttemptTime, set_state, set_successes.
  cbn. now rewrite H.
Qed.

Lemma recordFailure_closed tF tS cb :
  state cb = closed ->
  recordFailure config tF tS cb =
    if failureThreshold config <=? failures cb + 1
    then mk open (failures cb + 1) (successes cb) (Some tF)
            (Some (tS + timeout config))
    else mk closed (failures cb + 1) (successes cb) (Some tF)
            (nextAttemptTime cb).
Proof.
  intros H. unfold recordFailure, setNextAttemptTime, set_failures,
    set_lastFailureTime, set_nextAttemptTime, set_state. cbn. rewrite H.
  now destruct (failureThreshold config <=? failures cb + 1).
Qed.

(** A call of [recordFailure] that takes the breaker into [open] from
    another state schedules the deadline at its clock reading plus the
    configured timeout. *)
Lemma recordFailure_opens tF tS cb :
  state cb <> open ->
  state (recordFailure config tF tS cb) = open ->
  nextAttemptTime (recordFailure config tF tS cb)
    = Some (tS + timeout config).
Proof.
  intros Hne Hop. destruct (state cb) eqn:Hs; [ | congruence | ].
  - rewrite recordFailure_closed in * by assumption.
    destruct (failureThreshold config <=? failures cb + 1);
      cbn in *; [reflexivity | discriminate].
  - now rewrite recordFailure_half_open by assumption.
Qed.

(** The counter and the state after a run of failures that starts in
    [closed] or, with the counter at the threshold or above, in [open]. *)
Lemma recordFailures_count ts : forall cb,
  state cb = closed /\ failures cb < failureThreshold config \/
  state cb = open /\ failureThreshold config <= failures cb ->
  let cb' := recordFailures config ts cb in
  failures cb' = failures cb + Z.of_nat (List.length ts) /\
  state cb' =
    if failureThreshold config <=? failures cb' then open else closed.
Proof.
  induction ts as [|[tF tS] ts IH]; intros cb Hcb; cbn -[Z.of_nat].
  - split; [cbn; lia|].
    destruct Hcb as [[-> Hlt] | [-> Hge]].
    + now apply Z.leb_gt in Hlt as ->.
    + now apply Z.leb_le in Hge as ->.
  - specialize (IH (recordFailure config tF tS cb)).
    assert (Hf : failures (recordFailure config tF tS cb) = failures cb + 1).
    { unfold recordFailure; cbn.
      destruct (state cb); [ | | reflexivity];
        now destruct (failureThreshold config <=? failures cb + 1). }
    cbn zeta in IH. rewrite Hf in IH.
    replace (failures cb + Z.of_nat (S (List.length ts)))
      with (failures cb + 1 + Z.of_nat (List.length ts)) by lia.
    apply IH. clear IH.
    destruct Hcb as [[Hs Hlt] | [Hs Hge]].
    + rewrite recordFailure_closed by assumption.
      destruct (failureThreshold config <=? failures cb + 1) eqn:E; cbn.
      * right. split; [reflexivity | now apply Z.leb_le].
      * left. split; [reflexivity | now apply Z.leb_gt].
    + rewrite recordFailure_open by assumption. cbn.
      right. split; [reflexivity | lia].
Qed.

(** The counter and the state after a run of successes in [half_open]. *)
Lemma recordSuccesses_closed k : forall cb,
  state cb = closed -> state (recordSuccesses config k cb) = closed.
Proof.
  induction k as [|k IH]; intros cb Hc; cbn; [assumption|].
  apply IH. now apply recordSuccess_closed.
Qed.

Lemma recordSuccesses_count k : forall cb,
  state cb = half_open ->
  successes cb < successThreshold config ->
  state (recordSuccesses config k cb) =
    if successThreshold config <=? successes cb + Z.of_nat k
    then closed else half_open.
Proof.
  induction k as [|k IH]; intros cb Hs Hlt; cbn -[Z.of_nat].
  - rewrite Z.add_0_r. now apply Z.leb_gt in Hlt as ->.
  - rewrite recordSuccess_half_open by assumption.
    destruct (successThreshold config <=? successes cb + 1) eqn:E.
    + apply Z.leb_le in E.
      rewrite recordSuccesses_closed by reflexivity.
      symmetry.
      replace (successThreshold config <=? successes cb + Z.of_nat (S k))
        with true; [reflexivity|].
      symmetry. apply Z.leb_le. lia.
    + apply Z.leb_gt in E. rewrite IH by (cbn; (reflexivity || assumption)).
      cbn [successes].
      now replace (successes cb + 1 + Z.of_nat k)
        with (successes cb + Z.of_nat (S k)) by lia.
Qed.

Lemma recordSuccesses_half_open k : forall cb,
  state cb = half_open ->
  successes cb + Z.of_nat k < successThreshold config ->
  state (recordSuccesses config k cb) = half_open.
Proof.
  intros cb Hs Hlt. rewrite recordSuccesses_count; [ | assumption | lia].
  now apply Z.leb_gt in Hlt as ->.
Qed.

End BreakerFacts.

Section BreakerClaims.
Import CircuitBreaker Scenario.

(** C2, as stated, fails: three failures open the test breaker with the
    failure counter at 3, and [recordSuccess] on that open breaker puts
    the counter back to 0. *)
Lemma recordSuccess_open_clears_failures_example :
  let cb := recordFailures testBreaker [(0, 0); (1, 1); (2, 2)] initial in
  state cb = open /\
  failures cb = 3 /\
  failures (recordSuccess testBreaker cb) = 0 /\
  failures (recordSuccess testBreaker cb) <> failures cb.
Proof. cbv. repeat split; discriminate. Qed.

(** C2, amended: on an open breaker [recordSuccess] leaves the state, the
    success counter, the next-attempt deadline and the last-failure time
    as they are, and sets the failure counter to 0. *)
Theorem recordSuccess_open_frame (config : CircuitBreakerConfig) (cb : t) :
  state cb = open ->
  let cb' := recordSuccess config cb in
  state cb' = state cb /\
  successes cb' = successes cb /\
  nextAttemptTime cb' = nextAttemptTime cb /\
  lastFailureTime cb' = lastFailureTime cb /\
  failures cb' = 0.
Proof.
  intros H. cbn zeta. rewrite recordSuccess_open by assumption.
  cbn. now rewrite H.
Qed.

Lemma recordSuccess_open_frame_witness :
  let cb := recordFailures testBreaker [(0, 0); (1, 1); (2, 2)] initial in
  let cb' := recordSuccess testBreaker cb in
  state cb' = state cb /\
  successes cb' = successes cb /\
  nextAttemptTime cb' = nextAttemptTime cb /\
  lastFailureTime cb' = lastFailureTime cb /\
  failures cb' = 0.
Proof. apply (recordSuccess_open_frame testBreaker). reflexivity. Defined.

(** C6: with [failureThreshold = N >= 1], a run of [recordFailure] calls
    that starts in [closed] with the failure counter at 0 leaves the
    breaker [open] if the run has N calls or more and [closed] if it has
    fewer; so N calls open it and N-1 do not. *)
Theorem failures_open_at_threshold (config : CircuitBreakerConfig)
    (cb : t) (ts : list (Z * Z)) :
  1 <= failureThreshold config ->
  state cb = closed ->
  failures cb = 0 ->
  state (recordFailures config ts cb) =
    if failureThreshold config <=? Z.of_nat (List.length ts)
    then open else closed.
Proof.
  intros HN Hs Hf.
  destruct (recordFailures_count config ts cb) as [Hc Hst].
  - left. split; [assumption | lia].
  - rewrite Hst, Hc, Hf. reflexivity.
Qed.

Lemma failures_open_at_threshold_witness :
  state (recordFailures testBreaker [(0, 0); (1, 1); (2, 2)] initial) = open
  /\ state (recordFailures testBreaker [(0, 0); (1, 1)] initial) = closed.
Proof.
  split.
  - apply (failures_open_at_threshold testBreaker initial
             [(0, 0); (1, 1); (2, 2)]); [cbn; lia | reflexivity..].
  - apply (failures_open_at_threshold testBreaker initial
             [(0, 0); (1, 1)]); [cbn; lia | reflexivity..].
Defined.

(** C7: with [successThreshold = M >= 1], from a breaker that has just
    become [half_open] (success counter 0), [k] calls of [recordSuccess]
    in a row leave it [closed] if [k >= M] and [half_open] if [k < M]; and
    after any [k < M] of them one [recordFailure] makes it [open],
    whatever [failureThreshold] is, with the success counter back at 0
    and the deadline set anew. *)
Theorem half_open_probation (config : CircuitBreakerConfig) (cb : t) :
  1 <= successThreshold config ->
  state cb = half_open ->
  successes cb = 0 ->
  (forall k : nat,
     state (recordSuccesses config k cb) =
       if successThreshold config <=? Z.of_nat k
       then closed else half_open) /\
  (forall (k : nat) (tF tS : Z),
     Z.of_nat k < successThreshold config ->
     let cb' := recordFailure config tF tS (recordSuccesses config k cb) in
     state cb' = open /\
     successes cb' = 0 /\
     nextAttemptTime cb' = Some (tS + timeout config)).
Proof.
  intros HM Hs H0. split.
  - intros k. rewrite recordSuccesses_count by (assumption || lia).
    now rewrite H0.
  - intros k tF tS Hk. cbn zeta.
    rewrite recordFailure_half_open; [cbn; auto|].
    apply recordSuccesses_half_open; [assumption | lia].
Qed.

Lemma half_open_probation_witness :
  let cb := mk half_open 3 0 (Some 2) None in
  (forall k : nat,
     state (recordSuccesses testBreaker k cb) =
       if 2 <=? Z.of_nat k then closed else half_open) /\
  (forall (k : nat) (tF tS : Z),
     Z.of_nat k < 2 ->
     let cb' :=
       recordFailure testBreaker tF tS (recordSuccesses testBreaker k cb) in
     state cb' = open /\
     successes cb' = 0 /\
     nextAttemptTime cb' = Some (tS + 1000)).
Proof.
  apply (half_open_probation testBreaker (mk half_open 3 0 (Some 2) None));
    [cbn; lia | reflexivity | reflexivity].
Defined.

End BreakerClaims.

Section BreakerWindow.
Import CircuitBreaker Scenario.

(** [isOpen] is [getState] compared with [open]: the same lazy check, the
    same breaker afterwards. *)
Lemma isOpen_getState (now : Z) (cb : t) :
  isOpen now cb =
    (CircuitState_eqb (fst (getState now cb)) open, snd (getState now cb)).
Proof.
  unfold isOpen, getState.
  destruct (state cb) eqn:Hs.
  - unfold due. rewrite Hs. cbn. now rewrite ?Hs.
  - destruct (due now cb); cbn; rewrite ?Hs; reflexivity.
  - destruct (due now cb); cbn; rewrite ?Hs; reflexivity.
Qed.

Lemma due_scheduled (now d : Z) (cb : t) :
  state cb = open -> nextAttemptTime cb = Some d -> d <> 0 ->
  due now cb = (d <=? now).
Proof.
  intros Hs Hn Hd. unfold due. rewrite Hs, Hn. cbn.
  now apply Z.eqb_neq in Hd as ->.
Qed.

(** C8: let a [recordFailure] whose scheduling clock reading is [T] take
    the breaker into [open], with configured timeout [D] and a deadline
    [T + D] other than 0 (a clock reading is a positive count of
    milliseconds and [D] a positive integer).  Then a query at a time [tq]
    before [T + D] returns [open] and leaves the breaker as it is, and a
    query at or after [T + D] returns [half_open] and clears the deadline.
    [isOpen] answers whether [getState] is [open], after the same lazy
    check, so it is false in [half_open] and [closed]; and neither
    [recordSuccess] nor [recordFailure] takes an open breaker out of
    [open]. *)
Theorem open_until_deadline (config : CircuitBreakerConfig) (cb : t)
    (tF T tq : Z) :
  state cb <> open ->
  state (recordFailure config tF T cb) = open ->
  T + timeout config <> 0 ->
  let cb' := recordFailure config tF T cb in
  (tq < T + timeout config ->
     getState tq cb' = (open, cb') /\ isOpen tq cb' = (true, cb')) /\
  (T + timeout config <= tq ->
     getState tq cb' = (half_open, toHalfOpen cb') /\
     isOpen tq cb' = (false, toHalfOpen cb')) /\
  (forall (now : Z) (c : t),
     fst (isOpen now c) = CircuitState_eqb (fst (getState now c)) open /\
     snd (isOpen now c) = snd (getState now c)) /\
  (forall c : t,
     state c = open ->
     state (recordSuccess config c) = open /\
     forall a b : Z, state (recordFailure config a b c) = open).
Proof.
  intros Hne Hop Hd. cbn zeta.
  pose proof (recordFailure_opens config tF T cb Hne Hop) as Hn.
  pose proof (fun now => due_scheduled now _ _ Hop Hn Hd) as Hdue.
  split; [ | split; [ | split]].
  - intros Hlt. apply Z.leb_gt in Hlt.
    assert (Hg : getState tq (recordFailure config tF T cb)
                 = (open, recordFailure config tF T cb)).
    { unfold getState. rewrite Hdue, Hlt. now rewrite Hop. }
    split; [exact Hg|]. rewrite isOpen_getState, Hg. reflexivity.
  - intros Hge. apply Z.leb_le in Hge.
    assert (Hg : getState tq (recordFailure config tF T cb)
                 = (half_open, toHalfOpen (recordFailure config tF T cb))).
    { unfold getState. now rewrite Hdue, Hge. }
    split; [exact Hg|]. rewrite isOpen_getState, Hg. reflexivity.
  - intros now c. rewrite isOpen_getState. split; reflexivity.
  - intros c Hc. split.
    + now rewrite recordSuccess_open.
    + intros a b. now rewrite recordFailure_open.
Qed.

Lemma open_until_deadline_witness :
  let cb := recordFailures testBreaker [(5, 5); (6, 6)] initial in
  let cb' := recordFailure testBreaker 7 7 cb in
  (1006 < 7 + 1000 ->
     getState 1006 cb' = (open, cb') /\ isOpen 1006 cb' = (true, cb')) /\
  (7 + 1000 <= 1006 ->
     getState 1006 cb' = (half_open, toHalfOpen cb') /\
     isOpen 1006 cb' = (false, toHalfOpen cb')) /\
  (forall (now : Z) (c : t),
     fst (isOpen now c) = CircuitState_eqb (fst (getState now c)) open /\
     snd (isOpen now c) = snd (getState now c)) /\
  (forall c : t,
     state c = open ->
     state (recordSuccess testBreaker c) = open /\
     forall a b : Z, state (recordFailure testBreaker a b c) = open).
Proof.
  apply (open_until_deadline testBreaker
           (recordFailures testBreaker [(5, 5); (6, 6)] initial) 7 7 1006);
    [discriminate | reflexivity | cbn; lia].
Defined.

(** The success counter is 0 wherever the breaker is not probing, so it is
    0 when the lazy check takes the breaker into [half_open]. *)
Lemma successes_zero_unless_probing (config : CircuitBreakerConfig) (cb : t) :
  reachable config cb ->
  state cb <> half_open -> successes cb = 0.
Proof.
  induction 1 as [ | now cb _ IH | now cb _ IH | cb _ IH | tF tS cb _ IH
                 | cb _ IH ]; intros Hs.
  - reflexivity.
  - rewrite isOpen_getState in *. cbn [snd] in *. unfold getState in *.
    destruct (due now cb) eqn:Hd; cbn in *; [now elim Hs | auto].
  - unfold getState in *.
    destruct (due now cb) eqn:Hd; cbn in *; [now elim Hs | auto].
  - unfold recordSuccess in *. cbn in *.
    destruct (state cb) eqn:E; cbn in *; try (apply IH; discriminate).
    destruct (successThreshold config <=? successes cb + 1); cbn in *;
      [reflexivity | now elim Hs].
  - destruct (state cb) eqn:E.
    + rewrite recordFailure_closed in * by assumption.
      destruct (failureThreshold config <=? failures cb + 1); cbn in *;
        apply IH; discriminate.
    + rewrite recordFailure_open in * by assumption. cbn in *.
      apply IH; discriminate.
    + rewrite recordFailure_half_open in * by assumption. reflexivity.
  - reflexivity.
Qed.

Lemma half_open_entered_fresh (config : CircuitBreakerConfig) (now : Z)
    (cb : t) :
  reachable config cb ->
  state cb <> half_open ->
  successes (snd (getState now cb)) = 0.
Proof.
  intros Hr Hs. unfold getState.
  destruct (due now cb); cbn;
    now apply (successes_zero_unless_probing config).
Qed.

End BreakerWindow.


(** ** The retry helper *)

Section RetryFacts.
Import Errors Exec.
Variable random : nat -> Q.
Variable config : Retry.RetryConfig.

Lemma sleep_without_deadline (ms : Q) (w : World) :
  deadline w = None ->
  exists w', sleep ms w = (Resolved tt, w') /\
    calls w' = calls w /\ drawn w' = drawn w /\ deadline w' = None.
Proof.
  intros Hd. unfold sleep, bind, record, modify, advance. cbn. rewrite Hd.
  eexists. split; [reflexivity|]. cbn. auto.
Qed.

(** An operation that fails every time is invoked for every attempt of the
    loop, whatever the error it fails with. *)
Lemma withRetryFrom_all_fail {T : Type} (e : Thrown) (n : nat) :
  forall (a : nat) (lastError : option JsError) (w : World),
    deadline w = None ->
    Z.of_nat (a + n) = Retry.maxRetries config + 1 ->
    (1 <= n)%nat ->
    exists w',
      Retry.withRetryFrom random
        (Retry.operation (T := T) (fun _ => inl e)) config None
        (map Z.of_nat (seq a n)) lastError w
        = (Rejected (ThrowError (toError e)), w') /\
      calls w' = (calls w + n)%nat /\
      drawn w' = (drawn w + (n - 1))%nat /\
      deadline w' = None.
Proof.
  induction n as [|n IH]; intros a lastError w Hd Ha Hn; [lia|].
  cbn [seq map Retry.withRetryFrom].
  unfold tryCatch. unfold Retry.operation at 1.
  destruct (Z.of_nat a =? Retry.maxRetries config) eqn:E.
  - apply Z.eqb_eq in E. assert (n = 0%nat) by lia. subst n.
    cbn. eexists. split; [reflexivity|]. cbn. repeat split; lia || assumption.
  - apply Z.eqb_neq in E.
    unfold bind at 1. unfold Retry.calculateDelay at 1.
    unfold bind at 1. unfold Retry.mathRandom at 1. unfold ret at 1.
    unfold bind at 1. unfold ret at 1. unfold bind at 1.
    match goal with
    | |- context [sleep ?d ?w0] =>
        destruct (sleep_without_deadline d w0) as (w1 & Es & Hc & Hdr & Hd1);
          [exact Hd|]; rewrite Es
    end.
    destruct (IH (S a) (Some (toError e)) w1 Hd1) as (w' & Er & Hc' & Hdr' & Hd');
      [lia | lia |].
    rewrite Er. exists w'. split; [reflexivity|].
    rewrite Hc', Hdr', Hc, Hdr. cbn. repeat split; lia || assumption.
Qed.

(** C1: [withRetry] does not consult the retryable flag.  Wrapped around an
    operation that fails every time with a non-retryable error [e], with
    [maxRetries >= 1] and no deadline armed, it does not abort after the
    first failure: it invokes the operation [maxRetries + 1] times, and
    computes a delay (one random draw each) and sleeps [maxRetries] times,
    before it surfaces [e]. *)
Theorem withRetry_retries_non_retryable {T : Type} (e : Thrown) (w : World) :
  nonRetryable e = true ->
  1 <= Retry.maxRetries config ->
  deadline w = None ->
  exists w',
    Retry.withRetry random (Retry.operation (T := T) (fun _ => inl e))
      config None w = (Rejected e, w') /\
    calls w' = (calls w + Z.to_nat (Retry.maxRetries config) + 1)%nat /\
    drawn w' = (drawn w + Z.to_nat (Retry.maxRetries config))%nat /\
    (2 <= calls w' - calls w)%nat /\
    (1 <= drawn w' - drawn w)%nat.
Proof.
  intros He Hk Hd. unfold Retry.withRetry, Retry.attemptsOf.
  destruct (withRetryFrom_all_fail (T := T) e
              (Z.to_nat (Retry.maxRetries config + 1)) 0 None w Hd)
    as (w' & E & Hc & Hr & _); [lia | lia |].
  exists w'. rewrite E.
  assert (Ee : ThrowError (toError e) = e).
  { destruct e as [x|v]; [reflexivity | discriminate He]. }
  rewrite Ee. split; [reflexivity|].
  rewrite Hc, Hr. repeat split; lia.
Qed.

End RetryFacts.

(** ** The runtime *)

Section RuntimeFacts.
Import Errors Exec AgentRuntime.
Variable config : RuntimeConfig.
Variable random : nat -> Q.
Variable executeCore :
  World -> list Types.Message -> Types.ExecutionConfig -> Reply.

Lemma raceTimeout_settles {A} (p : M A) (T : Z) (w : World) :
  fst (raceTimeout p T w) <> Unsettled.
Proof.
  unfold raceTimeout.
  destruct (p _) as [[a|e|] w1]; cbn; discriminate.
Qed.

Lemma initialize_done (w : World) :
  isInitialized w = true -> initialize config w = (Resolved tt, w).
Proof.
  intros H. unfold initialize, bind, get. cbn. now rewrite H.
Qed.

Lemma initialize_cases (w : World) :
  (exists wi, initialize config w = (Resolved tt, wi) /\
     now wi = now w /\ calls wi = calls w /\ drawn wi = drawn w /\
     deadline wi = deadline w /\
     Exec.circuitBreaker wi = Exec.circuitBreaker w /\
     (isInitialized w = true \/ validateConfig config = None)) \/
  (exists a w',
     initialize config w =
       (Rejected
          (if errorListener w then throwAgent a
           else unhandledError (inspect w (ErrorInfo (throwAgent a)))),
        w') /\
     isInitialized w = false /\ validateConfig config = Some a /\
     calls w' = calls w /\ now w' = now w).
Proof.
  destruct (isInitialized w) eqn:Hi.
  - left. exists w. rewrite initialize_done by assumption. auto 10.
  - unfold initialize, bind, get, tryCatch, emit, emitError, record, modify,
      throw, ret.
    cbn. rewrite Hi.
    destruct (validateConfig config) as [a|] eqn:Hv.
    + right. exists a. cbn.
      destruct (errorListener w); cbn; eexists; repeat split; reflexivity.
    + left. destruct (metricsOn config); cbn; eexists; (split; [reflexivity|]);
        cbn; auto 10.
Qed.

Lemma isOpen_true (t : Z) (cb : CircuitBreaker.t) :
  fst (CircuitBreaker.isOpen t cb) = true ->
  CircuitBreaker.isOpen t cb = (true, cb) /\
  CircuitBreaker.state cb = CircuitBreaker.open.
Proof.
  unfold CircuitBreaker.isOpen.
  destruct (CircuitBreaker.state cb) eqn:Hs; cbn; try discriminate.
  - destruct (CircuitBreaker.due t cb); cbn; [discriminate | auto].
  - destruct (CircuitBreaker.due t cb); cbn; discriminate.
Qed.

Lemma set_circuitBreaker_same (w : World) :
  set_circuitBreaker (Exec.circuitBreaker w) w = w.
Proof. now destruct w. Qed.

Lemma executeWith_unfold (T : Z) (task : string) (ec : Types.ExecutionConfig)
    (w wi : World) :
  initialize config w = (Resolved tt, wi) ->
  executeWith config random executeCore T task ec w =
    (let eid := {| Types.stamp := now wi; Types.nonce := random (drawn wi) |} in
     let msgs := transcript task (now wi) (now wi) in
     bind (tryCatch
             (executeTry config random executeCore eid task ec T msgs
                (newResult eid msgs))
             (executeCatch eid (newResult eid msgs)))
          (executeFinally config (now wi) msgs)
          (set_drawn (S (drawn wi)) wi)).
Proof.
  intros H. unfold executeWith. unfold bind at 1. rewrite H.
  reflexivity.
Qed.

(** The breaker check resolves, touching the breaker alone, and not even
    that when it reports open. *)
Lemma breakerIsOpen_resolves (w : World) :
  exists w', breakerIsOpen w = (Resolved (reportsOpen w), w') /\
    now w' = now w /\ calls w' = calls w /\ drawn w' = drawn w /\
    log w' = log w /\ deadline w' = deadline w /\ metrics w' = metrics w /\
    (reportsOpen w = true -> w' = w).
Proof.
  unfold reportsOpen, breakerIsOpen.
  destruct (Exec.circuitBreaker w) as [[c cb]|] eqn:Hc.
  - destruct (CircuitBreaker.isOpen (now w) cb) as [b cb'] eqn:Hb. cbn.
    eexists. split; [reflexivity|]. cbn. repeat split.
    intros ->. destruct (isOpen_true (now w) cb) as [Hi _].
    { now rewrite Hb. }
    rewrite Hi in Hb. injection Hb as <-. rewrite <- Hc.
    apply set_circuitBreaker_same.
  - cbn. exists w. repeat split.
Qed.


Lemma try_catch_outcome (eid : Types.ExecId) (task : string)
    (ec : Types.ExecutionConfig) (T : Z) (msgs : list Types.Message)
    (w : World) :
  exists r w',
    tryCatch
      (executeTry config random executeCore eid task ec T msgs
         (newResult eid msgs))
      (executeCatch eid (newResult eid msgs)) w = (Resolved r, w') /\
    Types.status r =
      (if reportsOpen w then ExecutionStatus.failed
       else match
                fst (executeWithRetry config random executeCore msgs ec
                       (raceStart eid task T w))
              with
              | Resolved _ => ExecutionStatus.completed
              | Rejected e =>
                  if instanceofTimeout e then ExecutionStatus.timeout
                  else ExecutionStatus.failed
              | Unsettled => ExecutionStatus.timeout
              end) /\
    (reportsOpen w = true ->
       Types.error r = Some "Circuit breaker is open"%string /\
       w' = snd (emit "execution:error" (FailureInfo eid circuitOpenError)
                   (snd (breakerRecordFailure w)))).
Proof.
  unfold tryCatch, executeTry, raceStart. unfold bind at 1.
  destruct (breakerIsOpen_resolves w) as (w1 & E & Hw1). rewrite E. cbn [snd].
  destruct (reportsOpen w).
  - cbn. eexists _, _. split; [reflexivity|]. split; [reflexivity|].
    intros _. split; [reflexivity|].
    destruct Hw1 as (_ & _ & _ & _ & _ & _ & ->); reflexivity.
  - unfold bind at 1. cbn -[raceTimeout executeWithRetry].
    unfold bind at 1. unfold raceTimeout. cbn [now log set_log].
    destruct (executeWithRetry _ _ _ _ _ _) as [[x|e|] w2]; cbn;
      eexists _, _; (split; [reflexivity|]); (split; [ | discriminate]);
      cbn; try reflexivity.
Qed.


Lemma breakerRecordFailure_frame (w : World) :
  let w' := snd (breakerRecordFailure w) in
  now w' = now w /\ calls w' = calls w /\ drawn w' = drawn w /\
  log w' = log w /\ deadline w' = deadline w /\ metrics w' = metrics w /\
  Exec.circuitBreaker w' =
    match Exec.circuitBreaker w with
    | Some (c, cb) =>
        Some (c, CircuitBreaker.recordFailure c (now w) (now w) cb)
    | None => None
    end.
Proof.
  unfold breakerRecordFailure, modify. cbn.
  destruct (Exec.circuitBreaker w) as [[c cb]|] eqn:E; cbn; auto 10.
Qed.

Lemma executeFinally_resolves (start : Z) (msgs : list Types.Message)
    (r : Types.ExecutionResult) (w : World) :
  exists r' w',
    executeFinally config start msgs r w = (Resolved r', w') /\
    Types.status r' = Types.status r /\
    Types.error r' = Types.error r /\
    Types.id r' = Types.id r /\
    Types.duration r' = now w - start /\
    now w' = now w /\ calls w' = calls w /\ log w' = log w /\
    Exec.circuitBreaker w' = Exec.circuitBreaker w.
Proof.
  unfold executeFinally, bind, dateNow, get, modify, ret.
  destruct (metricsOn config); cbn; eexists _, _;
    (split; [reflexivity|]); cbn; auto 10.
Qed.


Lemma reportsOpen_ext (w1 w2 : World) :
  now w1 = now w2 -> Exec.circuitBreaker w1 = Exec.circuitBreaker w2 ->
  reportsOpen w1 = reportsOpen w2.
Proof.
  intros Hn Hc. unfold reportsOpen, breakerIsOpen. rewrite Hn, Hc.
  destruct (Exec.circuitBreaker w2) as [[c cb]|]; [|reflexivity].
  now destruct (CircuitBreaker.isOpen (now w2) cb).
Qed.

Lemma reportsOpen_breaker (w : World) :
  reportsOpen w = true ->
  exists c cb, Exec.circuitBreaker w = Some (c, cb) /\
    CircuitBreaker.state cb = CircuitBreaker.open /\
    fst (CircuitBreaker.isOpen (now w) cb) = true.
Proof.
  unfold reportsOpen, breakerIsOpen.
  destruct (Exec.circuitBreaker w) as [[c cb]|]; [|discriminate].
  destruct (CircuitBreaker.isOpen (now w) cb) as [b cb'] eqn:E. cbn.
  intros ->. exists c, cb. split; [reflexivity|].
  destruct (isOpen_true (now w) cb) as [_ Hs]; [now rewrite E|].
  split; [assumption | now rewrite E].
Qed.

(** What [execute] does once initialisation has gone through. *)
Lemma execute_after_initialize (T : Z) (task : string)
    (ec : Types.ExecutionConfig) (w wi : World) :
  initialize config w = (Resolved tt, wi) ->
  now wi = now w ->
  Exec.circuitBreaker wi = Exec.circuitBreaker w ->
  let eid := {| Types.stamp := now w; Types.nonce := random (drawn wi) |} in
  let msgs := transcript task (now w) (now w) in
  let w1 := set_drawn (S (drawn wi)) wi in
  exists r w',
    executeWith config random executeCore T task ec w = (Resolved r, w') /\
    Types.id r = eid /\
    Types.duration r = now w' - now w /\
    Types.status r =
      (if reportsOpen w then ExecutionStatus.failed
       else match
                fst (executeWithRetry config random executeCore msgs ec
                       (raceStart eid task T w1))
              with
              | Resolved _ => ExecutionStatus.completed
              | Rejected e =>
                  if instanceofTimeout e then ExecutionStatus.timeout
                  else ExecutionStatus.failed
              | Unsettled => ExecutionStatus.timeout
              end) /\
    (reportsOpen w = true ->
       Types.error r = Some "Circuit breaker is open"%string /\
       now w' = now w /\
       calls w' = calls wi /\
       log w' = (log wi ++ [Emit "execution:error"
                              (FailureInfo eid circuitOpenError)])%list /\
       Exec.circuitBreaker w' =
         match Exec.circuitBreaker w with
         | Some (c, cb) =>
             Some (c, CircuitBreaker.recordFailure c (now w) (now w) cb)
         | None => None
         end).
Proof.
  intros Hi Hn Hc. cbn zeta.
  rewrite (executeWith_unfold T task ec w wi Hi). cbn zeta. rewrite Hn.
  unfold bind at 1.
  set (eid := {| Types.stamp := now w; Types.nonce := random (drawn wi) |}).
  set (w1 := set_drawn (S (drawn wi)) wi).
  assert (Hro : reportsOpen w1 = reportsOpen w)
    by (apply reportsOpen_ext; [exact Hn | exact Hc]).
  destruct (try_catch_outcome eid task ec T
              (transcript task (now w) (now w)) w1)
    as (r & w2 & E & Hst & Hopen).
  rewrite E.
  destruct (executeFinally_resolves (now w)
              (transcript task (now w) (now w)) r w2)
    as (r' & w3 & E3 & Hs3 & He3 & Hid3 & Hd3 & Hn3 & Hc3 & Hl3 & Hb3).
  rewrite E3. exists r', w3. split; [reflexivity|].
  rewrite Hs3, Hst, Hro, Hd3, Hn3.
  split.
  { rewrite Hid3. revert E. unfold tryCatch, executeTry, executeCatch.
    unfold bind at 1.
    destruct (breakerIsOpen_resolves w1) as (wb & -> & _).
    destruct (reportsOpen w1).
    - cbn. intros [= <- _]. reflexivity.
    - unfold bind at 1. cbn -[raceTimeout executeWithRetry].
      unfold bind at 1.
      destruct (raceTimeout _ _ _) as [[x|e|] wx]; cbn;
        intros [= <- _]; reflexivity. }
  split; [reflexivity|]. split; [reflexivity|].
  intros Ho. rewrite <- Hro in Ho. destruct (Hopen Ho) as [Her ->].
  rewrite ?He3, ?Hn3, ?Hc3, ?Hl3, ?Hb3.
  destruct (breakerRecordFailure_frame w1)
    as (Fn & Fc & _ & Fl & _ & _ & Fb).
  cbn [emit record modify snd now calls log Exec.circuitBreaker set_log].
  rewrite Fn, Fc, Fl, Fb. subst w1. cbn. rewrite Hn, Hc. auto.
Qed.
(** The sibling loop inside the runtime does consult the flag: when an
    attempt fails with a non-retryable error, [executeWithRetry] rejects
    with that error after this one invocation, with no delay computed and
    no sleep. *)
Lemma executeWithRetry_stops_at_non_retryable
    (msgs : list Types.Message) (ec : Types.ExecutionConfig)
    (attempt : Z) (rest : list Z) (lastError : option JsError)
    (w : World) (latency : nat) (e : Thrown) :
  deadline w = None ->
  executeCore
    (set_log
       (log w ++ [Emit "execution:attempt"
                    (AttemptInfo attempt (Retry.maxRetries (retry config)))])
       w) msgs ec = Settles latency (inl e) ->
  nonRetryable e = true ->
  exists w',
    executeWithRetryFrom config random executeCore msgs ec (attempt :: rest)
      lastError w = (Rejected e, w') /\
    calls w' = S (calls w) /\
    drawn w' = drawn w /\
    now w' = now w + Z.of_nat latency /\
    log w' =
      (log w ++ [Emit "execution:attempt"
                   (AttemptInfo attempt (Retry.maxRetries (retry config)));
                 Invoke (calls w)])%list.
Proof.
  intros Hd Hr Hn. cbn [executeWithRetryFrom].
  unfold tryCatch, bind, emit, record, modify, callExecuteCore.
  rewrite Hr. unfold advance. cbn. rewrite Hd, Hn. unfold throw.
  eexists. split; [reflexivity|]. cbn.
  rewrite <- app_assoc. auto.
Qed.

(** [execute] on a runtime that initialises: the result, the world [wr] in
    which the race starts, and the status by what the retried call comes to
    under the deadline ([Unsettled]: the timer fired first). *)
Lemma execute_outcome (task : string) (ec : Types.ExecutionConfig)
    (w wi : World) :
  initialize config w = (Resolved tt, wi) ->
  exists r w' wr,
    execute config random executeCore task ec w = (Resolved r, w') /\
    now wr = now w /\
    deadline wr = Some (now w + timerDelay (effectiveTimeout ec config)) /\
    Types.status r =
      if reportsOpen w then ExecutionStatus.failed
      else
        match
          fst (executeWithRetry config random executeCore
                 (transcript task (now w) (now w)) ec wr)
        with
        | Resolved _ => ExecutionStatus.completed
        | Rejected e =>
            if instanceofTimeout e then ExecutionStatus.timeout
            else ExecutionStatus.failed
        | Unsettled => ExecutionStatus.timeout
        end.
Proof.
  intros Hi.
  destruct (initialize_cases w)
    as [(wi' & Hi' & Hn & _ & _ & _ & Hc & _) | (a & w' & Hi' & _)];
    [ | rewrite Hi in Hi'; discriminate].
  rewrite Hi in Hi'. injection Hi' as <-.
  unfold execute.
  destruct (execute_after_initialize (effectiveTimeout ec config) task ec
              w wi Hi Hn Hc)
    as (r & w' & E & _ & _ & Hs & _).
  set (eid := {| Types.stamp := now w; Types.nonce := random (drawn wi) |})
    in *.
  exists r, w',
    (raceStart eid task (effectiveTimeout ec config)
       (set_drawn (S (drawn wi)) wi)).
  split; [exact E|].
  destruct (breakerIsOpen_resolves (set_drawn (S (drawn wi)) wi))
    as (wb & Eb & Hnb & _).
  unfold raceStart at 1 2. rewrite Eb.
  cbn [snd now deadline set_deadline set_log].
  cbn [now set_drawn] in Hnb. rewrite Hnb, Hn.
  split; [reflexivity|]. split; [reflexivity|]. exact Hs.
Qed.

End RuntimeFacts.

Section RuntimeClaims.
Import Errors Exec AgentRuntime.
Variable config : RuntimeConfig.
Variable random : nat -> Q.
Variable executeCore :
  World -> list Types.Message -> Types.ExecutionConfig -> Reply.

(** C5: [execute] never stays unsettled.  It rejects only when the runtime
    was not yet initialised and [validateConfig] refuses the configuration,
    before any backend call: with that validation error when an ['error']
    listener is registered, and with the unhandled-error of [emit] when
    none is.  Otherwise it resolves with a result whose status is one of
    [completed], [failed] and [timeout], never [pending] or [running], and
    whose duration is the time elapsed between the start of the call and
    its end. *)
Theorem execute_returns_result (task : string) (ec : Types.ExecutionConfig)
    (w : World) :
  match execute config random executeCore task ec w with
  | (Resolved r, w') =>
      ExecutionStatus.terminal (Types.status r) = true /\
      Types.status r <> ExecutionStatus.pending /\
      Types.status r <> ExecutionStatus.running /\
      Types.duration r = now w' - now w
  | (Rejected e, w') =>
      isInitialized w = false /\
      (exists a,
         validateConfig config = Some a /\
         e = if errorListener w then throwAgent a
             else unhandledError (inspect w (ErrorInfo (throwAgent a)))) /\
      calls w' = calls w
  | (Unsettled, _) => False
  end.
Proof.
  unfold execute.
  destruct (initialize_cases config w)
    as [(wi & Hi & Hn & _ & _ & _ & Hc & _) | (a & w' & Hi & Hf & Hv & Hcl & _)].
  - destruct (execute_after_initialize config random executeCore
                (effectiveTimeout ec config) task ec w wi Hi Hn Hc)
      as (r & w' & -> & _ & Hd & Hs & _).
    assert (Ht : ExecutionStatus.terminal (Types.status r) = true).
    { rewrite Hs. destruct (reportsOpen w); [reflexivity|].
      destruct (fst _) as [x|e|]; [reflexivity | | reflexivity].
      now destruct (instanceofTimeout e). }
    repeat split; try assumption; intros E; rewrite E in Ht; discriminate.
  - unfold executeWith. unfold bind at 1. rewrite Hi.
    split; [assumption|]. split; [|assumption]. now exists a.
Qed.

Lemma nonRetryable_not_timeout (e : Thrown) :
  nonRetryable e = true -> instanceofTimeout e = false.
Proof.
  destruct e as [[m|a]|v]; cbn; try discriminate.
  destruct a; cbn; try reflexivity; discriminate.
Qed.

(** C4, amended: the status is [timeout] exactly when the error [execute]
    catches is an [AgentTimeoutError], which is so when the timer armed
    with the effective timeout fires before the retried backend call
    settles, and also when that call itself fails with an
    [AgentTimeoutError]; every other error, the open circuit and a
    non-retryable backend error among them, gives [failed].  [wr] is the
    world in which the race starts and [o] what the retried call comes to
    under the deadline, [Unsettled] meaning that the timer fired first. *)
Theorem status_follows_caught_error (task : string)
    (ec : Types.ExecutionConfig) (w wi : World) :
  initialize config w = (Resolved tt, wi) ->
  exists r w' wr,
    execute config random executeCore task ec w = (Resolved r, w') /\
    now wr = now w /\
    deadline wr = Some (now w + timerDelay (effectiveTimeout ec config)) /\
    let o :=
      fst (executeWithRetry config random executeCore
             (transcript task (now w) (now w)) ec wr) in
    (Types.status r = ExecutionStatus.timeout <->
       reportsOpen w = false /\
       (o = Unsettled \/
        exists e, o = Rejected e /\ instanceofTimeout e = true)) /\
    (Types.status r = ExecutionStatus.failed <->
       reportsOpen w = true \/
       exists e, o = Rejected e /\ instanceofTimeout e = false) /\
    (Types.status r = ExecutionStatus.completed <->
       reportsOpen w = false /\ exists x, o = Resolved x) /\
    (forall e, nonRetryable e = true -> instanceofTimeout e = false).
Proof.
  intros Hi.
  destruct (execute_outcome config random executeCore task ec w wi Hi)
    as (r & w' & wr & E & Hn & Hd & Hs).
  exists r, w', wr. repeat (split; [assumption|]).
  cbn zeta. rewrite Hs.
  split; [ | split; [ | split; [ | exact nonRetryable_not_timeout]]].
  all: destruct (reportsOpen w);
    [ | destruct (fst _) as [x|e|];
        [ | destruct (instanceofTimeout e) eqn:Ei | ] ].
  all: split;
    [ intros H; try discriminate H; eauto 6
    | intros H; decompose [and or ex] H; clear H;
      try discriminate; try congruence; try reflexivity ].
Qed.

(** C3: when the breaker reports open as an initialised runtime enters
    [execute], the call resolves at once with status [failed]: the backend
    is not invoked and no attempt is announced, the only event being
    ['execution:error'].  The error raised is non-retryable and its message
    is that of [AgentCircuitOpenError], but it is a plain [AgentError]
    whose code is [CIRCUIT_OPEN], not the [AGENT_CIRCUIT_OPEN] of the
    taxonomy. *)
Theorem circuit_open_fails_fast (task : string) (ec : Types.ExecutionConfig)
    (w : World) :
  isInitialized w = true ->
  reportsOpen w = true ->
  exists r w' a,
    execute config random executeCore task ec w = (Resolved r, w') /\
    Types.status r = ExecutionStatus.failed /\
    Types.error r = Some (message a) /\
    calls w' = calls w /\
    now w' = now w /\
    log w' =
      (log w ++ [Emit "execution:error"
                   (FailureInfo (Types.id r) (throwAgent a))])%list /\
    retryable a = false /\
    message a = message (AgentCircuitOpenError None) /\
    code a = "CIRCUIT_OPEN"%string /\
    code a <> code (AgentCircuitOpenError None).
Proof.
  intros Hi Ho. unfold execute.
  destruct (execute_after_initialize config random executeCore
              (effectiveTimeout ec config) task ec w w
              (initialize_done config w Hi) eq_refl eq_refl)
    as (r & w' & E & Hid & _ & Hs & Hopen).
  destruct (Hopen Ho) as (He & Hn & Hc & Hl & _).
  exists r, w', (BaseAgentError "Circuit breaker is open" "CIRCUIT_OPEN" false).
  rewrite Ho in Hs. rewrite Hid.
  repeat (split; [assumption || reflexivity|]). discriminate.
Qed.

(** C9, amended: on an open breaker every [recordFailure] keeps the state
    [open] and adds one to the failure counter; it moves the next-attempt
    deadline to its clock reading plus the timeout exactly when the counter
    so increased has reached [failureThreshold], and leaves the deadline
    alone otherwise.  [execute] calls [recordFailure] on its circuit-open
    rejection path, so a rejected call extends the open window under that
    same condition. *)
Theorem open_failure_reschedules_at_threshold
    (c : CircuitBreaker.CircuitBreakerConfig) (cb : CircuitBreaker.t) :
  CircuitBreaker.state cb = CircuitBreaker.open ->
  (forall tF tS : Z,
     let cb' := CircuitBreaker.recordFailure c tF tS cb in
     CircuitBreaker.state cb' = CircuitBreaker.open /\
     CircuitBreaker.failures cb' = CircuitBreaker.failures cb + 1 /\
     CircuitBreaker.nextAttemptTime cb' =
       if CircuitBreaker.failureThreshold c
            <=? CircuitBreaker.failures cb + 1
       then Some (tS + CircuitBreaker.timeout c)
       else CircuitBreaker.nextAttemptTime cb) /\
  (forall (task : string) (ec : Types.ExecutionConfig) (w : World),
     isInitialized w = true ->
     Exec.circuitBreaker w = Some (c, cb) ->
     reportsOpen w = true ->
     Exec.circuitBreaker
       (snd (execute config random executeCore task ec w)) =
       Some (c, CircuitBreaker.recordFailure c (now w) (now w) cb)).
Proof.
  intros Hs. split.
  - intros tF tS. cbn zeta. rewrite recordFailure_open by assumption.
    cbn. auto.
  - intros task ec w Hi Hc Ho. unfold execute.
    destruct (execute_after_initialize config random executeCore
                (effectiveTimeout ec config) task ec w w
                (initialize_done config w Hi) eq_refl eq_refl)
      as (r & w' & E & _ & _ & _ & Hopen).
    destruct (Hopen Ho) as (_ & _ & _ & _ & Hb).
    rewrite E. cbn [snd]. rewrite Hb, Hc. reflexivity.
Qed.

(** C10: the effective timeout is chosen by truthiness of the per-call
    override: the configured default when the override is missing or 0,
    and the override itself when it is any other number.  It is that
    choice that arms the race: on a runtime that initialises, the deadline
    of the race is the start of the call plus the chosen timeout (as a
    Node timer waits it), so with an override of 0 it is the start plus
    the default, and the call ends in [timeout] only if the retried
    backend call has not settled by then or fails with a timeout error of
    its own. *)
Theorem zero_override_uses_default (task : string)
    (ec : Types.ExecutionConfig) (w wi : World) :
  initialize config w = (Resolved tt, wi) ->
  effectiveTimeout ec config =
    match Types.timeout ec with
    | Some t => if t =? 0 then timeout config else t
    | None => timeout config
    end /\
  (Types.timeout ec = Some 0 ->
   effectiveTimeout ec config = timeout config /\
   execute config random executeCore task ec w =
     executeWith config random executeCore (timeout config) task ec w) /\
  (Types.timeout ec = None ->
   effectiveTimeout ec config = timeout config /\
   execute config random executeCore task ec w =
     executeWith config random executeCore (timeout config) task ec w) /\
  (forall t,
     Types.timeout ec = Some t -> t <> 0 ->
     effectiveTimeout ec config = t /\
     execute config random executeCore task ec w =
       executeWith config random executeCore t task ec w) /\
  exists r w' wr,
    execute config random executeCore task ec w = (Resolved r, w') /\
    now wr = now w /\
    deadline wr =
      Some (now w +
            timerDelay
              match Types.timeout ec with
              | Some t => if t =? 0 then timeout config else t
              | None => timeout config
              end) /\
    (Types.timeout ec = Some 0 ->
     deadline wr = Some (now w + timerDelay (timeout config))) /\
    Types.status r =
      if reportsOpen w then ExecutionStatus.failed
      else
        match
          fst (executeWithRetry config random executeCore
                 (transcript task (now w) (now w)) ec wr)
        with
        | Resolved _ => ExecutionStatus.completed
        | Rejected e =>
            if instanceofTimeout e then ExecutionStatus.timeout
            else ExecutionStatus.failed
        | Unsettled => ExecutionStatus.timeout
        end.
Proof.
  intros Hi.
  assert (E : effectiveTimeout ec config =
              match Types.timeout ec with
              | Some t => if t =? 0 then timeout config else t
              | None => timeout config
              end).
  { unfold effectiveTimeout, truthy.
    destruct (Types.timeout ec) as [t|]; [|reflexivity].
    now destruct (t =? 0). }
  split; [exact E|].
  split; [intros H; rewrite H in E; cbn in E; unfold execute; rewrite E; auto|].
  split; [intros H; rewrite H in E; unfold execute; rewrite E; auto|].
  split.
  { intros t H Ht. rewrite H in E.
    apply Z.eqb_neq in Ht. rewrite Ht in E.
    unfold execute. rewrite E. auto. }
  destruct (execute_outcome config random executeCore task ec w wi Hi)
    as (r & w' & wr & Ex & Hn & Hd & Hs).
  exists r, w', wr.
  split; [exact Ex|]. split; [exact Hn|].
  rewrite E in Hd. split; [exact Hd|]. split; [|exact Hs].
  intros H. rewrite H in Hd. exact Hd.
Qed.

End RuntimeClaims.

(** ** The properties on the scenarios *)

Section OnScenarios.
Import Errors Exec AgentRuntime Scenario.

Lemma withRetry_retries_non_retryable_witness :
  exists w',
    Retry.withRetry evenDraws
      (Retry.operation (T := unit) (fun _ => inl toolFailure))
      oneRetry None fresh = (Rejected toolFailure, w') /\
    calls w' = (calls fresh + Z.to_nat (Retry.maxRetries oneRetry) + 1)%nat /\
    drawn w' = (drawn fresh + Z.to_nat (Retry.maxRetries oneRetry))%nat /\
    (2 <= calls w' - calls fresh)%nat /\
    (1 <= drawn w' - drawn fresh)%nat.
Proof.
  apply (withRetry_retries_non_retryable evenDraws oneRetry (T := unit)
           toolFailure fresh); [reflexivity | cbn; lia | reflexivity].
Defined.

(** The run behind it: two invocations, a sleep of 10.5 ms in between. *)
Lemma withRetry_tool_failure_run :
  exists w',
    Retry.withRetry evenDraws
      (Retry.operation (T := unit) (fun _ => inl toolFailure))
      oneRetry None fresh = (Rejected toolFailure, w') /\
    calls w' = 2%nat /\
    drawn w' = 1%nat /\
    log w' = [Invoke 0; Sleep (210 # 20); Invoke 1] /\
    now w' = now fresh + 10.
Proof.
  eexists. split; [vm_compute; reflexivity|]. repeat split.
Qed.

Lemma circuit_open_fails_fast_witness :
  exists r w' a,
    execute testConfig evenDraws silent "Hello" Types.noOverrides
      (holding 1500 tripped) = (Resolved r, w') /\
    Types.status r = ExecutionStatus.failed /\
    Types.error r = Some (message a) /\
    calls w' = calls (holding 1500 tripped) /\
    now w' = now (holding 1500 tripped) /\
    log w' =
      (log (holding 1500 tripped) ++
       [Emit "execution:error" (FailureInfo (Types.id r) (throwAgent a))])%list
    /\
    retryable a = false /\
    message a = message (AgentCircuitOpenError None) /\
    code a = "CIRCUIT_OPEN"%string /\
    code a <> code (AgentCircuitOpenError None).
Proof.
  apply (circuit_open_fails_fast testConfig evenDraws silent "Hello"
           Types.noOverrides (holding 1500 tripped)); reflexivity.
Defined.

(** C4, as stated, fails: a backend that fails each call after 5 ms with an
    [AgentTimeoutError] of its own makes the retried call settle, rejected,
    at 8370, long before the deadline at 61000, and the status is
    [timeout] all the same. *)
Lemma backend_timeout_error_gives_timeout_status :
  exists r w',
    execute testConfig evenDraws slowModel "Hello" Types.noOverrides ready
      = (Resolved r, w') /\
    Types.status r = ExecutionStatus.timeout /\
    reportsOpen ready = false /\
    now w' = 8370 /\
    now ready + timerDelay (effectiveTimeout Types.noOverrides testConfig)
      = 61000 /\
    fst (executeWithRetry testConfig evenDraws slowModel
           (transcript "Hello" 1000 1000) Types.noOverrides
           (raceStart (Types.id r) "Hello" 60000 (set_drawn 1 ready)))
      = Rejected (throwAgent (AgentTimeoutError "model" 5)).
Proof.
  eexists _, _. split; [vm_compute; reflexivity|].
  repeat split; vm_compute; reflexivity.
Qed.

Lemma status_follows_caught_error_witness :
  exists r w' wr,
    execute testConfig evenDraws slowModel "Hello" Types.noOverrides ready
      = (Resolved r, w') /\
    now wr = now ready /\
    deadline wr =
      Some (now ready
            + timerDelay (effectiveTimeout Types.noOverrides testConfig)) /\
    let o :=
      fst (executeWithRetry testConfig evenDraws slowModel
             (transcript "Hello" (now ready) (now ready)) Types.noOverrides
             wr) in
    (Types.status r = ExecutionStatus.timeout <->
       reportsOpen ready = false /\
       (o = Unsettled \/
        exists e, o = Rejected e /\ instanceofTimeout e = true)) /\
    (Types.status r = ExecutionStatus.failed <->
       reportsOpen ready = true \/
       exists e, o = Rejected e /\ instanceofTimeout e = false) /\
    (Types.status r = ExecutionStatus.completed <->
       reportsOpen ready = false /\ exists x, o = Resolved x) /\
    (forall e, nonRetryable e = true -> instanceofTimeout e = false).
Proof.
  apply (status_follows_caught_error testConfig evenDraws slowModel "Hello"
           Types.noOverrides ready ready).
  reflexivity.
Defined.

(** C9, as stated, fails: the breaker reopened out of [half_open] after one
    successful probe is [open] with its failure counter at 1, below the
    threshold of 3, and a further [recordFailure] at 2500, alone or through
    a call of [execute] that the open breaker rejects, leaves the deadline
    at 3001 instead of moving it to 3500. *)
Lemma reopened_breaker_is_not_rescheduled :
  CircuitBreaker.state reopened = CircuitBreaker.open /\
  CircuitBreaker.failures reopened = 1 /\
  CircuitBreaker.failures reopened
    < CircuitBreaker.failureThreshold testBreaker /\
  CircuitBreaker.nextAttemptTime reopened = Some 3001 /\
  CircuitBreaker.nextAttemptTime
    (CircuitBreaker.recordFailure testBreaker 2500 2500 reopened)
    = Some 3001 /\
  reportsOpen (holding 2500 reopened) = true /\
  Exec.circuitBreaker
    (snd (execute testConfig evenDraws silent "Hello" Types.noOverrides
            (holding 2500 reopened)))
    = Some (testBreaker,
            CircuitBreaker.mk CircuitBreaker.open 2 0 (Some 2500)
              (Some 3001)).
Proof. repeat split; vm_compute; reflexivity. Qed.

Lemma open_failure_reschedules_at_threshold_witness :
  (forall tF tS : Z,
     let cb' := CircuitBreaker.recordFailure testBreaker tF tS tripped in
     CircuitBreaker.state cb' = CircuitBreaker.open /\
     CircuitBreaker.failures cb' = CircuitBreaker.failures tripped + 1 /\
     CircuitBreaker.nextAttemptTime cb' =
       if CircuitBreaker.failureThreshold testBreaker
            <=? CircuitBreaker.failures tripped + 1
       then Some (tS + CircuitBreaker.timeout testBreaker)
       else CircuitBreaker.nextAttemptTime tripped) /\
  (forall (task : string) (ec : Types.ExecutionConfig) (w : World),
     isInitialized w = true ->
     Exec.circuitBreaker w = Some (testBreaker, tripped) ->
     reportsOpen w = true ->
     Exec.circuitBreaker
       (snd (execute testConfig evenDraws silent task ec w)) =
       Some (testBreaker,
             CircuitBreaker.recordFailure testBreaker (now w) (now w)
               tripped)).
Proof.
  apply (open_failure_reschedules_at_threshold testConfig evenDraws silent
           testBreaker tripped).
  reflexivity.
Defined.

Lemma zero_override_uses_default_witness :
  effectiveTimeout zeroTimeout testConfig =
    match Types.timeout zeroTimeout with
    | Some t => if t =? 0 then timeout testConfig else t
    | None => timeout testConfig
    end /\
  (Types.timeout zeroTimeout = Some 0 ->
   effectiveTimeout zeroTimeout testConfig = timeout testConfig /\
   execute testConfig evenDraws silent "Hello" zeroTimeout ready =
     executeWith testConfig evenDraws silent (timeout testConfig) "Hello"
       zeroTimeout ready) /\
  (Types.timeout zeroTimeout = None ->
   effectiveTimeout zeroTimeout testConfig = timeout testConfig /\
   execute testConfig evenDraws silent "Hello" zeroTimeout ready =
     executeWith testConfig evenDraws silent (timeout testConfig) "Hello"
       zeroTimeout ready) /\
  (forall t,
     Types.timeout zeroTimeout = Some t -> t <> 0 ->
     effectiveTimeout zeroTimeout testConfig = t /\
     execute testConfig evenDraws silent "Hello" zeroTimeout ready =
       executeWith testConfig evenDraws silent t "Hello" zeroTimeout ready) /\
  exists r w' wr,
    execute testConfig evenDraws silent "Hello" zeroTimeout ready
      = (Resolved r, w') /\
    now wr = now ready /\
    deadline wr =
      Some (now ready +
            timerDelay
              match Types.timeout zeroTimeout with
              | Some t => if t =? 0 then timeout testConfig else t
              | None => timeout testConfig
              end) /\
    (Types.timeout zeroTimeout = Some 0 ->
     deadline wr = Some (now ready + timerDelay (timeout testConfig))) /\
    Types.status r =
      if reportsOpen ready then ExecutionStatus.failed
      else
        match
          fst (executeWithRetry testConfig evenDraws silent
                 (transcript "Hello" (now ready) (now ready)) zeroTimeout wr)
        with
        | Resolved _ => ExecutionStatus.completed
        | Rejected e =>
            if instanceofTimeout e then ExecutionStatus.timeout
            else ExecutionStatus.failed
        | Unsettled => ExecutionStatus.timeout
        end.
Proof.
  apply (zero_override_uses_default testConfig evenDraws silent "Hello"
           zeroTimeout ready ready); reflexivity.
Defined.

(** With a backend that never answers and an override of 0, the call ends
    in [timeout] after the 60000 ms of the default, not at once. *)
Lemma zero_override_waits_for_default :
  exists r w',
    execute testConfig evenDraws silent "Hello" zeroTimeout ready
      = (Resolved r, w') /\
    Types.status r = ExecutionStatus.timeout /\
    Types.duration r = 60000 /\
    Types.error r
      = Some "Operation 'execution' timed out after 60000ms"%string.
Proof.
  eexists _, _. split; [vm_compute; reflexivity|]. repeat split.
Qed.

(** With an override of 50, it is the override that the call waits. *)
Lemma brief_override_is_used :
  effectiveTimeout briefTimeout testConfig = 50 /\
  exists r w',
    execute testConfig evenDraws silent "Hello" briefTimeout ready
      = (Resolved r, w') /\
    Types.status r = ExecutionStatus.timeout /\
    Types.duration r = 50 /\
    Types.error r
      = Some "Operation 'execution' timed out after 50ms"%string.
Proof.
  split; [reflexivity|].
  eexists _, _. split; [vm_compute; reflexivity|]. repeat split.
Qed.

(** The source's own backend answers at once, and the call completes. *)
Lemma stub_completes :
  exists r w',
    execute testConfig evenDraws (executeCoreStub evenDraws) "Hello"
      Types.noOverrides fresh = (Resolved r, w') /\
    Types.status r = ExecutionStatus.completed /\
    Types.output r = "Processed: Hello"%string /\
    calls w' = 1%nat.
Proof.
  eexists _, _. split; [vm_compute; reflexivity|]. repeat split.
Qed.

End OnScenarios.

(* ================================================================= *)
(** * Further properties *)

(** ** More on the circuit breaker *)

Section BreakerInvariants.
Import CircuitBreaker.
Variable config : CircuitBreakerConfig.

(** What every breaker the methods can produce satisfies. *)
Lemma breaker_invariant (cb : t) :
  reachable config cb ->
  (state cb = open <-> nextAttemptTime cb <> None) /\
  (state cb <> half_open -> successes cb = 0) /\
  0 <= failures cb /\
  0 <= successes cb /\
  (0 < failures cb -> lastFailureTime cb <> None) /\
  (1 <= successThreshold config -> successes cb < successThreshold config).
Proof.
  induction 1 as [ | now cb _ IH | now cb _ IH | cb _ IH | tF tS cb _ IH
                 | cb _ IH ];
    try destruct IH as (I1 & I2 & I3 & I4 & I5 & I6).
  - cbn. repeat split; intros; try lia; try discriminate; try congruence.
  - rewrite isOpen_getState. cbn [snd]. unfold getState.
    destruct (due now cb) eqn:Hd; cbn; [|tauto].
    repeat split; intros; try assumption; try discriminate;
      try congruence; auto.
  - unfold getState.
    destruct (due now cb) eqn:Hd; cbn; [|tauto].
    repeat split; intros; try assumption; try discriminate;
      try congruence; auto.
  - assert (Hn : state cb <> open -> nextAttemptTime cb = None).
    { intros Hne. destruct (nextAttemptTime cb) eqn:En; [|reflexivity].
      elim Hne. apply I1. discriminate. }
    destruct (state cb) eqn:E.
    + unfold recordSuccess. cbn. rewrite E. cbn. rewrite E.
      repeat split; intros; try lia; try discriminate; try tauto;
        try (apply I2; discriminate); auto.
    + rewrite recordSuccess_open by assumption. cbn.
      repeat split; intros; try lia; try discriminate; try tauto;
        try (apply I2; discriminate); auto.
    + rewrite recordSuccess_half_open by assumption.
      destruct (successThreshold config <=? successes cb + 1) eqn:Et; cbn;
        rewrite Hn by discriminate;
        repeat split; intros; try lia; try discriminate; try congruence.
  - assert (Hn : state cb <> open -> nextAttemptTime cb = None).
    { intros Hne. destruct (nextAttemptTime cb) eqn:En; [|reflexivity].
      elim Hne. apply I1. discriminate. }
    destruct (state cb) eqn:E.
    + rewrite recordFailure_closed by assumption.
      destruct (failureThreshold config <=? failures cb + 1); cbn;
        rewrite ?Hn by discriminate;
        repeat split; intros; try lia; try discriminate; try congruence;
        try (apply I2; discriminate); auto.
    + rewrite recordFailure_open by assumption. cbn.
      repeat split; intros; try lia; try discriminate; try congruence;
        try (apply I2; discriminate); auto.
      destruct (failureThreshold config <=? failures cb + 1);
        [discriminate | now apply I1].
    + rewrite recordFailure_half_open by assumption. cbn.
      repeat split; intros; try lia; try discriminate; try congruence.
  - cbn. repeat split; intros; try lia; try discriminate; try congruence.
Qed.

(** X1: a success while [closed] forgets the failures so far.  With
    [failureThreshold = N >= 1], after fewer than N failures and one success
    the breaker needs N failures in a row again: a further run of failures
    opens it exactly when it has N calls or more. *)
Theorem closed_success_forgets_failures (cb : t)
    (before after : list (Z * Z)) :
  1 <= failureThreshold config ->
  state cb = closed ->
  failures cb = 0 ->
  Z.of_nat (List.length before) < failureThreshold config ->
  state
    (recordFailures config after
       (recordSuccess config (recordFailures config before cb))) =
    if failureThreshold config <=? Z.of_nat (List.length after)
    then open else closed.
Proof.
  intros HN Hs Hf Hb.
  destruct (recordFailures_count config before cb) as [Hc Hst];
    [left; split; [assumption | lia]|].
  rewrite Hc, Hf in Hst. cbn in Hst.
  apply Z.leb_gt in Hb. rewrite Hb in Hst.
  set (cb1 := recordFailures config before cb) in *.
  assert (Hs1 : state (recordSuccess config cb1) = closed)
    by now apply recordSuccess_closed.
  assert (Hf1 : failures (recordSuccess config cb1) = 0).
  { unfold recordSuccess. cbn. rewrite Hst. reflexivity. }
  destruct (recordFailures_count config after (recordSuccess config cb1))
    as [Hc2 Hst2]; [left; split; [assumption | lia]|].
  rewrite Hst2, Hc2, Hf1. reflexivity.
Qed.

(** X2: an open breaker always has a deadline scheduled, and a breaker in
    another state has none.  A query at [q] finds an open breaker
    [half_open] when its deadline [d] is not 0 and [d <= q], and [open]
    otherwise: unless the deadline is 0, which the truthiness test never
    finds due, no breaker stays open for ever. *)
Theorem open_breaker_has_deadline (cb : t) :
  reachable config cb ->
  (state cb <> open -> nextAttemptTime cb = None) /\
  (state cb = open ->
   exists d,
     nextAttemptTime cb = Some d /\
     forall q,
       fst (getState q cb) =
         if negb (d =? 0) && (d <=? q) then half_open else open).
Proof.
  intros Hr. destruct (breaker_invariant cb Hr) as (I1 & _). split.
  - intros Hne. destruct (nextAttemptTime cb) eqn:En; [|reflexivity].
    elim Hne. apply I1. discriminate.
  - intros Hs. destruct (nextAttemptTime cb) as [d|] eqn:En;
      [ | now elim (proj1 I1 Hs) ].
    exists d. split; [reflexivity|]. intros q.
    unfold getState, due. rewrite Hs, En. cbn.
    destruct (negb (d =? 0) && (d <=? q)); reflexivity.
Qed.

(** X3: the counters of a breaker are never negative; the success counter
    is 0 outside [half_open] and, for [successThreshold >= 1], below the
    threshold always; and a breaker that counts a failure remembers when
    the last one was. *)
Theorem breaker_counters_in_range (cb : t) :
  reachable config cb ->
  0 <= failures cb /\
  0 <= successes cb /\
  (state cb <> half_open -> successes cb = 0) /\
  (0 < failures cb -> lastFailureTime cb <> None) /\
  (1 <= successThreshold config -> successes cb < successThreshold config).
Proof.
  intros Hr.
  destruct (breaker_invariant cb Hr) as (_ & I2 & I3 & I4 & I5 & I6).
  auto.
Qed.

Lemma recordSuccesses_closes k : forall cb,
  state cb = half_open ->
  successes cb + Z.of_nat k = successThreshold config ->
  (1 <= k)%nat ->
  recordSuccesses config k cb =
    mk closed 0 0 (lastFailureTime cb) (nextAttemptTime cb).
Proof.
  induction k as [|k IH]; intros cb Hs Hk H1; [lia|].
  cbn [recordSuccesses]. rewrite recordSuccess_half_open by assumption.
  destruct (successThreshold config <=? successes cb + 1) eqn:E.
  - apply Z.leb_le in E. assert (k = 0%nat) by lia. subst k. reflexivity.
  - apply Z.leb_gt in E. rewrite IH; cbn; try reflexivity; lia.
Qed.

(** X4: a full cycle.  From a closed breaker with no failure counted, N
    failures in a row (N = [failureThreshold >= 1]), the last scheduled at
    [T], a query at or after [T + timeout] (a deadline other than 0), and
    M successes in a row (M = [successThreshold >= 1]) bring the breaker
    back to [closed] with both counters at 0 and no deadline; one success
    fewer leaves it [half_open]. *)
Theorem breaker_full_cycle (cb : t) (ts : list (Z * Z)) (tF T q : Z)
    (m : nat) :
  reachable config cb ->
  state cb = closed ->
  failures cb = 0 ->
  Z.of_nat (List.length ts) + 1 = failureThreshold config ->
  T + timeout config <> 0 ->
  T + timeout config <= q ->
  Z.of_nat m + 1 = successThreshold config ->
  let opened := recordFailure config tF T (recordFailures config ts cb) in
  let probing := snd (getState q opened) in
  state opened = open /\
  state probing = half_open /\
  state (recordSuccesses config m probing) = half_open /\
  recordSuccesses config (S m) probing = mk closed 0 0 (Some tF) None.
Proof.
  intros Hr Hs Hf HN Hd Hq HM. cbn zeta.
  destruct (recordFailures_count config ts cb) as [Hc Hst];
    [left; split; [assumption | lia]|].
  rewrite Hc, Hf in Hst. cbn in Hst.
  assert (E : (failureThreshold config <=? Z.of_nat (List.length ts)) = false)
    by (apply Z.leb_gt; lia).
  rewrite E in Hst.
  assert (Hsucc : successes (recordFailures config ts cb) = 0).
  { assert (Hr' : reachable config (recordFailures config ts cb)).
    { clear - Hr. revert cb Hr. induction ts as [|[a b] l IH]; intros cb Hr;
        [exact Hr | cbn; apply IH; now constructor]. }
    apply (breaker_invariant _ Hr'). rewrite Hst. discriminate. }
  assert (Ho : recordFailure config tF T (recordFailures config ts cb) =
               mk open (failureThreshold config) 0 (Some tF)
                  (Some (T + timeout config))).
  { rewrite recordFailure_closed by assumption.
    rewrite Hc, Hf, Hsucc.
    replace (0 + Z.of_nat (List.length ts) + 1)
      with (failureThreshold config) by lia.
    now rewrite Z.leb_refl. }
  rewrite Ho.
  assert (Hg : getState q (mk open (failureThreshold config) 0 (Some tF)
                             (Some (T + timeout config)))
               = (half_open,
                  mk half_open (failureThreshold config) 0 (Some tF) None)).
  { unfold getState, due. cbn.
    apply Z.eqb_neq in Hd. rewrite Hd. apply Z.leb_le in Hq. rewrite Hq.
    reflexivity. }
  rewrite Hg. cbn [snd state].
  split; [reflexivity|]. split; [reflexivity|]. split.
  - apply recordSuccesses_half_open; cbn; [reflexivity | lia].
  - rewrite recordSuccesses_closes; cbn; try reflexivity; lia.
Qed.

End BreakerInvariants.

Section BreakerObservers.
Import CircuitBreaker.

(** X5: the three observers agree and are idempotent.  At one clock
    reading [isOpen] answers whether [getState] is [open] and [getStats]
    reports the state [getState] returns, with the counters as they were;
    all three leave the same breaker behind, and asking again at that
    reading changes nothing more. *)
Theorem observers_agree (now : Z) (cb : t) :
  let s := fst (getState now cb) in
  let cb' := snd (getState now cb) in
  isOpen now cb = (CircuitState_eqb s open, cb') /\
  CircuitStats.getStats now cb =
    ({| CircuitStats.state := s;
        CircuitStats.failures := failures cb;
        CircuitStats.successes := successes cb;
        CircuitStats.lastFailureTime := lastFailureTime cb |}, cb') /\
  getState now cb' = (s, cb') /\
  isOpen now cb' = (CircuitState_eqb s open, cb') /\
  state cb' = s.
Proof.
  cbn zeta. rewrite !isOpen_getState.
  unfold CircuitStats.getStats.
  assert (Hg : getState now cb =
               if due now cb then (half_open, toHalfOpen cb)
               else (state cb, cb)) by reflexivity.
  destruct (due now cb) eqn:Hd; rewrite Hg; cbn [fst snd].
  - assert (Hh : getState now (toHalfOpen cb) = (half_open, toHalfOpen cb))
      by reflexivity.
    rewrite Hh. repeat split.
  - assert (Hh : getState now cb = (state cb, cb))
      by (unfold getState; now rewrite Hd).
    rewrite Hh. repeat split.
Qed.

End BreakerObservers.

(** ** More on the retry helper *)

Section RetryMore.
Import Errors Exec.
Variable random : nat -> Q.
Variable config : Retry.RetryConfig.

(** X6: a computed delay never exceeds [maxDelay], whatever the attempt,
    the base delay, the factor and the random draw; computing it takes one
    draw and changes nothing else. *)
Theorem calculateDelay_capped (attempt : Z) (w : World) :
  exists d,
    Retry.calculateDelay random attempt config w
      = (Resolved d, set_drawn (S (drawn w)) w) /\
    (d <= Retry.maxDelay config)%Q.
Proof.
  unfold Retry.calculateDelay, bind, Retry.mathRandom, ret.
  eexists. split; [reflexivity|]. apply Q.le_min_r.
Qed.

(** X7: with a base delay and a factor that are not negative and a draw in
    [0, 1), the delay before retry [attempt] is at least the exponential
    delay [baseDelay * factor ^ attempt] or the cap, whichever is smaller,
    and at most that exponential delay plus a tenth: the jitter only ever
    adds, and less than ten per cent. *)
Theorem calculateDelay_window (attempt : Z) (w : World) :
  (0 <= Retry.baseDelay config)%Q ->
  (0 <= Retry.factor config)%Q ->
  (0 <= random (drawn w))%Q ->
  (random (drawn w) < 1)%Q ->
  let exponentialDelay :=
    (Retry.baseDelay config * Retry.factor config ^ attempt)%Q in
  exists d,
    fst (Retry.calculateDelay random attempt config w) = Resolved d /\
    (Qmin exponentialDelay (Retry.maxDelay config) <= d)%Q /\
    (d <= exponentialDelay * (11 # 10))%Q.
Proof.
  intros Hb Hf Hr0 Hr1. cbn zeta.
  unfold Retry.calculateDelay, bind, Retry.mathRandom, ret. cbn [fst].
  eexists. split; [reflexivity|].
  set (e := (Retry.baseDelay config * Retry.factor config ^ attempt)%Q).
  assert (He : (0 <= e)%Q).
  { unfold e. apply Qmult_le_0_compat; [assumption|].
    now apply Qpower_0_le. }
  set (r := random (drawn w)) in *.
  assert (Hj : (0 <= r * (1 # 10) * e)%Q).
  { apply Qmult_le_0_compat; [|assumption].
    apply Qmult_le_0_compat; [assumption | discriminate]. }
  assert (Hj' : (r * (1 # 10) * e <= (1 # 10) * e)%Q).
  { apply Qmult_le_compat_r; [|assumption]. lra. }
  split.
  - apply Q.min_le_compat_r. lra.
  - eapply Qle_trans; [apply Q.le_min_l|]. lra.
Qed.

(** The loop of [withRetry] when the operation fails [k] times, as
    [failure] says, and then succeeds. *)
Lemma withRetryFrom_recovers {T : Type} (script : nat -> Thrown + T)
    (x : T) (k : nat) :
  forall (a n : nat) (lastError : option JsError) (w : World),
    deadline w = None ->
    (forall i, (i < k)%nat -> exists e, script (calls w + i)%nat = inl e) ->
    script (calls w + k)%nat = inr x ->
    Z.of_nat (a + k) <= Retry.maxRetries config ->
    (k < n)%nat ->
    exists w',
      Retry.withRetryFrom random (Retry.operation script) config None
        (map Z.of_nat (seq a n)) lastError w = (Resolved x, w') /\
      calls w' = (calls w + k + 1)%nat /\
      drawn w' = (drawn w + k)%nat /\
      deadline w' = None.
Proof.
  induction k as [|k IH]; intros a n lastError w Hd Hfail Hok Ha Hn.
  - destruct n as [|n]; [lia|]. cbn [seq map Retry.withRetryFrom].
    unfold tryCatch, Retry.operation.
    rewrite Nat.add_0_r in Hok. rewrite Hok.
    eexists. split; [reflexivity|]. cbn. repeat split; lia || assumption.
  - destruct n as [|n]; [lia|]. cbn [seq map Retry.withRetryFrom].
    unfold tryCatch. unfold Retry.operation at 1.
    destruct (Hfail 0%nat) as [e He]; [lia|].
    rewrite Nat.add_0_r in He. rewrite He.
    assert (E : (Z.of_nat a =? Retry.maxRetries config) = false)
      by (apply Z.eqb_neq; lia).
    rewrite E.
    unfold bind at 1. unfold Retry.calculateDelay at 1.
    unfold bind at 1. unfold Retry.mathRandom at 1. unfold ret at 1.
    unfold bind at 1. unfold ret at 1. unfold bind at 1.
    match goal with
    | |- context [sleep ?d ?w0] =>
        destruct (sleep_without_deadline d w0) as (w1 & Es & Hc & Hdr & Hd1);
          [exact Hd|]; rewrite Es
    end.
    cbn in Hc, Hdr.
    destruct (IH (S a) n (Some (toError e)) w1 Hd1)
      as (w' & Er & Hc' & Hdr' & Hd').
    + intros i Hi. rewrite Hc.
      replace (S (calls w) + i)%nat with (calls w + S i)%nat by lia.
      apply Hfail. lia.
    + rewrite Hc.
      now replace (S (calls w) + k)%nat with (calls w + S k)%nat by lia.
    + lia.
    + lia.
    + rewrite Er. exists w'. split; [reflexivity|].
      rewrite Hc', Hdr', Hc, Hdr. repeat split; lia || assumption.
Qed.

(** X8: an operation that fails [k] times and then succeeds, with
    [k <= maxRetries] and no deadline armed, makes [withRetry] resolve
    with its result after [k + 1] invocations and [k] delays; for [k = 0]
    that is one invocation and no delay. *)
Theorem withRetry_recovers {T : Type} (script : nat -> Thrown + T) (x : T)
    (k : nat) (w : World) :
  deadline w = None ->
  (forall i, (i < k)%nat -> exists e, script (calls w + i)%nat = inl e) ->
  script (calls w + k)%nat = inr x ->
  Z.of_nat k <= Retry.maxRetries config ->
  exists w',
    Retry.withRetry random (Retry.operation script) config None w
      = (Resolved x, w') /\
    calls w' = (calls w + k + 1)%nat /\
    drawn w' = (drawn w + k)%nat.
Proof.
  intros Hd Hfail Hok Hk. unfold Retry.withRetry, Retry.attemptsOf.
  destruct (withRetryFrom_recovers script x k 0
              (Z.to_nat (Retry.maxRetries config + 1)) None w Hd Hfail Hok)
    as (w' & E & Hc & Hr & _); [lia | lia |].
  exists w'. auto.
Qed.

(** The loop of [withRetry] when every invocation fails. *)
Lemma withRetryFrom_exhausts {T : Type} (failure : nat -> Thrown) (n : nat) :
  forall (a : nat) (lastError : option JsError) (w : World),
    deadline w = None ->
    Z.of_nat (a + n) = Retry.maxRetries config + 1 ->
    (1 <= n)%nat ->
    exists w',
      Retry.withRetryFrom random
        (Retry.operation (T := T) (fun i => inl (failure i))) config None
        (map Z.of_nat (seq a n)) lastError w
        = (Rejected (ThrowError (toError (failure (calls w + n - 1)%nat))),
           w') /\
      calls w' = (calls w + n)%nat /\
      drawn w' = (drawn w + (n - 1))%nat /\
      deadline w' = None.
Proof.
  induction n as [|n IH]; intros a lastError w Hd Ha Hn; [lia|].
  cbn [seq map Retry.withRetryFrom].
  unfold tryCatch. unfold Retry.operation at 1.
  destruct (Z.of_nat a =? Retry.maxRetries config) eqn:E.
  - apply Z.eqb_eq in E. assert (n = 0%nat) by lia. subst n.
    cbn. replace (calls w + 1 - 1)%nat with (calls w) by lia.
    eexists. split; [reflexivity|]. cbn. repeat split; lia || assumption.
  - apply Z.eqb_neq in E.
    unfold bind at 1. unfold Retry.calculateDelay at 1.
    unfold bind at 1. unfold Retry.mathRandom at 1. unfold ret at 1.
    unfold bind at 1. unfold ret at 1. unfold bind at 1.
    match goal with
    | |- context [sleep ?d ?w0] =>
        destruct (sleep_without_deadline d w0) as (w1 & Es & Hc & Hdr & Hd1);
          [exact Hd|]; rewrite Es
    end.
    cbn in Hc, Hdr.
    destruct (IH (S a) (Some (toError (failure (calls w)))) w1 Hd1)
      as (w' & Er & Hc' & Hdr' & Hd'); [lia | lia |].
    rewrite Er. exists w'. rewrite Hc.
    replace (S (calls w) + n - 1)%nat with (calls w + S n - 1)%nat by lia.
    split; [reflexivity|].
    rewrite Hc', Hdr', Hc, Hdr. repeat split; lia || assumption.
Qed.

(** X9: an operation that fails every time, whatever its errors, is
    invoked exactly [maxRetries + 1] times (for [maxRetries >= 0], no
    deadline armed), with [maxRetries] delays, and [withRetry] rejects
    with the error of the last invocation, wrapped in an [Error] if it was
    not one. *)
Theorem withRetry_exhausts {T : Type} (failure : nat -> Thrown) (w : World) :
  deadline w = None ->
  0 <= Retry.maxRetries config ->
  exists w',
    Retry.withRetry random
      (Retry.operation (T := T) (fun i => inl (failure i))) config None w
      = (Rejected
           (ThrowError
              (toError
                 (failure
                    (calls w + Z.to_nat (Retry.maxRetries config))%nat))),
         w') /\
    calls w' = (calls w + Z.to_nat (Retry.maxRetries config) + 1)%nat /\
    drawn w' = (drawn w + Z.to_nat (Retry.maxRetries config))%nat.
Proof.
  intros Hd Hk. unfold Retry.withRetry, Retry.attemptsOf.
  destruct (withRetryFrom_exhausts (T := T) failure
              (Z.to_nat (Retry.maxRetries config + 1)) 0 None w Hd)
    as (w' & E & Hc & Hr & _); [lia | lia |].
  exists w'. rewrite E.
  replace (calls w + Z.to_nat (Retry.maxRetries config + 1) - 1)%nat
    with (calls w + Z.to_nat (Retry.maxRetries config))%nat by lia.
  split; [reflexivity|]. lia.
Qed.

(** X10: with a negative [maxRetries] the loop has no attempt to make:
    [withRetry] never invokes the operation and rejects with [undefined],
    the initial value of [lastError], leaving the world as it was. *)
Theorem withRetry_no_attempts {T : Type} (fn : M T)
    (onRetry : option (Z -> JsError -> Q -> M unit)) (w : World) :
  Retry.maxRetries config < 0 ->
  Retry.withRetry random fn config onRetry w
    = (Rejected (ThrowValue "undefined"), w).
Proof.
  intros H. unfold Retry.withRetry, Retry.attemptsOf.
  replace (Z.to_nat (Retry.maxRetries config + 1)) with 0%nat by lia.
  reflexivity.
Qed.

(** X11: the callback runs inside the [catch] block, so a callback that
    throws ends the loop: after the first failure of the operation
    [withRetry] rejects with what [onRetry] threw, having invoked the
    operation once and slept not at all. *)
Theorem withRetry_callback_throw_aborts {T : Type} (e thrown : Thrown)
    (w : World) :
  1 <= Retry.maxRetries config ->
  exists w',
    Retry.withRetry random (Retry.operation (T := T) (fun _ => inl e)) config
      (Some (fun _ _ _ => throw thrown)) w = (Rejected thrown, w') /\
    calls w' = S (calls w) /\
    log w' = (log w ++ [Invoke (calls w)])%list /\
    now w' = now w.
Proof.
  intros Hk. unfold Retry.withRetry, Retry.attemptsOf.
  destruct (Z.to_nat (Retry.maxRetries config + 1)) as [|n] eqn:En; [lia|].
  cbn [seq map Retry.withRetryFrom].
  unfold tryCatch, Retry.operation.
  assert (E : (Z.of_nat 0 =? Retry.maxRetries config) = false)
    by (apply Z.eqb_neq; lia).
  rewrite E. unfold bind, Retry.calculateDelay, bind, Retry.mathRandom, ret,
    throw. cbn.
  eexists. split; [reflexivity|]. cbn. auto.
Qed.

End RetryMore.

(** ** More on the runtime *)

Section RuntimeMore.
Import Errors Exec AgentRuntime.
Variable config : RuntimeConfig.
Variable random : nat -> Q.
Variable executeCore :
  World -> list Types.Message -> Types.ExecutionConfig -> Reply.

Lemma callExecuteCore_frame (msgs : list Types.Message)
    (ec : Types.ExecutionConfig) (w : World) :
  sameRuntime w (snd (callExecuteCore executeCore msgs ec w)).
Proof.
  unfold callExecuteCore, advance, sameRuntime.
  destruct (executeCore w msgs ec) as [l r|]; cbn; [|auto].
  destruct (deadline w) as [d|]; cbn; [|auto].
  destruct (d <? now w + Z.of_nat l); cbn; auto.
Qed.

Lemma sleep_frame (ms : Q) (w : World) :
  sameRuntime w (snd (sleep ms w)).
Proof.
  unfold sleep, bind, record, modify, advance, sameRuntime. cbn.
  destruct (deadline w) as [d|]; cbn; [|auto].
  destruct (d <? _); cbn; auto.
Qed.

Lemma sameRuntime_trans (w1 w2 w3 : World) :
  sameRuntime w1 w2 -> sameRuntime w2 w3 -> sameRuntime w1 w3.
Proof.
  unfold sameRuntime. intros (A & B & C) (D & E & F).
  rewrite D, E, F. auto.
Qed.

(** The retry loop touches neither the breaker nor the metrics. *)
Lemma executeWithRetryFrom_frame (msgs : list Types.Message)
    (ec : Types.ExecutionConfig) (attempts : list Z) :
  forall (lastError : option JsError) (w : World),
    sameRuntime w
      (snd (executeWithRetryFrom config random executeCore msgs ec attempts
              lastError w)).
Proof.
  induction attempts as [|attempt rest IH]; intros lastError w.
  - destruct lastError; cbn; unfold sameRuntime; auto.
  - cbn [executeWithRetryFrom]. unfold tryCatch. unfold bind at 1.
    unfold emit at 1, record at 1, modify at 1.
    match goal with
    | |- context [callExecuteCore executeCore msgs ec ?w0] =>
        pose proof (callExecuteCore_frame msgs ec w0) as Hc;
        destruct (callExecuteCore executeCore msgs ec w0) as [[x|e|] w1]
    end; cbn [snd] in *;
      assert (H0 : sameRuntime w w1)
        by (destruct Hc as (A & B & C); unfold sameRuntime;
            rewrite A, B, C; cbn; auto);
      try exact H0.
    destruct (nonRetryable e); [exact H0|].
    destruct (attempt =? Retry.maxRetries (retry config)); [exact H0|].
    unfold bind at 1. unfold calculateDelay, Retry.calculateDelay.
    unfold bind at 1. unfold Retry.mathRandom at 1. unfold ret at 1.
    unfold bind at 1. unfold emit at 1, record at 1, modify at 1.
    unfold bind at 1.
    match goal with
    | |- context [sleep ?d ?w0] =>
        pose proof (sleep_frame d w0) as Hs;
        destruct (sleep d w0) as [[u|e'|] w2]
    end; cbn [snd] in *;
      assert (H2 : sameRuntime w w2)
        by (eapply sameRuntime_trans; [exact H0|];
            destruct Hs as (A & B & C); unfold sameRuntime;
            rewrite A, B, C; cbn; auto);
      try exact H2.
    eapply sameRuntime_trans; [exact H2 | apply IH].
Qed.

Lemma executeWithRetry_frame (msgs : list Types.Message)
    (ec : Types.ExecutionConfig) (w : World) :
  sameRuntime w
    (snd (executeWithRetry config random executeCore msgs ec w)).
Proof. apply executeWithRetryFrom_frame. Qed.

(** The [try] block and its [catch]: the result, and one update of the
    breaker, by [recordSuccess] if the result is [completed] and by
    [recordFailure] otherwise. *)
Lemma try_catch_bookkeeping (eid : Types.ExecId) (task : string)
    (ec : Types.ExecutionConfig) (T : Z) (msgs : list Types.Message)
    (w : World) :
  exists r w',
    tryCatch
      (executeTry config random executeCore eid task ec T msgs
         (newResult eid msgs))
      (executeCatch eid (newResult eid msgs)) w = (Resolved r, w') /\
    metrics w' = metrics w /\
    Exec.circuitBreaker w' =
      match Exec.circuitBreaker w with
      | Some (c, cb) =>
          let cb1 := snd (CircuitBreaker.isOpen (now w) cb) in
          Some (c,
                match Types.status r with
                | ExecutionStatus.completed =>
                    CircuitBreaker.recordSuccess c cb1
                | _ => CircuitBreaker.recordFailure c (now w') (now w') cb1
                end)
      | None => None
      end /\
    ExecutionStatus.terminal (Types.status r) = true.
Proof.
  unfold tryCatch, executeTry. unfold bind at 1. unfold breakerIsOpen.
  destruct (Exec.circuitBreaker w) as [[c cb]|] eqn:Hcb.
  - destruct (CircuitBreaker.isOpen (now w) cb) as [b cb1] eqn:Hb.
    cbn [snd]. destruct b.
    + cbn. eexists _, _. split; [reflexivity|]. cbn. auto.
    + unfold bind at 1. cbn -[raceTimeout executeWithRetry].
      unfold bind at 1. unfold raceTimeout.
      match goal with
      | |- context [executeWithRetry config random executeCore msgs ec ?w0] =>
          pose proof (executeWithRetry_frame msgs ec w0) as (Fb & Fm & _);
          destruct (executeWithRetry config random executeCore msgs ec w0)
            as [[x|e|] w1]
      end; cbn in Fb, Fm; cbn;
        cbv [executeCatch bind breakerRecordSuccess breakerRecordFailure
               modify emit record ret]; cbn;
        rewrite ?Fb; cbn;
        eexists _, _; (split; [reflexivity|]); cbn;
        repeat split; try assumption; try reflexivity;
        destruct (instanceofTimeout _); reflexivity.
  - cbn -[raceTimeout executeWithRetry].
    unfold bind at 1. unfold raceTimeout.
    match goal with
    | |- context [executeWithRetry config random executeCore msgs ec ?w0] =>
        pose proof (executeWithRetry_frame msgs ec w0) as (Fb & Fm & _);
        destruct (executeWithRetry config random executeCore msgs ec w0)
          as [[x|e|] w1]
    end; cbn in Fb, Fm; cbn;
      cbv [executeCatch bind breakerRecordSuccess breakerRecordFailure
             modify emit record ret]; cbn;
      rewrite ?Fb, ?Hcb; cbn;
      eexists _, _; (split; [reflexivity|]); cbn;
      repeat split; try assumption; try congruence; try reflexivity;
      destruct (instanceofTimeout _); reflexivity.
Qed.

Lemma executeFinally_records (start : Z) (msgs : list Types.Message)
    (r : Types.ExecutionResult) (w : World) :
  exists r' w',
    executeFinally config start msgs r w = (Resolved r', w') /\
    Types.status r' = Types.status r /\
    now w' = now w /\
    Exec.circuitBreaker w' = Exec.circuitBreaker w /\
    metrics w' =
      if metricsOn config then recordExecution r' (metrics w)
      else metrics w.
Proof.
  unfold executeFinally, bind, dateNow, get, modify, ret.
  destruct (metricsOn config); cbn; eexists _, _;
    (split; [reflexivity|]); cbn; auto.
Qed.

(** [execute] on a runtime that initialises: the result and what is left
    of the breaker and of the metrics. *)
Lemma execute_bookkeeping (task : string) (ec : Types.ExecutionConfig)
    (w wi : World) :
  initialize config w = (Resolved tt, wi) ->
  exists r w',
    execute config random executeCore task ec w = (Resolved r, w') /\
    metrics w' =
      (if metricsOn config then recordExecution r (metrics wi)
       else metrics wi) /\
    Exec.circuitBreaker w' =
      match Exec.circuitBreaker w with
      | Some (c, cb) =>
          let cb1 := snd (CircuitBreaker.isOpen (now w) cb) in
          Some (c,
                match Types.status r with
                | ExecutionStatus.completed =>
                    CircuitBreaker.recordSuccess c cb1
                | _ => CircuitBreaker.recordFailure c (now w') (now w') cb1
                end)
      | None => None
      end /\
    ExecutionStatus.terminal (Types.status r) = true.
Proof.
  intros Hi.
  destruct (initialize_cases config w)
    as [(wi' & Hi' & Hn & _ & _ & _ & Hc & _) | (a & w' & Hi' & _)];
    [ | rewrite Hi in Hi'; discriminate].
  rewrite Hi in Hi'. injection Hi' as <-.
  unfold execute.
  rewrite (executeWith_unfold config random executeCore _ task ec w wi Hi).
  cbn zeta. unfold bind at 1.
  match goal with
  | |- context [tryCatch (executeTry _ _ _ ?eid _ _ ?T ?msgs _) _ ?w0] =>
      destruct (try_catch_bookkeeping eid task ec T msgs w0)
        as (r & w2 & E & Hm & Hb & Ht)
  end.
  rewrite E.
  destruct (executeFinally_records (now wi) (transcript task (now wi) (now wi))
              r w2) as (r' & w3 & E3 & Hs3 & Hn3 & Hb3 & Hm3).
  rewrite E3. exists r', w3. split; [reflexivity|].
  rewrite Hm3, Hm, Hb3, Hb, Hs3, Hn3. cbn [metrics Exec.circuitBreaker now set_drawn].
  rewrite Hc, Hn. repeat split; assumption || reflexivity.
Qed.

(** X14: a call of [execute] updates the breaker exactly once, after the
    lazy check made on entry: by [recordSuccess] when the result is
    [completed], and by one [recordFailure], at the clock reading of the
    end of the call, when it is [failed] or [timeout], however many
    attempts the retry loop made. *)
Theorem execute_updates_breaker_once (task : string)
    (ec : Types.ExecutionConfig) (w wi : World)
    (c : CircuitBreaker.CircuitBreakerConfig) (cb : CircuitBreaker.t) :
  initialize config w = (Resolved tt, wi) ->
  Exec.circuitBreaker w = Some (c, cb) ->
  exists r w',
    execute config random executeCore task ec w = (Resolved r, w') /\
    Exec.circuitBreaker w' =
      Some (c,
            match Types.status r with
            | ExecutionStatus.completed =>
                CircuitBreaker.recordSuccess c
                  (snd (CircuitBreaker.isOpen (now w) cb))
            | _ =>
                CircuitBreaker.recordFailure c (now w') (now w')
                  (snd (CircuitBreaker.isOpen (now w) cb))
            end).
Proof.
  intros Hi Hc.
  destruct (execute_bookkeeping task ec w wi Hi)
    as (r & w' & E & _ & Hb & _).
  exists r, w'. split; [exact E|]. rewrite Hb, Hc. reflexivity.
Qed.

(** X15: with metrics enabled, a call of [execute] on an initialised
    runtime records exactly one execution, that of the result it returns:
    one more execution, its duration added, one more success if it is
    [completed], one more failure if it is [failed] or [timeout], one more
    timeout if it is [timeout].  With metrics disabled the counters stay
    as they are. *)
Theorem execute_records_metrics_once (task : string)
    (ec : Types.ExecutionConfig) (w : World) :
  isInitialized w = true ->
  exists r w',
    execute config random executeCore task ec w = (Resolved r, w') /\
    (metricsOn config = false -> metrics w' = metrics w) /\
    (metricsOn config = true ->
       metrics w' = recordExecution r (metrics w) /\
       executions (metrics w') = executions (metrics w) + 1 /\
       totalDuration (metrics w')
         = totalDuration (metrics w) + Types.duration r /\
       successes (metrics w') + failures (metrics w')
         = successes (metrics w) + failures (metrics w) + 1 /\
       successes (metrics w') =
         successes (metrics w)
         + (match Types.status r with
            | ExecutionStatus.completed => 1
            | _ => 0
            end) /\
       timeouts (metrics w') =
         timeouts (metrics w)
         + (match Types.status r with
            | ExecutionStatus.timeout => 1
            | _ => 0
            end)).
Proof.
  intros Hi.
  destruct (execute_bookkeeping task ec w w (initialize_done config w Hi))
    as (r & w' & E & Hm & _ & Ht).
  exists r, w'. split; [exact E|]. split.
  - intros Hoff. now rewrite Hoff in Hm.
  - intros Hon. rewrite Hon in Hm. split; [exact Hm|]. rewrite Hm.
    unfold recordExecution. cbn.
    destruct (Types.status r); try discriminate Ht; repeat split; lia.
Qed.


Lemma timerDelay_positive (ms : Z) : 1 <= timerDelay ms.
Proof.
  unfold timerDelay.
  destruct ((1 <=? ms) && (ms <=? 2147483647)) eqn:E; [|lia].
  apply andb_prop in E as [E _]. now apply Z.leb_le.
Qed.

(** The [try] block and its [catch] when the breaker lets the call
    through, by what the retried call comes to under the deadline. *)
Lemma try_catch_raced (eid : Types.ExecId) (task : string)
    (ec : Types.ExecutionConfig) (T : Z) (msgs : list Types.Message)
    (w : World) :
  reportsOpen w = false ->
  tryCatch
    (executeTry config random executeCore eid task ec T msgs
       (newResult eid msgs))
    (executeCatch eid (newResult eid msgs)) w =
  match
    executeWithRetry config random executeCore msgs ec
      (raceStart eid task T w)
  with
  | (Resolved x, w1) =>
      let result :=
        {| Types.id := eid;
           Types.status := ExecutionStatus.completed;
           Types.output := Types.output x;
           Types.toolCalls := Types.toolCalls x;
           Types.messages := Types.messages x;
           Types.usage := Types.usage x;
           Types.duration := 0;
           Types.error := None |} in
      (Resolved result,
       snd (emit "execution:complete" (CompleteInfo eid result)
              (snd (breakerRecordSuccess (set_deadline None w1)))))
  | (Rejected e, w1) =>
      executeCatch eid (newResult eid msgs) e (set_deadline None w1)
  | (Unsettled, w1) =>
      executeCatch eid (newResult eid msgs)
        (throwAgent (AgentTimeoutError "execution" T))
        (set_deadline None (set_now (now w + timerDelay T) w1))
  end.
Proof.
  intros Ho. unfold tryCatch, executeTry, raceStart. unfold bind at 1.
  destruct (breakerIsOpen_resolves w) as (wb & E & Hn & _).
  rewrite E, Ho. cbn [snd].
  unfold bind at 1. cbn -[raceTimeout executeWithRetry].
  unfold bind at 1. unfold raceTimeout. cbn [now log set_log]. rewrite Hn.
  destruct (executeWithRetry _ _ _ _ _ _) as [[x|e|] w1]; reflexivity.
Qed.

Lemma executeCatch_result (eid : Types.ExecId) (msgs : list Types.Message)
    (e : Thrown) (w : World) :
  exists r w',
    executeCatch eid (newResult eid msgs) e w = (Resolved r, w') /\
    Types.status r =
      (if instanceofTimeout e then ExecutionStatus.timeout
       else ExecutionStatus.failed) /\
    Types.error r = Some (messageOf e) /\
    Types.output r = ""%string /\
    now w' = now w /\ calls w' = calls w.
Proof.
  unfold executeCatch, bind, breakerRecordFailure, modify, emit, record, ret.
  cbn. eexists _, _. split; [reflexivity|]. cbn.
  destruct (Exec.circuitBreaker w) as [[c cb]|]; cbn; auto 10.
Qed.

(** [execute] when the breaker lets the call through, by what the retried
    call comes to under the deadline. *)
Lemma execute_raced (task : string) (ec : Types.ExecutionConfig)
    (w wi : World) :
  initialize config w = (Resolved tt, wi) ->
  reportsOpen w = false ->
  exists wr,
    now wr = now w /\
    calls wr = calls w /\
    deadline wr = Some (now w + timerDelay (effectiveTimeout ec config)) /\
    exists r w',
      execute config random executeCore task ec w = (Resolved r, w') /\
      match
        executeWithRetry config random executeCore
          (transcript task (now w) (now w)) ec wr
      with
      | (Resolved x, w1) =>
          Types.status r = ExecutionStatus.completed /\
          Types.output r = Types.output x /\
          Types.usage r = Types.usage x /\
          Types.error r = None /\
          Types.duration r = now w1 - now w /\
          calls w' = calls w1
      | (Rejected e, w1) =>
          Types.status r =
            (if instanceofTimeout e then ExecutionStatus.timeout
             else ExecutionStatus.failed) /\
          Types.error r = Some (messageOf e) /\
          Types.output r = ""%string /\
          Types.duration r = now w1 - now w /\
          calls w' = calls w1
      | (Unsettled, w1) =>
          Types.status r = ExecutionStatus.timeout /\
          Types.error r =
            Some (message
                    (AgentTimeoutError "execution"
                       (effectiveTimeout ec config))) /\
          Types.output r = ""%string /\
          Types.duration r = timerDelay (effectiveTimeout ec config) /\
          calls w' = calls w1
      end.
Proof.
  intros Hi Ho.
  destruct (initialize_cases config w)
    as [(wi' & Hi' & Hn & Hcl & _ & _ & Hc & _) | (a & w' & Hi' & _)];
    [ | rewrite Hi in Hi'; discriminate].
  rewrite Hi in Hi'. injection Hi' as <-.
  set (T := effectiveTimeout ec config).
  set (eid := {| Types.stamp := now wi; Types.nonce := random (drawn wi) |}).
  set (w1 := set_drawn (S (drawn wi)) wi).
  assert (Ho1 : reportsOpen w1 = false).
  { rewrite <- Ho. apply reportsOpen_ext; [exact Hn | exact Hc]. }
  exists (raceStart eid task T w1).
  destruct (breakerIsOpen_resolves w1) as (wb & Eb & Hnb & Hcb & _).
  assert (Hwr : raceStart eid task T w1 =
                set_deadline (Some (now wb + timerDelay T))
                  (set_log (log wb ++ [Emit "execution:start"
                                         (StartInfo eid task)]) wb)).
  { unfold raceStart. now rewrite Eb. }
  split; [rewrite Hwr; cbn; rewrite Hnb; exact Hn|].
  split; [rewrite Hwr; cbn; rewrite Hcb; exact Hcl|].
  split; [rewrite Hwr; cbn; rewrite Hnb; cbn; now rewrite Hn|].
  unfold execute. fold T.
  rewrite (executeWith_unfold config random executeCore T task ec w wi Hi).
  cbn zeta. fold eid. fold w1. unfold bind at 1.
  rewrite (try_catch_raced eid task ec T _ w1 Ho1).
  rewrite Hn.
  destruct (executeWithRetry config random executeCore
              (transcript task (now w) (now w)) ec (raceStart eid task T w1))
    as [[x|e|] w2]; cbv beta iota zeta.
  - match goal with
    | |- context [executeFinally config ?st ?ms ?r0 ?w0] =>
        destruct (executeFinally_resolves config st ms r0 w0)
          as (r' & w3 & E3 & Hs3 & He3 & _ & Hd3 & Hn3 & Hc3 & _)
    end.
    rewrite E3. exists r', w3. split; [reflexivity|].
    rewrite Hs3, He3, Hd3, Hc3.
    unfold executeFinally, bind, dateNow, get, modify, ret in E3.
    destruct (metricsOn config); cbn in E3; injection E3 as <- <-; cbn;
      destruct (Exec.circuitBreaker w2) as [[c cb]|]; cbn; auto 10.
  - destruct (executeCatch_result eid (transcript task (now w) (now w)) e
                (set_deadline None w2))
      as (r & w3 & Ec & Hs & He & Hout & Hn3 & Hc3).
    rewrite Ec.
    destruct (executeFinally_resolves config (now w)
                (transcript task (now w) (now w)) r w3)
      as (r' & w4 & E4 & Hs4 & He4 & _ & Hd4 & Hn4 & Hc4 & _).
    rewrite E4. exists r', w4. split; [reflexivity|].
    rewrite Hs4, He4, Hd4, Hc4, Hs, He, Hn3, Hc3.
    unfold executeFinally, bind, dateNow, get, modify, ret in E4.
    destruct (metricsOn config); cbn in E4; injection E4 as <- _; cbn;
      auto 10.
  - destruct (executeCatch_result eid (transcript task (now w) (now w))
                (throwAgent (AgentTimeoutError "execution" T))
                (set_deadline None (set_now (now w1 + timerDelay T) w2)))
      as (r & w3 & Ec & Hs & He & Hout & Hn3 & Hc3).
    rewrite Ec.
    destruct (executeFinally_resolves config (now w)
                (transcript task (now w) (now w)) r w3)
      as (r' & w4 & E4 & Hs4 & He4 & _ & Hd4 & Hn4 & Hc4 & _).
    rewrite E4. exists r', w4. split; [reflexivity|].
    rewrite Hs4, He4, Hd4, Hc4, Hs, He, Hn3, Hc3.
    unfold executeFinally, bind, dateNow, get, modify, ret in E4.
    destruct (metricsOn config); cbn in E4; injection E4 as <- _; cbn;
      rewrite Hn; repeat split; try reflexivity; try assumption; lia.
Qed.

(** X16: a backend that does not answer within the effective timeout
    (it never settles, or only after more than the timer waits) makes
    [execute] end in [timeout] when the timer fires: the duration is the
    timer's delay, the error message that of the timeout error, and the
    backend has been invoked once, whatever the retry policy allows. *)
Theorem execute_times_out_on_slow_backend (task : string)
    (ec : Types.ExecutionConfig) (w wi : World) :
  initialize config w = (Resolved tt, wi) ->
  reportsOpen w = false ->
  0 <= Retry.maxRetries (retry config) ->
  (forall w0 msgs,
     match executeCore w0 msgs ec with
     | Never => True
     | Settles latency _ =>
         timerDelay (effectiveTimeout ec config) < Z.of_nat latency
     end) ->
  exists r w',
    execute config random executeCore task ec w = (Resolved r, w') /\
    Types.status r = ExecutionStatus.timeout /\
    Types.error r =
      Some (message
              (AgentTimeoutError "execution" (effectiveTimeout ec config))) /\
    Types.duration r = timerDelay (effectiveTimeout ec config) /\
    calls w' = S (calls w).
Proof.
  intros Hi Ho Hk Hslow.
  destruct (execute_raced task ec w wi Hi Ho)
    as (wr & Hn & Hc & Hd & r & w' & E & Hr).
  exists r, w'. split; [exact E|].
  revert Hr. unfold executeWithRetry, Retry.attemptsOf.
  destruct (Z.to_nat (Retry.maxRetries (retry config) + 1)) as [|n] eqn:En;
    [lia|].
  cbn [seq map executeWithRetryFrom].
  unfold tryCatch. unfold bind at 1. unfold emit at 1, record at 1, modify at 1.
  unfold callExecuteCore. cbn [log set_log calls set_calls].
  match goal with
  | |- context [executeCore ?w0 ?m ec] =>
      pose proof (Hslow w0 m) as Hs; destruct (executeCore w0 m ec) as [l o|]
  end.
  - unfold advance. cbn. rewrite Hd, Hn.
    assert (El : (now w + timerDelay (effectiveTimeout ec config)
                  <? now w + Z.of_nat l) = true) by (apply Z.ltb_lt; lia).
    rewrite El. cbn. intros (A & B & _ & C & D). rewrite D, Hc. auto.
  - cbn. intros (A & B & _ & C & D). rewrite D, Hc. auto.
Qed.

(** X18: with a negative [maxRetries] the retry loop makes no attempt, so a
    call that the breaker lets through never reaches the backend and ends
    in [failed] at once, with the error message ["undefined"]. *)
Theorem execute_without_attempts_fails (task : string)
    (ec : Types.ExecutionConfig) (w wi : World) :
  initialize config w = (Resolved tt, wi) ->
  reportsOpen w = false ->
  Retry.maxRetries (retry config) < 0 ->
  exists r w',
    execute config random executeCore task ec w = (Resolved r, w') /\
    Types.status r = ExecutionStatus.failed /\
    Types.error r = Some "undefined"%string /\
    Types.duration r = 0 /\
    calls w' = calls w.
Proof.
  intros Hi Ho Hk.
  destruct (execute_raced task ec w wi Hi Ho)
    as (wr & Hn & Hc & Hd & r & w' & E & Hr).
  exists r, w'. split; [exact E|].
  revert Hr. unfold executeWithRetry, Retry.attemptsOf.
  replace (Z.to_nat (Retry.maxRetries (retry config) + 1)) with 0%nat by lia.
  cbn. intros (A & B & _ & C & D). rewrite C, D, Hn, Hc.
  repeat split; try assumption. lia.
Qed.

(** X12: the retry loop of the runtime stops at a non-retryable error.
    When the first call of the backend fails with one ([maxRetries >= 0],
    no deadline armed), [executeWithRetry] rejects with that very error
    after this one invocation: no delay is computed, nothing is slept, and
    the only events are the attempt and the call. *)
Theorem executeWithRetry_aborts_on_non_retryable
    (msgs : list Types.Message) (ec : Types.ExecutionConfig) (w : World)
    (latency : nat) (e : Thrown) :
  deadline w = None ->
  0 <= Retry.maxRetries (retry config) ->
  (forall w0, executeCore w0 msgs ec = Settles latency (inl e)) ->
  nonRetryable e = true ->
  exists w',
    executeWithRetry config random executeCore msgs ec w = (Rejected e, w') /\
    calls w' = S (calls w) /\
    drawn w' = drawn w /\
    now w' = now w + Z.of_nat latency /\
    log w' =
      (log w ++ [Emit "execution:attempt"
                   (AttemptInfo 0 (Retry.maxRetries (retry config)));
                 Invoke (calls w)])%list.
Proof.
  intros Hd Hk Hfail Hn. unfold executeWithRetry, Retry.attemptsOf.
  destruct (Z.to_nat (Retry.maxRetries (retry config) + 1)) as [|n] eqn:En;
    [lia|].
  cbn [seq map].
  apply (executeWithRetry_stops_at_non_retryable config random executeCore
           msgs ec (Z.of_nat 0) (map Z.of_nat (seq 1 n)) None w latency e);
    auto.
Qed.

(** The loop of [executeWithRetry] when every call of the backend fails
    after [latency] ms with the retryable error [e]. *)
Lemma executeWithRetryFrom_exhausts (msgs : list Types.Message)
    (ec : Types.ExecutionConfig) (latency : nat) (e : Thrown) (n : nat) :
  (forall w0, executeCore w0 msgs ec = Settles latency (inl e)) ->
  nonRetryable e = false ->
  forall (a : nat) (lastError : option JsError) (w : World),
    deadline w = None ->
    Z.of_nat (a + n) = Retry.maxRetries (retry config) + 1 ->
    (1 <= n)%nat ->
    exists w',
      executeWithRetryFrom config random executeCore msgs ec
        (map Z.of_nat (seq a n)) lastError w
        = (Rejected (ThrowError (toError e)), w') /\
      calls w' = (calls w + n)%nat /\
      drawn w' = (drawn w + (n - 1))%nat /\
      deadline w' = None.
Proof.
  intros Hfail Hre.
  induction n as [|n IH]; intros a lastError w Hd Ha Hn; [lia|].
  cbn [seq map executeWithRetryFrom].
  unfold tryCatch. unfold bind at 1. unfold emit at 1, record at 1, modify at 1.
  unfold callExecuteCore. rewrite Hfail. unfold advance.
  cbn [deadline set_calls set_log]. rewrite Hd. cbn [fst snd].
  rewrite Hre.
  destruct (Z.of_nat a =? Retry.maxRetries (retry config)) eqn:E.
  - apply Z.eqb_eq in E. assert (n = 0%nat) by lia. subst n.
    cbn. eexists. split; [reflexivity|]. cbn. repeat split; lia || assumption.
  - apply Z.eqb_neq in E.
    unfold bind at 1. unfold calculateDelay, Retry.calculateDelay.
    unfold bind at 1. unfold Retry.mathRandom at 1. unfold ret at 1.
    unfold bind at 1. unfold emit at 1, record at 1, modify at 1.
    unfold bind at 1.
    match goal with
    | |- context [sleep ?d ?w0] =>
        destruct (sleep_without_deadline d w0) as (w1 & Es & Hc & Hdr & Hd1);
          [exact Hd|]; rewrite Es
    end.
    cbn in Hc, Hdr.
    destruct (IH (S a) (Some (toError e)) w1 Hd1)
      as (w' & Er & Hc' & Hdr' & Hd'); [lia | lia |].
    rewrite Er. exists w'. split; [reflexivity|].
    rewrite Hc', Hdr', Hc, Hdr. repeat split; lia || assumption.
Qed.

(** X13: when every call of the backend fails with a retryable error, or
    with something that is not an [AgentError] at all, [executeWithRetry]
    (no deadline armed, [maxRetries >= 0]) invokes the backend exactly
    [maxRetries + 1] times, with [maxRetries] delays, and rejects with
    that error, wrapped in an [Error] if it was not one. *)
Theorem executeWithRetry_exhausts (msgs : list Types.Message)
    (ec : Types.ExecutionConfig) (latency : nat) (e : Thrown) (w : World) :
  (forall w0, executeCore w0 msgs ec = Settles latency (inl e)) ->
  nonRetryable e = false ->
  deadline w = None ->
  0 <= Retry.maxRetries (retry config) ->
  exists w',
    executeWithRetry config random executeCore msgs ec w
      = (Rejected (ThrowError (toError e)), w') /\
    calls w' =
      (calls w + Z.to_nat (Retry.maxRetries (retry config)) + 1)%nat /\
    drawn w' = (drawn w + Z.to_nat (Retry.maxRetries (retry config)))%nat.
Proof.
  intros Hfail Hre Hd Hk. unfold executeWithRetry, Retry.attemptsOf.
  destruct (executeWithRetryFrom_exhausts msgs ec latency e
              (Z.to_nat (Retry.maxRetries (retry config) + 1)) Hfail Hre
              0 None w Hd)
    as (w' & E & Hc & Hr & _); [lia | lia |].
  exists w'. split; [exact E|]. lia.
Qed.

End RuntimeMore.

Section ShippedBackend.
Import Errors Exec AgentRuntime.
Variable config : RuntimeConfig.
Variable random : nat -> Q.

(** X17: with the backend the source ships, a call that the breaker lets
    through completes at once, whatever the timeout (a retry policy with
    [maxRetries >= 0] given): the output is the task behind
    ["Processed: "], the token total the estimate for the two messages
    plus 50, the duration 0, and the backend has been invoked once. *)
Theorem execute_completes_on_shipped_backend (task : string)
    (ec : Types.ExecutionConfig) (w wi : World) :
  initialize config w = (Resolved tt, wi) ->
  reportsOpen w = false ->
  0 <= Retry.maxRetries (retry config) ->
  exists r w',
    execute config random (executeCoreStub random) task ec w
      = (Resolved r, w') /\
    Types.status r = ExecutionStatus.completed /\
    Types.output r = ("Processed: " ++ task)%string /\
    Types.totalTokens (Types.usage r) =
      estimateTokens (transcript task (now w) (now w)) + 50 /\
    Types.error r = None /\
    Types.duration r = 0 /\
    calls w' = S (calls w).
Proof.
  intros Hi Ho Hk.
  destruct (execute_raced config random (executeCoreStub random) task ec
              w wi Hi Ho)
    as (wr & Hn & Hc & Hd & r & w' & E & Hr).
  exists r, w'. split; [exact E|].
  revert Hr. unfold executeWithRetry, Retry.attemptsOf.
  destruct (Z.to_nat (Retry.maxRetries (retry config) + 1)) as [|n] eqn:En;
    [lia|].
  cbn [seq map executeWithRetryFrom].
  unfold tryCatch. unfold bind at 1. unfold emit at 1, record at 1, modify at 1.
  unfold callExecuteCore, executeCoreStub, advance.
  cbn [deadline set_calls set_log now]. rewrite Hd, Hn.
  pose proof (timerDelay_positive (effectiveTimeout ec config)) as Hp.
  assert (El : (now w + timerDelay (effectiveTimeout ec config)
                <? now w + Z.of_nat 0) = false) by (apply Z.ltb_ge; lia).
  rewrite El. cbn.
  intros (A & B & C & D & F & G). rewrite A, B, C, D, F, G, Hc.
  repeat split. lia.
Qed.

End ShippedBackend.

Section Configuration.
Import Errors Exec AgentRuntime.
Variable config : RuntimeConfig.

Lemma range_test_passes (lo hi : Q) (x : JsNumber) :
  jsLt x lo || jsGt x hi = false <-> passes lo hi x.
Proof.
  destruct x as [q| | | |]; cbn; try tauto; try (split; [discriminate|tauto]).
  rewrite orb_false_iff, !negb_false_iff, !Qle_bool_iff. tauto.
Qed.

Lemma range_test_fails (lo hi : Q) (x : JsNumber) :
  jsLt x lo || jsGt x hi = true <-> ~ passes lo hi x.
Proof.
  rewrite <- range_test_passes.
  destruct (jsLt x lo || jsGt x hi); split; congruence.
Qed.

(** X19: [validateConfig] accepts a configuration exactly when each of the
    three fields it tests is either not a number at all ([NaN] or
    [undefined]) or a number within its range: [0, 2] for the temperature,
    [1, 128000] for [maxTokens], [1, 100] for [maxIterations].  In
    particular a configuration whose three fields are [NaN] or [undefined]
    is accepted.  What it raises otherwise names the first field, in that
    order, that holds a number out of its range, and is a plain
    [AgentError] with code [INVALID_CONFIG], not retryable. *)
Theorem validateConfig_accepts_iff :
  (validateConfig config = None <->
     passes 0 2 (temperature config) /\
     passes 1 128000 (maxTokens config) /\
     passes 1 100 (maxIterations config)) /\
  ((temperature config = NaN \/ temperature config = Undefined) /\
   (maxTokens config = NaN \/ maxTokens config = Undefined) /\
   (maxIterations config = NaN \/ maxIterations config = Undefined) ->
   validateConfig config = None) /\
  (~ passes 0 2 (temperature config) ->
   validateConfig config =
     Some (BaseAgentError "Temperature must be between 0 and 2"
             "INVALID_CONFIG" false)) /\
  (passes 0 2 (temperature config) ->
   ~ passes 1 128000 (maxTokens config) ->
   validateConfig config =
     Some (BaseAgentError "maxTokens must be between 1 and 128000"
             "INVALID_CONFIG" false)) /\
  (passes 0 2 (temperature config) ->
   passes 1 128000 (maxTokens config) ->
   ~ passes 1 100 (maxIterations config) ->
   validateConfig config =
     Some (BaseAgentError "maxIterations must be between 1 and 100"
             "INVALID_CONFIG" false)) /\
  (forall e,
     validateConfig config = Some e ->
     code e = "INVALID_CONFIG"%string /\ retryable e = false /\
     exists m, e = BaseAgentError m "INVALID_CONFIG" false).
Proof.
  assert (N : forall lo hi x, x = NaN \/ x = Undefined -> passes lo hi x).
  { intros lo hi x [-> | ->]; exact I. }
  unfold validateConfig.
  destruct (jsLt (temperature config) 0 || jsGt (temperature config) 2)
    eqn:T;
    [apply range_test_fails in T | apply range_test_passes in T].
  2: destruct (jsLt (maxTokens config) 1 || jsGt (maxTokens config) 128000)
       eqn:K;
       [apply range_test_fails in K | apply range_test_passes in K].
  3: destruct (jsLt (maxIterations config) 1
               || jsGt (maxIterations config) 100) eqn:L;
       [apply range_test_fails in L | apply range_test_passes in L].
  all: (split; [split; [intros H'; try discriminate H'; tauto
                       | intros (A & B & C); try reflexivity; tauto]|]).
  all: (split; [intros (A & B & C);
                apply (N 0%Q 2%Q) in A; apply (N 1%Q 128000%Q) in B;
                apply (N 1%Q 100%Q) in C; try reflexivity; tauto|]).
  all: (split; [intros A; try reflexivity; tauto|]).
  all: (split; [intros A B; try reflexivity; tauto|]).
  all: (split; [intros A B C; try reflexivity; tauto|]).
  all: intros e H'; try discriminate H'; injection H' as <-;
    repeat split; eexists; reflexivity.
Qed.

(** X20: [initialize] is all or nothing and idempotent.  When it resolves,
    the runtime is initialised and a further call does nothing at all.
    It rejects only on a configuration that [validateConfig] refuses: with
    the validation error, ['error'] having been delivered, when an
    ['error'] listener is registered; with the unhandled-error of [emit],
    and no ['error'] event, when none is.  Either way the runtime stays
    uninitialised, the metrics stay as they were, and a further call
    rejects with the same error. *)
Theorem initialize_all_or_nothing (w : World) :
  match initialize config w with
  | (Resolved _, wi) =>
      isInitialized wi = true /\
      initialize config wi = (Resolved tt, wi) /\
      (isInitialized w = true \/ validateConfig config = None)
  | (Rejected e, w') =>
      isInitialized w' = false /\
      metrics w' = metrics w /\
      fst (initialize config w') = Rejected e /\
      exists a,
        validateConfig config = Some a /\
        e = (if errorListener w then throwAgent a
             else unhandledError (inspect w (ErrorInfo (throwAgent a)))) /\
        log w' =
          (log w ++ Emit "initializing" NoPayload ::
             if errorListener w then [Emit "error" (ErrorInfo (throwAgent a))]
             else [])%list
  | (Unsettled, _) => False
  end.
Proof.
  destruct (isInitialized w) eqn:Hi.
  - rewrite initialize_done by assumption.
    rewrite initialize_done by assumption. auto.
  - unfold initialize at 1.
    unfold bind, get, tryCatch, emit, emitError, record, modify, throw, ret.
    cbn -[validateConfig]. rewrite Hi.
    destruct (validateConfig config) as [a|] eqn:Hv.
    + cbn. destruct (errorListener w) eqn:Hl; cbn.
      * split; [assumption|]. split; [reflexivity|].
        split;
          [|exists a; split; [reflexivity|]; split; [reflexivity|];
            now rewrite <- app_assoc].
        unfold initialize, bind, get, tryCatch, emit, emitError, record,
          modify, throw, ret.
        cbn -[validateConfig]. rewrite ?Hi, ?Hv. cbn. rewrite ?Hl.
        reflexivity.
      * split; [assumption|]. split; [reflexivity|].
        split; [|exists a; repeat split; reflexivity].
        unfold initialize, bind, get, tryCatch, emit, emitError, record,
          modify, throw, ret.
        cbn -[validateConfig]. rewrite ?Hi, ?Hv. cbn. rewrite ?Hl.
        reflexivity.
    + destruct (metricsOn config); cbn;
        (split; [reflexivity|]); (split; [reflexivity | auto]).
Qed.

End Configuration.

Section HealthFacts.
Import Exec AgentRuntime Health.
Variable config : RuntimeConfig.

Lemma getState_settled (tq : Z) (cb : CircuitBreaker.t) :
  CircuitBreaker.getState tq (snd (CircuitBreaker.getState tq cb))
    = CircuitBreaker.getState tq cb.
Proof.
  unfold CircuitBreaker.getState.
  destruct (CircuitBreaker.due tq cb) eqn:Hd; cbn [snd]; [|now rewrite Hd].
  reflexivity.
Qed.

Lemma getState_changes (tq : Z) (cb : CircuitBreaker.t) :
  let cb' := snd (CircuitBreaker.getState tq cb) in
  CircuitBreaker.failures cb' = CircuitBreaker.failures cb /\
  CircuitBreaker.successes cb' = CircuitBreaker.successes cb /\
  CircuitBreaker.lastFailureTime cb' = CircuitBreaker.lastFailureTime cb /\
  (cb' = cb \/
   CircuitBreaker.state cb = CircuitBreaker.open /\
   CircuitBreaker.state cb' = CircuitBreaker.half_open /\
   CircuitBreaker.nextAttemptTime cb' = None).
Proof.
  cbn zeta. unfold CircuitBreaker.getState.
  destruct (CircuitBreaker.due tq cb) eqn:Hd; cbn [snd]; [|auto].
  repeat (split; [reflexivity|]). right.
  unfold CircuitBreaker.due in Hd.
  destruct (CircuitBreaker.state cb); try discriminate.
  repeat split.
Qed.

(** X21: [health] always resolves, and changes nothing but what the lazy
    check of the breaker changes: the world it leaves is the one it
    started from, with the breaker as [getState] at the current clock
    reading leaves it, so the clock, the log, the metrics, the call and
    draw counters and the initialisation flag are as they were, and so
    are the breaker's counters and timestamps.  The overall status is
    [unhealthy]
    exactly when the runtime is not initialised or its breaker is found
    [open]; it is [healthy] exactly when the runtime is initialised, the
    breaker (if there is one) is found [closed] and the metrics (if
    enabled) are initialised; in all other cases it is [degraded]. *)
Theorem health_overall (up : Q) (w : World) :
  exists h w',
    health config up w = (Resolved h, w') /\
    w' =
      match Exec.circuitBreaker w with
      | Some (c, cb) =>
          set_circuitBreaker
            (Some (c, snd (CircuitBreaker.getState (now w) cb))) w
      | None => w
      end /\
    (forall c cb,
       Exec.circuitBreaker w = Some (c, cb) ->
       exists cb',
         Exec.circuitBreaker w' = Some (c, cb') /\
         CircuitBreaker.failures cb' = CircuitBreaker.failures cb /\
         CircuitBreaker.successes cb' = CircuitBreaker.successes cb /\
         CircuitBreaker.lastFailureTime cb'
           = CircuitBreaker.lastFailureTime cb /\
         (cb' = cb \/
          CircuitBreaker.state cb = CircuitBreaker.open /\
          CircuitBreaker.state cb' = CircuitBreaker.half_open /\
          CircuitBreaker.nextAttemptTime cb' = None)) /\
    (Exec.circuitBreaker w = None -> Exec.circuitBreaker w' = None) /\
    now w' = now w /\ log w' = log w /\ metrics w' = metrics w /\
    calls w' = calls w /\ drawn w' = drawn w /\ deadline w' = deadline w /\
    isInitialized w' = isInitialized w /\
    breakerState w' = breakerState w /\
    (overall h = unhealthy <->
       isInitialized w = false \/
       breakerState w = Some CircuitBreaker.open) /\
    (overall h = healthy <->
       isInitialized w = true /\
       (breakerState w = None \/
        breakerState w = Some CircuitBreaker.closed) /\
       (metricsOn config = false \/
        AgentMetrics.isHealthy (metrics w) = true)) /\
    (overall h = degraded <->
       isInitialized w = true /\
       breakerState w <> Some CircuitBreaker.open /\
       (breakerState w = Some CircuitBreaker.half_open \/
        (metricsOn config = true /\
         AgentMetrics.isHealthy (metrics w) = false))).
Proof.
  unfold health, breakerState.
  destruct (Exec.circuitBreaker w) as [[c cb]|] eqn:Hc.
  - pose proof (getState_settled (now w) cb) as Hid.
    pose proof (getState_changes (now w) cb) as Hch.
    destruct (CircuitBreaker.getState (now w) cb) as [s cb'] eqn:Hg.
    cbn [fst snd] in Hid, Hch.
    eexists _, _. split; [reflexivity|]. split; [reflexivity|].
    split.
    { intros c0 cb0 E. injection E as <- <-. exists cb'.
      split; [reflexivity|]. exact Hch. }
    split; [discriminate|].
    cbn. rewrite Hid. cbn.
    do 7 (split; [reflexivity|]). split; [reflexivity|].
    destruct (isInitialized w), s, (metricsOn config),
      (AgentMetrics.isHealthy (metrics w)); cbn;
      repeat split; intros; try discriminate; try reflexivity;
      try tauto; try congruence;
      repeat match goal with
             | H : _ /\ _ |- _ => destruct H
             | H : _ \/ _ |- _ => destruct H
             end; try discriminate; try congruence; auto.
  - eexists _, _. split; [reflexivity|]. split; [reflexivity|].
    split; [discriminate|]. split; [intros _; exact Hc|].
    cbn. rewrite Hc.
    do 8 (split; [reflexivity|]).
    destruct (isInitialized w), (metricsOn config),
      (AgentMetrics.isHealthy (metrics w)); cbn;
      repeat split; intros; try discriminate; try reflexivity;
      try tauto; try congruence;
      repeat match goal with
             | H : _ /\ _ |- _ => destruct H
             | H : _ \/ _ |- _ => destruct H
             end; try discriminate; try congruence; auto.
Qed.

End HealthFacts.

Section Tokens.
Import AgentRuntime.

Lemma estimateTokens_from (msgs : list Types.Message) : forall acc : Z,
  fold_left
    (fun sum msg =>
       sum + (Z.of_nat (String.length (Types.content msg)) + 3) / 4)
    msgs acc = acc + estimateTokens msgs.
Proof.
  unfold estimateTokens.
  induction msgs as [|m l IH]; intros acc; cbn [fold_left]; [lia|].
  rewrite IH. rewrite (IH (0 + _)). lia.
Qed.

(** X22: the token estimate is additive over transcripts, 0 for the empty
    one, and within a rounding of a quarter of the characters: four times
    the estimate is at least the number of characters and exceeds it by at
    most 3 for each message. *)
Theorem estimateTokens_bounds (a b : list Types.Message) :
  estimateTokens [] = 0 /\
  estimateTokens (a ++ b) = estimateTokens a + estimateTokens b /\
  let chars :=
    fold_right Z.add 0
      (map (fun m => Z.of_nat (String.length (Types.content m))) a) in
  chars <= 4 * estimateTokens a <= chars + 3 * Z.of_nat (List.length a).
Proof.
  split; [reflexivity|]. split.
  - unfold estimateTokens at 1. rewrite fold_left_app.
    rewrite estimateTokens_from. reflexivity.
  - cbn zeta. induction a as [|m l IH]; [cbn; lia|].
    unfold estimateTokens. cbn [fold_left map fold_right List.length].
    rewrite estimateTokens_from.
    set (n := Z.of_nat (String.length (Types.content m))).
    assert (0 <= n) by (unfold n; lia).
    pose proof (Z.div_mod (n + 3) 4 ltac:(lia)) as Hdm.
    pose proof (Z.mod_pos_bound (n + 3) 4 ltac:(lia)) as Hb.
    rewrite Nat2Z.inj_succ. lia.
Qed.

End Tokens.

Section MetricsFacts.
Import Exec.

Lemma metrics_invariant (m : Metrics) :
  AgentMetrics.reachable m ->
  0 <= successes m /\ 0 <= timeouts m /\ timeouts m <= failures m /\
  successes m + failures m <= executions m.
Proof.
  induction 1 as [ | m _ IH | r m _ IH | m _ IH ].
  - cbn. lia.
  - exact IH.
  - unfold AgentRuntime.recordExecution. cbn.
    destruct (Types.status r); lia.
  - cbn. lia.
Qed.

(** X23: the counters of a metrics object stay consistent: successes and
    timeouts are never negative, every timeout is also counted as a
    failure, successes and failures together never exceed the executions,
    and the success rate [getMetrics] reports lies between 0 and 100 (it is
    0 when nothing has been executed). *)
Theorem metrics_counters_consistent (m : Metrics) :
  AgentMetrics.reachable m ->
  0 <= successes m /\
  0 <= timeouts m <= failures m /\
  successes m + failures m <= executions m /\
  (0 <= AgentMetrics.successRate (AgentMetrics.getMetrics m))%Q /\
  (AgentMetrics.successRate (AgentMetrics.getMetrics m) <= 100)%Q /\
  (executions m = 0 ->
   AgentMetrics.successRate (AgentMetrics.getMetrics m) = 0%Q /\
   AgentMetrics.averageDuration (AgentMetrics.getMetrics m) = 0%Q).
Proof.
  intros Hr. destruct (metrics_invariant m Hr) as (H1 & H2 & H3 & H4).
  repeat (split; [lia|]).
  unfold AgentMetrics.getMetrics. cbn.
  destruct (0 <? executions m) eqn:E.
  - apply Z.ltb_lt in E.
    assert (He : (0 < inject_Z (executions m))%Q)
      by (rewrite <- (Zlt_Qlt 0); exact E).
    assert (Hs : (0 <= inject_Z (successes m))%Q)
      by (rewrite <- (Zle_Qle 0); exact H1).
    assert (Hse : (inject_Z (successes m) <= inject_Z (executions m))%Q)
      by (rewrite <- Zle_Qle; lia).
    assert (Hd0 : (0 <= inject_Z (successes m) / inject_Z (executions m))%Q).
    { apply Qle_shift_div_l; [exact He|]. lra. }
    assert (Hd1 : (inject_Z (successes m) / inject_Z (executions m) <= 1)%Q).
    { apply Qle_shift_div_r; [exact He|]. lra. }
    split; [lra|]. split; [lra|]. intros H0. lia.
  - split; [lra|]. split; [lra|]. auto.
Qed.

End MetricsFacts.

Section CollectorFacts.
Import Exec MetricCollector.

Lemma set_set (id : string) (a b : nat) (r : Registry) :
  set id b (set id a r) = set id b r.
Proof.
  induction r as [|[k v] rest IH]; cbn.
  - now rewrite String.eqb_refl.
  - destruct (String.eqb k id) eqn:E; cbn; rewrite E; [reflexivity|].
    now rewrite IH.
Qed.

Lemma delete_set_fresh (id : string) (ref : nat) (r : Registry) :
  ~ In id (map fst r) ->
  delete id (set id ref r) = r.
Proof.
  induction r as [|[k v] rest IH]; cbn; intros Hn.
  - now rewrite String.eqb_refl.
  - destruct (String.eqb k id) eqn:E.
    + apply String.eqb_eq in E. tauto.
    + cbn. rewrite E. rewrite IH; [reflexivity | tauto].
Qed.

Lemma delete_not_in (id : string) (r : Registry) :
  ~ In id (map fst r) -> delete id r = r.
Proof.
  induction r as [|[k v] rest IH]; cbn; intros Hn; [reflexivity|].
  destruct (String.eqb k id) eqn:E.
  - apply String.eqb_eq in E. tauto.
  - rewrite IH; [reflexivity | tauto].
Qed.

(** X24: the collector's map keeps one entry per identifier: registering
    an identifier again replaces its metrics object instead of adding a
    second one, so the aggregate counts the last one registered only. *)
Theorem register_replaces (store : Store) (id : string) (a b : nat)
    (r : Registry) :
  register id b (register id a r) = register id b r /\
  List.length (register id b (register id a r))
    = List.length (register id a r) /\
  In (id, b) (register id b (register id a r)) /\
  getAggregatedMetrics store (register id b (register id a r))
    = getAggregatedMetrics store (register id b r).
Proof.
  unfold register. split; [apply set_set|]. split; [|split].
  - induction r as [|[k v] rest IH]; cbn.
    + now rewrite String.eqb_refl.
    + destruct (String.eqb k id) eqn:E; cbn; rewrite E; cbn;
        [reflexivity | now rewrite IH].
  - rewrite set_set. induction r as [|[k v] rest IH]; cbn.
    + now left.
    + destruct (String.eqb k id) eqn:E.
      * apply String.eqb_eq in E. subst k. now left.
      * now right.
  - now rewrite set_set.
Qed.

(** X25: unregistering an identifier that was registered on a collector
    that did not have it gives back the collector as it was, and its
    aggregate with it; unregistering an identifier the collector does not
    have changes nothing. *)
Theorem register_unregister (store : Store) (id : string) (a : nat)
    (r : Registry) :
  ~ In id (map fst r) ->
  unregister id (register id a r) = r /\
  getAggregatedMetrics store (unregister id (register id a r))
    = getAggregatedMetrics store r /\
  unregister id r = r.
Proof.
  unfold register, unregister. intros Hn.
  rewrite delete_set_fresh by assumption.
  rewrite delete_not_in by assumption. auto.
Qed.

Lemma sums_from (store : Store) (r : Registry) : forall acc : Sums,
  let s := fold_left (addTo store) r acc in
  sumExecutions s = sumExecutions acc + sumExecutions (sums store r) /\
  sumSuccesses s = sumSuccesses acc + sumSuccesses (sums store r) /\
  sumFailures s = sumFailures acc + sumFailures (sums store r) /\
  sumTokens s = sumTokens acc + sumTokens (sums store r).
Proof.
  unfold sums. induction r as [|e rest IH]; intros acc; cbn [fold_left].
  - cbn. lia.
  - cbn zeta in *.
    destruct (IH (addTo store acc e)) as (A & B & C & D).
    destruct (IH (addTo store
                    {| sumExecutions := 0; sumSuccesses := 0;
                       sumFailures := 0; sumTokens := 0; sumCost := 0%Q |} e))
      as (A' & B' & C' & D').
    rewrite A, B, C, D, A', B', C', D'. cbn. lia.
Qed.

Lemma sums_app (store : Store) (r1 r2 : Registry) :
  sums store (r1 ++ r2)%list = fold_left (addTo store) r2 (sums store r1).
Proof. unfold sums. apply fold_left_app. Qed.

Lemma sums_cost_from (store : Store) (r : Registry) : forall acc : Sums,
  (sumCost (fold_left (addTo store) r acc)
   == sumCost acc + sumCost (sums store r))%Q.
Proof.
  unfold sums. induction r as [|e rest IH]; intros acc; cbn [fold_left].
  - cbn. ring.
  - rewrite (IH (addTo store acc e)).
    rewrite (IH (addTo store
                   {| sumExecutions := 0; sumSuccesses := 0;
                      sumFailures := 0; sumTokens := 0; sumCost := 0%Q |} e)).
    cbn. ring.
Qed.

(** X26: the aggregate adds up what the registered metrics objects hold at
    the time of the call.  Over a collector with a single registered
    object it gives that object's executions, successes, failures, tokens,
    cost and success rate; over two collectors put end to end the totals of
    executions, successes, failures, tokens and cost are the sums of the
    two totals; over an empty collector every total is 0, with a success
    rate of 0. *)
Theorem aggregate_additive (store : Store) (r1 r2 : Registry)
    (id : string) (ref : nat) :
  let all := getAggregatedMetrics store (r1 ++ r2)%list in
  let one := getAggregatedMetrics store r1 in
  let two := getAggregatedMetrics store r2 in
  let single := getAggregatedMetrics store [(id, ref)] in
  let none := getAggregatedMetrics store [] in
  (totalExecutions single = executions (store ref) /\
   totalSuccesses single = successes (store ref) /\
   totalFailures single = failures (store ref) /\
   totalTokens single = Exec.totalTokens (store ref) /\
   (totalCost single == Exec.totalCost (store ref))%Q /\
   overallSuccessRate single
     = AgentMetrics.successRate (AgentMetrics.getMetrics (store ref))) /\
  (totalExecutions all = totalExecutions one + totalExecutions two /\
   totalSuccesses all = totalSuccesses one + totalSuccesses two /\
   totalFailures all = totalFailures one + totalFailures two /\
   totalTokens all = totalTokens one + totalTokens two /\
   (totalCost all == totalCost one + totalCost two)%Q) /\
  (totalExecutions none = 0 /\
   totalSuccesses none = 0 /\
   totalFailures none = 0 /\
   totalTokens none = 0 /\
   totalCost none = 0%Q /\
   overallSuccessRate none = 0%Q).
Proof.
  cbn zeta. split; [|split].
  - unfold getAggregatedMetrics, sums. cbn.
    repeat (split; [reflexivity|]). split; [ring | reflexivity].
  - unfold getAggregatedMetrics. cbn [totalExecutions totalSuccesses
      totalFailures totalTokens totalCost].
    rewrite sums_app.
    destruct (sums_from store r2 (sums store r1)) as (A & B & C & D).
    repeat (split; [assumption|]). apply sums_cost_from.
  - repeat split.
Qed.

(** X27: when every registered metrics object is one the metrics methods
    can produce, the overall success rate of the aggregate lies between 0
    and 100, and the successes it totals never exceed the executions. *)
Theorem aggregate_rate_in_range (store : Store) (r : Registry) :
  (forall e, In e r -> AgentMetrics.reachable (store (snd e))) ->
  let all := getAggregatedMetrics store r in
  0 <= totalSuccesses all <= totalExecutions all /\
  (0 <= overallSuccessRate all)%Q /\
  (overallSuccessRate all <= 100)%Q.
Proof.
  intros Hall. cbn zeta. unfold getAggregatedMetrics.
  cbn [totalExecutions totalSuccesses overallSuccessRate].
  assert (Hinv : 0 <= sumSuccesses (sums store r)
                 /\ sumSuccesses (sums store r)
                    <= sumExecutions (sums store r)).
  { clear - Hall. induction r as [|e rest IH] using rev_ind; [cbn; lia|].
    rewrite sums_app. cbn [fold_left].
    destruct IH as [I1 I2]; [intros x Hx; apply Hall, in_or_app; now left|].
    pose proof (metrics_invariant (store (snd e))
                  (Hall e ltac:(apply in_or_app; right; now left)))
      as (M1 & M2 & M3 & M4).
    cbn. lia. }
  destruct Hinv as [H1 H2]. split; [lia|].
  destruct (0 <? sumExecutions (sums store r)) eqn:E; [|split; lra].
  apply Z.ltb_lt in E.
  set (s := sumSuccesses (sums store r)) in *.
  set (x := sumExecutions (sums store r)) in *.
  assert (He : (0 < inject_Z x)%Q) by (rewrite <- (Zlt_Qlt 0); exact E).
  assert (Hs : (0 <= inject_Z s)%Q) by (rewrite <- (Zle_Qle 0); exact H1).
  assert (Hse : (inject_Z s <= inject_Z x)%Q) by (rewrite <- Zle_Qle; lia).
  assert (Hd0 : (0 <= inject_Z s / inject_Z x)%Q).
  { apply Qle_shift_div_l; [exact He|]. lra. }
  assert (Hd1 : (inject_Z s / inject_Z x <= 1)%Q).
  { apply Qle_shift_div_r; [exact He|]. lra. }
  split; lra.
Qed.

End CollectorFacts.

(** ** The further properties on the scenarios *)

Section FurtherOnScenarios.
Import Errors Exec AgentRuntime Scenario Cases.

(** On a new runtime whose configuration is refused and whose ['error']
    event nobody listens to, [execute] rejects with the unhandled-error of
    [emit], not with the validation error, and calls no backend. *)
Lemma refused_config_without_listener :
  exists w',
    execute feverish evenDraws silent "Hello" Types.noOverrides
      (construct feverish 1000 printer)
    = (Rejected
         (ThrowError
            (PlainError
               "Unhandled error. ({ error: Temperature must be between 0 and 2 })")),
       w') /\
    calls w' = 0%nat /\ isInitialized w' = false /\
    log w' = [Emit "initializing" NoPayload].
Proof. eexists. split; [vm_compute; reflexivity|]. repeat split. Qed.

(** The same once a listener is registered: the rejection is the
    validation error, after the ['error'] event. *)
Lemma refused_config_with_listener :
  exists w',
    (onError ;;;
     execute feverish evenDraws silent "Hello" Types.noOverrides)
      (construct feverish 1000 printer)
    = (Rejected
         (throwAgent
            (BaseAgentError "Temperature must be between 0 and 2"
               "INVALID_CONFIG" false)),
       w') /\
    calls w' = 0%nat /\ isInitialized w' = false /\
    log w' =
      [Emit "initializing" NoPayload;
       Emit "error"
         (ErrorInfo
            (throwAgent
               (BaseAgentError "Temperature must be between 0 and 2"
                  "INVALID_CONFIG" false)))].
Proof. eexists. split; [vm_compute; reflexivity|]. repeat split. Qed.

(** A configuration whose three tested fields are [undefined] or [NaN]
    is accepted, and the runtime executes with it. *)
Lemma unset_fields_are_accepted :
  validateConfig unset = None /\
  exists r w',
    execute unset evenDraws (executeCoreStub evenDraws) "Hello"
      Types.noOverrides (construct unset 1000 printer) = (Resolved r, w') /\
    Types.status r = ExecutionStatus.completed /\
    isInitialized w' = true.
Proof.
  split; [reflexivity|].
  eexists _, _. split; [vm_compute; reflexivity|]. repeat split.
Qed.

Lemma tripped_reachable : CircuitBreaker.reachable testBreaker tripped.
Proof.
  unfold tripped, CircuitBreaker.recordFailures. cbn [fold_left fst snd].
  do 3 apply CircuitBreaker.reach_recordFailure.
  apply CircuitBreaker.reach_new.
Defined.

Lemma reopened_reachable : CircuitBreaker.reachable testBreaker reopened.
Proof.
  unfold reopened, CircuitBreaker.recordFailures. cbn [fold_left fst snd].
  apply CircuitBreaker.reach_recordFailure.
  apply CircuitBreaker.reach_recordSuccess.
  apply CircuitBreaker.reach_getState.
  do 3 apply CircuitBreaker.reach_recordFailure.
  apply CircuitBreaker.reach_new.
Defined.

Lemma closed_success_forgets_failures_witness :
  CircuitBreaker.state
    (CircuitBreaker.recordFailures testBreaker [(3, 3); (4, 4)]
       (CircuitBreaker.recordSuccess testBreaker
          (CircuitBreaker.recordFailures testBreaker [(1, 1); (2, 2)]
             CircuitBreaker.initial))) =
    if CircuitBreaker.failureThreshold testBreaker
         <=? Z.of_nat (List.length [(3, 3); (4, 4)])
    then CircuitBreaker.open else CircuitBreaker.closed.
Proof.
  apply (closed_success_forgets_failures testBreaker CircuitBreaker.initial
           [(1, 1); (2, 2)] [(3, 3); (4, 4)]);
    [cbn; lia | reflexivity | reflexivity | cbn; lia].
Defined.

Lemma open_breaker_has_deadline_witness :
  (CircuitBreaker.state tripped <> CircuitBreaker.open ->
   CircuitBreaker.nextAttemptTime tripped = None) /\
  (CircuitBreaker.state tripped = CircuitBreaker.open ->
   exists d,
     CircuitBreaker.nextAttemptTime tripped = Some d /\
     forall q,
       fst (CircuitBreaker.getState q tripped) =
         if negb (d =? 0) && (d <=? q)
         then CircuitBreaker.half_open else CircuitBreaker.open).
Proof.
  apply (open_breaker_has_deadline testBreaker tripped).
  exact tripped_reachable.
Defined.

Lemma breaker_counters_in_range_witness :
  0 <= CircuitBreaker.failures reopened /\
  0 <= CircuitBreaker.successes reopened /\
  (CircuitBreaker.state reopened <> CircuitBreaker.half_open ->
   CircuitBreaker.successes reopened = 0) /\
  (0 < CircuitBreaker.failures reopened ->
   CircuitBreaker.lastFailureTime reopened <> None) /\
  (1 <= CircuitBreaker.successThreshold testBreaker ->
   CircuitBreaker.successes reopened
     < CircuitBreaker.successThreshold testBreaker).
Proof.
  apply (breaker_counters_in_range testBreaker reopened).
  exact reopened_reachable.
Defined.

Lemma breaker_full_cycle_witness :
  let opened :=
    CircuitBreaker.recordFailure testBreaker 1000 1000
      (CircuitBreaker.recordFailures testBreaker
         [(1000, 1000); (1000, 1000)] CircuitBreaker.initial) in
  let probing := snd (CircuitBreaker.getState 2000 opened) in
  CircuitBreaker.state opened = CircuitBreaker.open /\
  CircuitBreaker.state probing = CircuitBreaker.half_open /\
  CircuitBreaker.state (CircuitBreaker.recordSuccesses testBreaker 1 probing)
    = CircuitBreaker.half_open /\
  CircuitBreaker.recordSuccesses testBreaker 2 probing
    = CircuitBreaker.mk CircuitBreaker.closed 0 0 (Some 1000) None.
Proof.
  apply (breaker_full_cycle testBreaker CircuitBreaker.initial
           [(1000, 1000); (1000, 1000)] 1000 1000 2000 1);
    [ apply CircuitBreaker.reach_new | reflexivity | reflexivity
    | reflexivity | cbn; lia | cbn; lia | reflexivity ].
Defined.

Lemma calculateDelay_window_witness :
  let exponentialDelay :=
    (Retry.baseDelay oneRetry * Retry.factor oneRetry ^ 1)%Q in
  exists d,
    fst (Retry.calculateDelay evenDraws 1 oneRetry fresh) = Resolved d /\
    (Qmin exponentialDelay (Retry.maxDelay oneRetry) <= d)%Q /\
    (d <= exponentialDelay * (11 # 10))%Q.
Proof.
  apply (calculateDelay_window evenDraws oneRetry 1 fresh);
    [discriminate | discriminate | discriminate | reflexivity].
Defined.

Lemma withRetry_recovers_witness :
  exists w',
    Retry.withRetry evenDraws (Retry.operation flaky) (retry testConfig)
      None fresh = (Resolved "success"%string, w') /\
    calls w' = (calls fresh + 2 + 1)%nat /\
    drawn w' = (drawn fresh + 2)%nat.
Proof.
  apply (withRetry_recovers evenDraws (retry testConfig) flaky
           "success"%string 2 fresh).
  - reflexivity.
  - intros i Hi. destruct i as [|[|i]]; [eexists; reflexivity.. | lia].
  - reflexivity.
  - cbn. lia.
Defined.

Lemma withRetry_exhausts_witness :
  exists w',
    Retry.withRetry evenDraws
      (Retry.operation (T := unit) (fun i => inl (hopeless i))) oneRetry
      None fresh
      = (Rejected
           (ThrowError
              (toError
                 (hopeless
                    (calls fresh + Z.to_nat (Retry.maxRetries oneRetry))%nat))),
         w') /\
    calls w' = (calls fresh + Z.to_nat (Retry.maxRetries oneRetry) + 1)%nat /\
    drawn w' = (drawn fresh + Z.to_nat (Retry.maxRetries oneRetry))%nat.
Proof.
  apply (withRetry_exhausts evenDraws oneRetry (T := unit) hopeless fresh);
    [reflexivity | cbn; lia].
Defined.

Lemma withRetry_no_attempts_witness :
  Retry.withRetry evenDraws (Retry.operation flaky) noAttempt None fresh
    = (Rejected (ThrowValue "undefined"), fresh).
Proof.
  apply (withRetry_no_attempts evenDraws noAttempt (Retry.operation flaky)
           None fresh).
  cbn. lia.
Defined.

Lemma withRetry_callback_throw_aborts_witness :
  exists w',
    Retry.withRetry evenDraws
      (Retry.operation (T := unit) (fun _ => inl toolFailure)) oneRetry
      (Some (fun _ _ _ => throw (ThrowValue "stop"))) fresh
      = (Rejected (ThrowValue "stop"), w') /\
    calls w' = S (calls fresh) /\
    log w' = (log fresh ++ [Invoke (calls fresh)])%list /\
    now w' = now fresh.
Proof.
  apply (withRetry_callback_throw_aborts evenDraws oneRetry (T := unit)
           toolFailure (ThrowValue "stop") fresh).
  cbn. lia.
Defined.

Lemma executeWithRetry_aborts_on_non_retryable_witness :
  exists w',
    executeWithRetry testConfig evenDraws brokenTool [] Types.noOverrides
      fresh = (Rejected toolFailure, w') /\
    calls w' = S (calls fresh) /\
    drawn w' = drawn fresh /\
    now w' = now fresh + Z.of_nat 5 /\
    log w' =
      (log fresh ++ [Emit "execution:attempt"
                       (AttemptInfo 0 (Retry.maxRetries (retry testConfig)));
                     Invoke (calls fresh)])%list.
Proof.
  apply (executeWithRetry_aborts_on_non_retryable testConfig evenDraws
           brokenTool [] Types.noOverrides fresh 5 toolFailure);
    [reflexivity | cbn; lia | reflexivity | reflexivity].
Defined.

Lemma executeWithRetry_exhausts_witness :
  exists w',
    executeWithRetry testConfig evenDraws overloaded [] Types.noOverrides
      fresh
      = (Rejected
           (ThrowError
              (toError
                 (throwAgent
                    (AgentRateLimitError "Rate limit exceeded" (Some 60)
                       (Some 0) (Some 0) None)))), w') /\
    calls w' =
      (calls fresh + Z.to_nat (Retry.maxRetries (retry testConfig)) + 1)%nat
    /\
    drawn w' =
      (drawn fresh + Z.to_nat (Retry.maxRetries (retry testConfig)))%nat.
Proof.
  apply (executeWithRetry_exhausts testConfig evenDraws overloaded []
           Types.noOverrides 5
           (throwAgent
              (AgentRateLimitError "Rate limit exceeded" (Some 60) (Some 0)
                 (Some 0) None)) fresh);
    [reflexivity | reflexivity | reflexivity | cbn; lia].
Defined.

Lemma execute_updates_breaker_once_witness :
  exists r w',
    execute testConfig evenDraws silent "Hello" Types.noOverrides ready
      = (Resolved r, w') /\
    Exec.circuitBreaker w' =
      Some (testBreaker,
            match Types.status r with
            | ExecutionStatus.completed =>
                CircuitBreaker.recordSuccess testBreaker
                  (snd (CircuitBreaker.isOpen (now ready)
                          CircuitBreaker.initial))
            | _ =>
                CircuitBreaker.recordFailure testBreaker (now w') (now w')
                  (snd (CircuitBreaker.isOpen (now ready)
                          CircuitBreaker.initial))
            end).
Proof.
  apply (execute_updates_breaker_once testConfig evenDraws silent "Hello"
           Types.noOverrides ready ready testBreaker CircuitBreaker.initial);
    reflexivity.
Defined.

Lemma execute_records_metrics_once_witness :
  exists r w',
    execute testConfig evenDraws silent "Hello" Types.noOverrides ready
      = (Resolved r, w') /\
    (metricsOn testConfig = false -> metrics w' = metrics ready) /\
    (metricsOn testConfig = true ->
       metrics w' = recordExecution r (metrics ready) /\
       executions (metrics w') = executions (metrics ready) + 1 /\
       totalDuration (metrics w')
         = totalDuration (metrics ready) + Types.duration r /\
       successes (metrics w') + failures (metrics w')
         = successes (metrics ready) + failures (metrics ready) + 1 /\
       successes (metrics w') =
         successes (metrics ready)
         + (match Types.status r with
            | ExecutionStatus.completed => 1
            | _ => 0
            end) /\
       timeouts (metrics w') =
         timeouts (metrics ready)
         + (match Types.status r with
            | ExecutionStatus.timeout => 1
            | _ => 0
            end)).
Proof.
  apply (execute_records_metrics_once testConfig evenDraws silent "Hello"
           Types.noOverrides ready).
  reflexivity.
Defined.

Lemma execute_times_out_on_slow_backend_witness :
  exists r w',
    execute testConfig evenDraws silent "Hello" Types.noOverrides ready
      = (Resolved r, w') /\
    Types.status r = ExecutionStatus.timeout /\
    Types.error r =
      Some (message
              (AgentTimeoutError "execution"
                 (effectiveTimeout Types.noOverrides testConfig))) /\
    Types.duration r
      = timerDelay (effectiveTimeout Types.noOverrides testConfig) /\
    calls w' = S (calls ready).
Proof.
  apply (execute_times_out_on_slow_backend testConfig evenDraws silent
           "Hello" Types.noOverrides ready ready);
    [reflexivity | reflexivity | cbn; lia | intros w0 msgs; exact I].
Defined.

Lemma execute_completes_on_shipped_backend_witness :
  exists r w',
    execute testConfig evenDraws (executeCoreStub evenDraws) "Hello"
      Types.noOverrides ready = (Resolved r, w') /\
    Types.status r = ExecutionStatus.completed /\
    Types.output r = ("Processed: " ++ "Hello")%string /\
    Types.totalTokens (Types.usage r) =
      estimateTokens (transcript "Hello" (now ready) (now ready)) + 50 /\
    Types.error r = None /\
    Types.duration r = 0 /\
    calls w' = S (calls ready).
Proof.
  apply (execute_completes_on_shipped_backend testConfig evenDraws "Hello"
           Types.noOverrides ready ready);
    [reflexivity | reflexivity | cbn; lia].
Defined.

Lemma execute_without_attempts_fails_witness :
  exists r w',
    execute noAttemptConfig evenDraws silent "Hello" Types.noOverrides ready
      = (Resolved r, w') /\
    Types.status r = ExecutionStatus.failed /\
    Types.error r = Some "undefined"%string /\
    Types.duration r = 0 /\
    calls w' = calls ready.
Proof.
  apply (execute_without_attempts_fails noAttemptConfig evenDraws silent
           "Hello" Types.noOverrides ready ready);
    [reflexivity | reflexivity | cbn; lia].
Defined.

Lemma metrics_counters_consistent_witness :
  let m := someStore 0%nat in
  0 <= successes m /\
  0 <= timeouts m <= failures m /\
  successes m + failures m <= executions m /\
  (0 <= AgentMetrics.successRate (AgentMetrics.getMetrics m))%Q /\
  (AgentMetrics.successRate (AgentMetrics.getMetrics m) <= 100)%Q /\
  (executions m = 0 ->
   AgentMetrics.successRate (AgentMetrics.getMetrics m) = 0%Q /\
   AgentMetrics.averageDuration (AgentMetrics.getMetrics m) = 0%Q).
Proof.
  apply (metrics_counters_consistent (someStore 0%nat)).
  cbn [someStore]. apply AgentMetrics.reach_record.
  apply AgentMetrics.reach_new.
Defined.

Lemma register_unregister_witness :
  MetricCollector.unregister "a"
    (MetricCollector.register "a" 0%nat [("b"%string, 1%nat)])
    = [("b"%string, 1%nat)] /\
  MetricCollector.getAggregatedMetrics someStore
    (MetricCollector.unregister "a"
       (MetricCollector.register "a" 0%nat [("b"%string, 1%nat)]))
    = MetricCollector.getAggregatedMetrics someStore [("b"%string, 1%nat)] /\
  MetricCollector.unregister "a" [("b"%string, 1%nat)]
    = [("b"%string, 1%nat)].
Proof.
  apply (register_unregister someStore "a" 0%nat [("b"%string, 1%nat)]).
  cbn. intros [H | []]. discriminate H.
Defined.

Lemma aggregate_rate_in_range_witness :
  let all :=
    MetricCollector.getAggregatedMetrics someStore
      [("a"%string, 0%nat); ("b"%string, 1%nat)] in
  0 <= MetricCollector.totalSuccesses all
    <= MetricCollector.totalExecutions all /\
  (0 <= MetricCollector.overallSuccessRate all)%Q /\
  (MetricCollector.overallSuccessRate all <= 100)%Q.
Proof.
  apply (aggregate_rate_in_range someStore
           [("a"%string, 0%nat); ("b"%string, 1%nat)]).
  intros e [<- | [<- | []]]; cbn [snd someStore].
  - apply AgentMetrics.reach_record. apply AgentMetrics.reach_new.
  - apply AgentMetrics.reach_new.
Defined.

End FurtherOnScenarios.
